(** * Order-book analytics and streaming transport: a shallow embedding

    The development follows the repository file by file:

    - [JsNum]: the fragment of JavaScript number semantics the code relies
      on (finite values as exact rationals, the two infinities and NaN).
    - [Float64]: rounding to the nearest binary64 number, and the four
      operations with their results rounded.
    - [Calculator]: [services/calculator.js], the static methods of
      [OrderBookCalculator].
    - [Service]: [services/websocket.js], the class
      [OrderBookWebSocketService].
    - [Hook]: [hooks/useWebSocket.js] together with the subscription
      helpers of [hooks/useOrderBook.js].
    - [CalculatorRest]: the volume statistics and the validation of
      [services/calculator.js].
    - [OrderBookHook]: the message handler and the subscription functions
      of [hooks/useOrderBook.js].

    Finite numbers are rationals.  [calculateVWAP] and
    [calculateOptimalSizing], whose results depend on how sums and
    differences round, are modelled with the rounded operations of
    [Float64]; elsewhere arithmetic is exact, and what is proved there
    are comparisons and the formulas of the code.  Signed zeros are not
    distinguished. *)

From Stdlib Require Import QArith Qminmax Qabs Qround ZArith List Bool Lia Lqa.
From Stdlib Require Import Permutation Sorted String Ascii DecimalString.
From Stdlib Require Import Qpower Qreduction Qcanon.
Import ListNotations.

Set Warnings "-register-all".
Local Open Scope Q_scope.

(* ------------------------------------------------------------------ *)
(** ** JavaScript numbers *)

Module JsNum.

(** A JavaScript number: a finite value, [Infinity], [-Infinity] or [NaN]. *)
Inductive num : Type :=
| Fin (q : Q)
| PInf
| NInf
| NaN.

(** [a < b] on finite numbers, as a boolean. *)
Definition Qltb (a b : Q) : bool := negb (Qle_bool b a).

Definition Qsign (q : Q) : comparison := Qcompare q 0.

(** [a / b] on finite operands.  Division by zero yields an infinity of the
    sign of the dividend, and [0 / 0] yields [NaN]. *)
Definition jsdiv (a b : Q) : num :=
  match Qsign b with
  | Eq => match Qsign a with
          | Eq => NaN
          | Gt => PInf
          | Lt => NInf
          end
  | _ => Fin (a / b)
  end.

Definition nneg (a : num) : num :=
  match a with
  | Fin q => Fin (- q)
  | PInf => NInf
  | NInf => PInf
  | NaN => NaN
  end.

Definition nadd (a b : num) : num :=
  match a, b with
  | NaN, _ | _, NaN => NaN
  | Fin x, Fin y => Fin (x + y)
  | PInf, NInf | NInf, PInf => NaN
  | PInf, _ | _, PInf => PInf
  | NInf, _ | _, NInf => NInf
  end.

Definition nsub (a b : num) : num := nadd a (nneg b).

(** The sign of an infinite product. *)
Definition inf_of_sign (c : comparison) : num :=
  match c with
  | Eq => NaN
  | Gt => PInf
  | Lt => NInf
  end.

Definition nsign (a : num) : option comparison :=
  match a with
  | Fin q => Some (Qsign q)
  | PInf => Some Gt
  | NInf => Some Lt
  | NaN => None
  end.

Definition mul_sign (c d : comparison) : comparison :=
  match c, d with
  | Eq, _ | _, Eq => Eq
  | Gt, Gt | Lt, Lt => Gt
  | _, _ => Lt
  end.

Definition nmul (a b : num) : num :=
  match a, b with
  | Fin x, Fin y => Fin (x * y)
  | _, _ =>
      match nsign a, nsign b with
      | Some c, Some d => inf_of_sign (mul_sign c d)
      | _, _ => NaN
      end
  end.

Definition ndiv (a b : num) : num :=
  match a, b with
  | Fin x, Fin y => jsdiv x y
  | NaN, _ | _, NaN => NaN
  | Fin _, _ => Fin 0
  | _, Fin y => match a, Qsign y with
                | PInf, Lt => NInf
                | NInf, Lt => PInf
                | _, _ => a
                end
  | _, _ => NaN
  end.

Definition nabs (a : num) : num :=
  match a with
  | Fin q => Fin (Qabs q)
  | PInf | NInf => PInf
  | NaN => NaN
  end.

(** [a > b]; every comparison with [NaN] is false. *)
Definition ngtb (a b : num) : bool :=
  match a, b with
  | NaN, _ | _, NaN => false
  | Fin x, Fin y => Qltb y x
  | PInf, PInf => false
  | PInf, _ => true
  | _, NInf => match a with NInf => false | _ => true end
  | _, _ => false
  end.

Definition nltb (a b : num) : bool := ngtb b a.

(** [x || 0] on a number: [0] and [NaN] are falsy. *)
Definition or_zero (a : num) : num :=
  match a with
  | NaN => Fin 0
  | _ => a
  end.

Definition is_finite (a : num) : bool :=
  match a with
  | Fin _ => true
  | _ => false
  end.


(** A number lies in the closed interval [[lo, hi]]. *)
Definition in_range (lo hi : Q) (a : num) : Prop :=
  match a with
  | Fin q => lo <= q /\ q <= hi
  | _ => False
  end.

End JsNum.

(* ------------------------------------------------------------------ *)
(** ** Rounding to binary64 *)

(** The arithmetic of [calculateVWAP] and [calculateOptimalSizing]: every
    operation returns the binary64 number nearest to the exact result. *)
Module Float64.
Import JsNum.

(** The exponents of the least positive number, [2^-1074], and of the
    last place of the largest numbers, [m * 2^971] with [m < 2^53]. *)
Definition emin : Z := (-1074)%Z.
Definition emax : Z := 971%Z.

(** [n / d < 2^k] *)
Definition below (n d : positive) (k : Z) : bool :=
  if (0 <=? k)%Z then (Zpos n <? Zpos d * 2 ^ k)%Z
  else (Zpos n * 2 ^ (- k) <? Zpos d)%Z.

(** The integer part of the binary logarithm of [n / d]. *)
Definition ilog2 (n d : positive) : Z :=
  let k := (Z.log2 (Zpos n) - Z.log2 (Zpos d))%Z in
  if below n d k then (k - 1)%Z else k.

(** The exponent of the last place of a significand of 53 bits for
    [n / d]; below [2^-1022] the numbers are subnormal. *)
Definition exponentOf (n d : positive) : Z := Z.max emin (ilog2 n d - 52).

(** The integer nearest to [n / d], ties to the even one. *)
Definition nearestEven (n d : Z) : Z :=
  let q := (n / d)%Z in
  let r := (n mod d)%Z in
  match (2 * r ?= d)%Z with
  | Lt => q
  | Gt => (q + 1)%Z
  | Eq => if Z.even q then q else (q + 1)%Z
  end.

(** [m * 2^e], in lowest terms. *)
Definition scaled (m e : Z) : Q :=
  Qred (if (0 <=? e)%Z then inject_Z (m * 2 ^ e) else m # Z.to_pos (2 ^ (- e))).

Definition roundPos (n d : positive) : num :=
  let e := exponentOf n d in
  let m := if (0 <=? e)%Z then nearestEven (Zpos n) (Zpos d * 2 ^ e)
           else nearestEven (Zpos n * 2 ^ (- e)) (Zpos d) in
  if (emax <? e)%Z || ((e =? emax)%Z && (2 ^ 53 <=? m)%Z) then PInf
  else Fin (scaled m e).

(** The binary64 number nearest to [q], ties to even; beyond the largest
    number the result is an infinity. *)
Definition round64 (q : Q) : num :=
  match Qnum q with
  | Z0 => Fin 0
  | Zpos n => roundPos n (Qden q)
  | Zneg n => nneg (roundPos n (Qden q))
  end.


Definition rounded (a : num) : num :=
  match a with
  | Fin q => round64 q
  | _ => a
  end.

(** [a + b], [a - b], [a * b] and [a / b] *)
Definition fadd (a b : num) : num := rounded (nadd a b).
Definition fsub (a b : num) : num := rounded (nsub a b).
Definition fmul (a b : num) : num := rounded (nmul a b).
Definition fdiv (a b : num) : num := rounded (ndiv a b).

(** [a <= b]; false when an operand is [NaN]. *)
Definition nleb (a b : num) : bool :=
  match a, b with
  | NaN, _ | _, NaN => false
  | _, _ => negb (ngtb a b)
  end.

(** [Math.min(a, b)] and [Math.max(a, b)]; [NaN] when an operand is. *)
Definition nmin (a b : num) : num :=
  match a, b with
  | NaN, _ | _, NaN => NaN
  | _, _ => if ngtb a b then b else a
  end.

Definition nmax (a b : num) : num :=
  match a, b with
  | NaN, _ | _, NaN => NaN
  | _, _ => if ngtb b a then b else a
  end.

End Float64.

(* ------------------------------------------------------------------ *)
(** ** services/calculator.js *)

Module Calculator.
Import JsNum Float64.

(** The image of a key or value under [parseFloat]: a finite number, or
    [None] for [NaN].  The strings [Infinity] and [-Infinity], which
    [parseFloat] reads as the infinities, are not covered. *)
Definition parsed : Type := option Q.

(** One own property of a [Bids] or [Asks] object: the parsed key (price)
    and the parsed value (quantity). *)
Definition entry : Type := (parsed * parsed)%type.

(** A [Bids] or [Asks] object, as its properties in enumeration order
    (the order of [Object.keys], [Object.values] and [Object.entries]). *)
Definition side : Type := list entry.

(** An order book.  [None] in [Bids] or [Asks] is a missing (falsy)
    property. *)
Record orderBook : Type := {
  Bids : option side;
  Asks : option side;
  Sources : option (list string);
  Exchange : option string
}.

Inductive orderSide : Type := buy | sell.

(** [p > 0] on a parsed number; false on [NaN]. *)
Definition gt0 (p : parsed) : bool :=
  match p with
  | Some q => Qltb 0 q
  | None => false
  end.

(** *** Array.prototype.sort *)

(** Insertion of [x], which precedes every element of [l] in the input,
    into the sorted list [l]: [x] goes after exactly the elements [y] with
    [cmp y x < 0].  A comparator result of [NaN] counts as [0]. *)
Fixpoint insert_by {A : Type} (cmp : A -> A -> num) (x : A) (l : list A) : list A :=
  match l with
  | [] => [x]
  | y :: l' => if nltb (cmp y x) (Fin 0) then y :: insert_by cmp x l'
               else x :: y :: l'
  end.

(** [l.sort(cmp)]: a stable sort by a comparator returning a number. *)
Definition js_sort {A : Type} (cmp : A -> A -> num) (l : list A) : list A :=
  fold_right (insert_by cmp) [] l.

Definition ascending (a b : Q) : num := Fin (a - b).
Definition descending (a b : Q) : num := Fin (b - a).

(** *** getBestPrices *)

Record bestPrices : Type := {
  bestBid : Q;
  bestAsk : Q;
  spread : Q;
  spreadPercent : Q;
  midPrice : Q
}.

Definition zeroPrices : bestPrices :=
  {| bestBid := 0; bestAsk := 0; spread := 0; spreadPercent := 0; midPrice := 0 |}.

(** [Object.keys(o).map(parseFloat).filter(p => !isNaN(p) && p > 0)] *)
Fixpoint positivePrices (s : side) : list Q :=
  match s with
  | [] => []
  | (Some p, _) :: s' => if Qltb 0 p then p :: positivePrices s' else positivePrices s'
  | (None, _) :: s' => positivePrices s'
  end.

(** [l.length > 0 ? l[0] : 0] *)
Definition first_or_zero (l : list Q) : Q :=
  match l with
  | [] => 0
  | x :: _ => x
  end.

Definition getBestPrices (orderBook : option orderBook) : bestPrices :=
  match orderBook with
  | None => zeroPrices
  | Some ob =>
      match Bids ob, Asks ob with
      | Some bids, Some asks =>
          let bidPrices := js_sort descending (positivePrices bids) in
          let askPrices := js_sort ascending (positivePrices asks) in
          let bestBid := first_or_zero bidPrices in
          let bestAsk := first_or_zero askPrices in
          let spread := bestAsk - bestBid in
          let midPrice :=
            if Qltb 0 bestBid && Qltb 0 bestAsk then (bestBid + bestAsk) / 2 else 0 in
          let spreadPercent :=
            if Qltb 0 midPrice then (spread / midPrice) * 100 else 0 in
          {| bestBid := bestBid; bestAsk := bestAsk; spread := spread;
             spreadPercent := spreadPercent; midPrice := midPrice |}
      | _, _ => zeroPrices
      end
  end.

(** *** calculateVWAP *)

(** A level after parsing and filtering: price and quantity. *)
Record order : Type := { price : Q; quantity : Q }.

(** An element of [filledOrders]. *)
Record filledOrder : Type := { fillPrice : Q; fillQuantity : num; fillCost : num }.

(** [Object.entries(o).map(parse).filter(o => o.price > 0 && o.quantity > 0)] *)
Fixpoint parseOrders (s : side) : list order :=
  match s with
  | [] => []
  | (Some p, Some q) :: s' =>
      if Qltb 0 p && Qltb 0 q then {| price := p; quantity := q |} :: parseOrders s'
      else parseOrders s'
  | _ :: s' => parseOrders s'
  end.

Definition byPrice (sd : orderSide) (a b : order) : num :=
  match sd with
  | buy => Fin (price a - price b)
  | sell => Fin (price b - price a)
  end.

(** The mutable locals of the fill loop. *)
Record fillState : Type := {
  fsRemaining : num;
  fsCost : num;
  fsFilled : num;
  fsOrders : list filledOrder
}.

(** The [for ... of] loop over the sorted levels, with its [break]. *)
Fixpoint fillLoop (sortedOrders : list order) (st : fillState) : fillState :=
  match sortedOrders with
  | [] => st
  | o :: rest =>
      if nleb (fsRemaining st) (Fin 0) then st
      else
        let fillQuantity := nmin (fsRemaining st) (Fin (quantity o)) in
        let fillCost := fmul fillQuantity (Fin (price o)) in
        fillLoop rest
          {| fsRemaining := fsub (fsRemaining st) fillQuantity;
             fsCost := fadd (fsCost st) fillCost;
             fsFilled := fadd (fsFilled st) fillQuantity;
             fsOrders := fsOrders st ++
               [{| fillPrice := price o; fillQuantity := fillQuantity;
                   fillCost := fillCost |}] |}
  end.

(** The result of [calculateVWAP].  The early returns leave
    [averagePrice], [totalCost] and [filledOrders] undefined. *)
Record vwapResult : Type := {
  vwap : num;
  totalVolume : num;
  remainingVolume : num;
  priceImpact : num;
  averagePrice : option num;
  totalCost : option num;
  filledOrders : option (list filledOrder)
}.

Definition unfilled (volume : num) : vwapResult :=
  {| vwap := Fin 0; totalVolume := Fin 0; remainingVolume := volume;
     priceImpact := Fin 0;
     averagePrice := None; totalCost := None; filledOrders := None |}.

(** The side of the book a market order of side [sd] consumes. *)
Definition consumed (ob : orderBook) (sd : orderSide) : option side :=
  match sd with
  | buy => Asks ob
  | sell => Bids ob
  end.

Definition referenceOf (bp : bestPrices) (sd : orderSide) : Q :=
  match sd with
  | buy => bestAsk bp
  | sell => bestBid bp
  end.

(** The sort by price.  The difference of two prices rounds to a number
    of the same sign, so the exact difference decides the order. *)
Definition sortedOrdersOf (orders : side) (sd : orderSide) : list order :=
  js_sort (byPrice sd) (parseOrders orders).

(** [((p - referencePrice) / referencePrice) * 100] *)
Definition relativeTo (referencePrice : Q) (p : num) : num :=
  fmul (fdiv (fsub p (Fin referencePrice)) (Fin referencePrice)) (Fin 100).

Definition calculateVWAP (orderBook : option orderBook) (volume : num) (sd : orderSide)
  : vwapResult :=
  match orderBook with
  | None => unfilled volume
  | Some ob =>
      if nleb volume (Fin 0) then unfilled volume
      else
        match consumed ob sd with
        | None => unfilled volume
        | Some [] => unfilled volume
        | Some orders =>
            let sortedOrders := sortedOrdersOf orders sd in
            let st := fillLoop sortedOrders
                        {| fsRemaining := volume; fsCost := Fin 0; fsFilled := Fin 0;
                           fsOrders := [] |} in
            let vwap := if ngtb (fsFilled st) (Fin 0)
                        then fdiv (fsCost st) (fsFilled st) else Fin 0 in
            let referencePrice := referenceOf (getBestPrices orderBook) sd in
            let priceImpact :=
              if Qltb 0 referencePrice then relativeTo referencePrice vwap else Fin 0 in
            {| vwap := vwap; totalVolume := fsFilled st;
               remainingVolume := fsRemaining st; priceImpact := priceImpact;
               averagePrice := Some vwap; totalCost := Some (fsCost st);
               filledOrders := Some (fsOrders st) |}
        end
  end.

(** *** calculateMarketDepth *)

Record depthLevel : Type := {
  dlPrice : Q;
  dlQuantity : Q;
  cumulativeVolume : Q;
  dlTotal : Q
}.

(** The [map] with the running [cumulativeVolume]. *)
Fixpoint cumulate (cum : Q) (l : list order) : list depthLevel :=
  match l with
  | [] => []
  | o :: l' =>
      let cum' := cum + quantity o in
      {| dlPrice := price o; dlQuantity := quantity o; cumulativeVolume := cum';
         dlTotal := price o * quantity o |} :: cumulate cum' l'
  end.

Definition processSide (levels : nat) (orders : side) (isAsk : bool) : list depthLevel :=
  let cmp := fun a b =>
    if isAsk then Fin (price a - price b) else Fin (price b - price a) in
  cumulate 0 (firstn levels (js_sort cmp (parseOrders orders))).

(** [l.reduce((sum, level) => sum + level.quantity, 0)] *)
Definition sumQuantity (l : list depthLevel) : Q :=
  fold_left (fun sum level => sum + dlQuantity level) l 0.

(** The result of [calculateMarketDepth]; the early return has no
    [imbalance] property. *)
Record marketDepth : Type := {
  bidDepth : list depthLevel;
  askDepth : list depthLevel;
  totalBidVolume : Q;
  totalAskVolume : Q;
  imbalance : option num
}.

Definition calculateMarketDepth (orderBook : option orderBook) (levels : nat)
  : marketDepth :=
  let empty := {| bidDepth := []; askDepth := []; totalBidVolume := 0;
                  totalAskVolume := 0; imbalance := None |} in
  match orderBook with
  | None => empty
  | Some ob =>
      match Bids ob, Asks ob with
      | Some bids, Some asks =>
          let bidDepth := processSide levels bids false in
          let askDepth := processSide levels asks true in
          let totalBidVolume := sumQuantity bidDepth in
          let totalAskVolume := sumQuantity askDepth in
          {| bidDepth := bidDepth; askDepth := askDepth;
             totalBidVolume := totalBidVolume; totalAskVolume := totalAskVolume;
             imbalance :=
               Some (jsdiv (totalBidVolume - totalAskVolume)
                           (totalBidVolume + totalAskVolume)) |}
      | _, _ => empty
      end
  end.


(** *** calculateQualityMetrics *)

(** The result of [calculateQualityMetrics]; the early return has no
    [midPrice] property. *)
Record qualityMetrics : Type := {
  qmSpread : Q;
  spreadBps : num;
  qmDepth : Q;
  liquidity : num;
  efficiency : num;
  stability : num;
  qmMidPrice : option Q
}.

(** [!x] on a finite number. *)
Definition falsy (x : Q) : bool := Qeq_bool x 0.

(** [depth.imbalance || 0], where the property may be undefined. *)
Definition imbalanceOrZero (d : marketDepth) : num :=
  match imbalance d with
  | Some i => or_zero i
  | None => Fin 0
  end.

Definition calculateQualityMetrics (orderBook : option orderBook) : qualityMetrics :=
  let bp := getBestPrices orderBook in
  let depth := calculateMarketDepth orderBook 20 in
  if falsy (bestBid bp) || falsy (bestAsk bp) then
    {| qmSpread := 0; spreadBps := Fin 0; qmDepth := 0; liquidity := Fin 0;
       efficiency := Fin 0; stability := Fin 0; qmMidPrice := None |}
  else
    let spreadBps := nmul (jsdiv (spread bp) (midPrice bp)) (Fin 10000) in
    let totalNearVolume := totalBidVolume depth + totalAskVolume depth in
    let liquidity := jsdiv totalNearVolume (midPrice bp) in
    let efficiency :=
      if ngtb liquidity (Fin 0)
      then ndiv (Fin 1) (nmul spreadBps (ndiv (Fin 1) liquidity))
      else Fin 0 in
    let stability := nsub (Fin 1) (nabs (imbalanceOrZero depth)) in
    {| qmSpread := spread bp; spreadBps := spreadBps; qmDepth := totalNearVolume;
       liquidity := liquidity; efficiency := efficiency; stability := stability;
       qmMidPrice := Some (midPrice bp) |}.

(** *** calculateOptimalSizing *)

(** What a call produces: a value, or a thrown [TypeError]. *)
Inductive outcome (A : Type) : Type :=
| Returned (a : A)
| TypeError.
Arguments Returned {A} a.
Arguments TypeError {A}.

Record recommendation : Type := {
  size : num;
  recPrice : num;
  slippage : num;
  cost : option num
}.

(** The result of [calculateOptimalSizing]; the early return has no
    [referencePrice] property. *)
Record sizing : Type := {
  maxSize : num;
  recommendations : list recommendation;
  szReferencePrice : option Q
}.

(** [Math.max(Object.values(orders)[0] || 0, 0.01)].  [first] is the
    number [Math.max] makes of its first argument: the first value in
    enumeration order when that is a number other than [0] and [NaN], [0]
    when it is falsy, and for a non-empty string the number the whole
    string denotes, [NaN] when it denotes none. *)
Definition stepOf (first : num) : num := nmax first (round64 (1 # 100)).

(** The [while (currentSize < 1000)] loop.  [fuel] bounds the number of
    iterations; [None] means the bound was reached. *)
Fixpoint sizingLoop (fuel : nat) (ob : orderBook) (sd : orderSide)
  (referencePrice : Q) (maxSlippage step currentSize : num)
  (recs : list recommendation) : option (list recommendation) :=
  match fuel with
  | O => None
  | S fuel' =>
      if nltb currentSize (Fin 1000) then
        let currentSize := fadd currentSize step in
        let v := calculateVWAP (Some ob) currentSize sd in
        if ngtb (remainingVolume v) (Fin 0) then Some recs
        else
          let slippage := relativeTo referencePrice (vwap v) in
          let recs := recs ++ [{| size := currentSize; recPrice := vwap v;
                                  slippage := slippage; cost := totalCost v |}] in
          if ngtb (nabs slippage) maxSlippage then Some recs
          else sizingLoop fuel' ob sd referencePrice maxSlippage step currentSize recs
      else Some recs
  end.

(** [recs.length > 0 ? recs[recs.length - 1].size : 0] *)
Definition lastSize (recs : list recommendation) : num :=
  match rev recs with
  | r :: _ => size r
  | [] => Fin 0
  end.

(** [calculateOptimalSizing(orderBook, maxSlippage, side)], with the
    number [first] that [Math.max] reads from the first value of the
    consumed side.  The method dereferences [orderBook] without a guard:
    on [null] it throws.  [None] means that [fuel] iterations of the loop
    were not enough. *)
Definition calculateOptimalSizing (fuel : nat) (o : option orderBook) (first : num)
  (maxSlippage : num) (sd : orderSide) : option (outcome sizing) :=
  match o with
  | None => Some TypeError
  | Some ob =>
      match consumed ob sd with
      | None | Some [] =>
          Some (Returned {| maxSize := Fin 0; recommendations := [];
                            szReferencePrice := None |})
      | Some (_ :: _) =>
          let referencePrice := referenceOf (getBestPrices o) sd in
          let step := stepOf first in
          match sizingLoop fuel ob sd referencePrice maxSlippage step (Fin 0) [] with
          | Some recs =>
              Some (Returned {| maxSize := lastSize recs; recommendations := recs;
                                szReferencePrice := Some referencePrice |})
          | None => None
          end
      end
  end.

(** *** compareOrderBooks *)

(** One element of [exchangeData]: the exchange name, the spread of
    [getBestPrices], then the spread of [calculateQualityMetrics], whose
    properties win where both objects have one. *)
Record exchangeInfo : Type := {
  exchange : string;
  eiBestBid : Q;
  eiBestAsk : Q;
  eiSpread : Q;
  eiSpreadPercent : Q;
  eiMidPrice : Q;
  eiSpreadBps : num;
  eiDepth : Q;
  eiLiquidity : num;
  eiEfficiency : num;
  eiStability : num;
  eiOrderBook : orderBook
}.

(** A string operand of [||]: the empty string is falsy. *)
Definition truthy (o : option string) : option string :=
  match o with
  | Some EmptyString => None
  | _ => o
  end.

(** [ob.Sources?.[0] || ob.Exchange || 'Unknown'] on an order book. *)
Definition exchangeName (ob : orderBook) : string :=
  let firstSource :=
    match Sources ob with
    | Some (s :: _) => Some s
    | _ => None
    end in
  match truthy firstSource with
  | Some s => s
  | None =>
      match truthy (Exchange ob) with
      | Some s => s
      | None => "Unknown"%string
      end
  end.

(** The callback of [orderBooks.map].  The property access [ob.Sources]
    throws on [null] and [undefined]. *)
Definition describe (o : option orderBook) : outcome exchangeInfo :=
  let prices := getBestPrices o in
  let quality := calculateQualityMetrics o in
  match o with
  | None => TypeError
  | Some ob =>
      Returned
        {| exchange := exchangeName ob;
           eiBestBid := bestBid prices;
           eiBestAsk := bestAsk prices;
           eiSpread := qmSpread quality;
           eiSpreadPercent := spreadPercent prices;
           eiMidPrice := match qmMidPrice quality with
                         | Some m => m
                         | None => midPrice prices
                         end;
           eiSpreadBps := spreadBps quality;
           eiDepth := qmDepth quality;
           eiLiquidity := liquidity quality;
           eiEfficiency := efficiency quality;
           eiStability := stability quality;
           eiOrderBook := ob |}
  end.

(** [orderBooks.map(describe)]: the first throwing call aborts the map. *)
Fixpoint describeAll (obs : list (option orderBook)) : outcome (list exchangeInfo) :=
  match obs with
  | [] => Returned []
  | o :: obs' =>
      match describe o with
      | TypeError => TypeError
      | Returned d =>
          match describeAll obs' with
          | TypeError => TypeError
          | Returned ds => Returned (d :: ds)
          end
      end
  end.

(** The predicate of the [filter]: [data.bestBid > 0 && data.bestAsk > 0]. *)
Definition tradable (d : exchangeInfo) : bool :=
  Qltb 0 (eiBestBid d) && Qltb 0 (eiBestAsk d).

Record opportunity : Type := {
  buyExchange : string;
  sellExchange : string;
  buyPrice : Q;
  sellPrice : Q;
  profit : Q;
  profitPercent : num
}.

(** Buying at [b]'s best ask and selling at [s]'s best bid. *)
Definition opportunityOf (b s : exchangeInfo) : opportunity :=
  let profit := eiBestBid s - eiBestAsk b in
  {| buyExchange := exchange b; sellExchange := exchange s;
     buyPrice := eiBestAsk b; sellPrice := eiBestBid s;
     profit := profit;
     profitPercent := nmul (jsdiv profit (eiBestAsk b)) (Fin 100) |}.

(** The inner loop over [j > i], with both directions tested. *)
Fixpoint arbitrageWith (b : exchangeInfo) (rest : list exchangeInfo) : list opportunity :=
  match rest with
  | [] => []
  | s :: rest' =>
      (if Qltb (eiBestAsk b) (eiBestBid s) then [opportunityOf b s] else []) ++
      (if Qltb (eiBestAsk s) (eiBestBid b) then [opportunityOf s b] else []) ++
      arbitrageWith b rest'
  end.

(** The outer loop over [i]. *)
Fixpoint findArbitrage (data : list exchangeInfo) : list opportunity :=
  match data with
  | [] => []
  | b :: rest => arbitrageWith b rest ++ findArbitrage rest
  end.

(** The callback of the [reduce] that selects the best exchange. *)
Definition pickBest (best current : exchangeInfo) : exchangeInfo :=
  let currentScore := or_zero (eiEfficiency current) in
  let bestScore := or_zero (eiEfficiency best) in
  if ngtb currentScore bestScore then current else best.

(** [Math.min(...l)] and [Math.max(...l)] on finite numbers. *)
Definition mathMin (l : list Q) : num :=
  match l with
  | [] => PInf
  | x :: l' => Fin (fold_left Qmin l' x)
  end.

Definition mathMax (l : list Q) : num :=
  match l with
  | [] => NInf
  | x :: l' => Fin (fold_left Qmax l' x)
  end.

(** [l.reduce((a, b) => a + b, 0)] *)
Definition sumQ (l : list Q) : Q := fold_left Qplus l 0.

Record summaryStats : Type := {
  averageSpread : num;
  averageMidPrice : num;
  spreadRange : num * num;
  priceRange : num * num;
  exchanges : list string
}.

Definition summarize (data : list exchangeInfo) : summaryStats :=
  let spreads := map eiSpreadPercent data in
  let midPrices := map eiMidPrice data in
  let n := inject_Z (Z.of_nat (List.length data)) in
  {| averageSpread := jsdiv (sumQ spreads) n;
     averageMidPrice := jsdiv (sumQ midPrices) n;
     spreadRange := (mathMin spreads, mathMax spreads);
     priceRange := (mathMin midPrices, mathMax midPrices);
     exchanges := map exchange data |}.

(** The result of [compareOrderBooks].  [summary = None] is the empty
    object, [bestExchange = None] is [null], and the short result has no
    [exchangeData] property. *)
Record comparisonResult : Type := {
  arbitrage : list opportunity;
  bestExchangeName : option string;
  exchangeData : option (list exchangeInfo);
  summary : option summaryStats
}.

Definition emptyComparison : comparisonResult :=
  {| arbitrage := []; bestExchangeName := None; exchangeData := None;
     summary := None |}.

Definition byProfitPercent (a b : opportunity) : num :=
  nsub (profitPercent b) (profitPercent a).

Definition compareOrderBooks (orderBooks : list (option orderBook))
  : outcome comparisonResult :=
  if (List.length orderBooks <? 2)%nat then Returned emptyComparison
  else
    match describeAll orderBooks with
    | TypeError => TypeError
    | Returned described =>
        let data := filter tradable described in
        match data with
        | first :: _ :: _ =>
            Returned
              {| arbitrage := js_sort byProfitPercent (findArbitrage data);
                 bestExchangeName := Some (exchange (fold_left pickBest (tl data) first));
                 exchangeData := Some data;
                 summary := Some (summarize data) |}
        | _ => Returned emptyComparison
        end
    end.

End Calculator.

(* ------------------------------------------------------------------ *)
(** ** Messages, JSON text and timers *)

Module Wire.

(** The JSON values the transport builds.  Numbers on the wire are
    millisecond timestamps, hence integers. *)
Inductive json : Type :=
| JNull
| JNum (n : Z)
| JStr (s : string)
| JArr (items : list json)
| JObj (fields : list (string * json)).

Definition dquote : string := String (ascii_of_nat 34) EmptyString.
Definition backslash : ascii := ascii_of_nat 92.

(** Escaping inside a JSON string literal: the quote and the backslash. *)
Fixpoint escape (s : string) : string :=
  match s with
  | EmptyString => EmptyString
  | String c s' =>
      if (c =? ascii_of_nat 34)%char || (c =? backslash)%char
      then String backslash (String c (escape s'))
      else String c (escape s')
  end.

Definition quoted (s : string) : string := (dquote ++ escape s ++ dquote)%string.

Fixpoint joinWith (sep : string) (l : list string) : string :=
  match l with
  | [] => EmptyString
  | [x] => x
  | x :: l' => (x ++ sep ++ joinWith sep l')%string
  end.

(** [JSON.stringify] on the values above. *)
Fixpoint stringify (j : json) : string :=
  match j with
  | JNull => "null"
  | JNum n => DecimalString.NilZero.string_of_int (Z.to_int n)
  | JStr s => quoted s
  | JArr items => ("[" ++ joinWith "," (map stringify items) ++ "]")%string
  | JObj fields =>
      ("{" ++ joinWith ","
                (map (fun kv => (quoted (fst kv) ++ ":" ++ stringify (snd kv))%string)
                     fields) ++ "}")%string
  end.

(** Property lookup on a JSON object. *)
Fixpoint lookup (k : string) (fields : list (string * json)) : option json :=
  match fields with
  | [] => None
  | (k', v) :: fields' => if String.eqb k k' then Some v else lookup k fields'
  end.

(** What a caller hands to a send function: a string, an [ArrayBuffer]
    (by its byte length) or an object. *)
Inductive payload : Type :=
| Text (s : string)
| Binary (byteLength : nat)
| Object (j : json).

(** [String.prototype.toUpperCase] on ASCII text. *)
Definition upperChar (c : ascii) : ascii :=
  let n := nat_of_ascii c in
  if (97 <=? n)%nat && (n <=? 122)%nat then ascii_of_nat (n - 32) else c.

Fixpoint toUpperCase (s : string) : string :=
  match s with
  | EmptyString => EmptyString
  | String c s' => String (upperChar c) (toUpperCase s')
  end.

(** The timers of the event loop, by the call that sets them.  Timer
    handles are positive integers, hence truthy.  [ReconnectTimer] is set
    by the service's [scheduleReconnect] and by the hook's [onclose];
    [ForcedReconnectTimer] is the timeout of the hook's [reconnect()],
    whose handle is stored nowhere. *)
Inductive timerKind : Type :=
| ConnectionTimer
| HeartbeatTimer
| ReconnectTimer
| ForcedReconnectTimer.

Record timer : Type := {
  timerId : positive;
  kindOf : timerKind;
  delayOf : Q
}.

Definition isReconnect (t : timer) : bool :=
  match kindOf t with
  | ReconnectTimer => true
  | _ => false
  end.

(** [clearTimeout(id)] and [clearInterval(id)] on the pending timers. *)
Definition cancel (id : positive) (pending : list timer) : list timer :=
  filter (fun t => negb (Pos.eqb (timerId t) id)) pending.

(** What the transport does to its environment, in order. *)
Inductive effect : Type :=
| Create (socket : positive)
| Transmit (socket : positive) (frame : payload)
| Close (socket : positive)
| Emit (event : string).

(** The frames handed to [WebSocket.send], in order. *)
Fixpoint transmitted (l : list effect) : list payload :=
  match l with
  | [] => []
  | Transmit _ f :: l' => f :: transmitted l'
  | _ :: l' => transmitted l'
  end.

(** A received message after the attempt to parse it: a JSON object with
    its [type], [requestTime] and [timestamp] properties where present and
    numeric, text that is not JSON, or binary data. *)
Inductive inbound : Type :=
| InObject (type : option string) (requestTime timestamp : option Z) (len : nat)
| InText (len : nat)
| InBinary (byteLength : nat).

(** Truthiness of an optional numeric property: absent and [0] are falsy. *)
Definition truthyNum (o : option Z) : option Z :=
  match o with
  | Some 0%Z => None
  | _ => o
  end.

End Wire.

(* ------------------------------------------------------------------ *)
(** ** services/websocket.js *)

Module Service.
Import JsNum Wire.

(** The constructor's [options], with the counters and delays the
    connection logic reads. *)
Record serviceOptions : Type := {
  optReconnectAttempts : nat;
  reconnectInterval : Q;
  heartbeatInterval : Q;
  maxReconnectInterval : Q
}.

Definition defaultOptions : serviceOptions :=
  {| optReconnectAttempts := 10; reconnectInterval := 3000;
     heartbeatInterval := 30000; maxReconnectInterval := 30000 |}.

Record statistics : Type := {
  totalMessages : nat;
  totalErrors : nat;
  totalReconnects : nat;
  bytesReceived : nat;
  bytesSent : nat;
  averageLatency : num;
  connectionUptime : Z
}.

Definition zeroStats : statistics :=
  {| totalMessages := 0; totalErrors := 0; totalReconnects := 0;
     bytesReceived := 0; bytesSent := 0; averageLatency := Fin 0;
     connectionUptime := 0 |}.

(** The fields of an [OrderBookWebSocketService], followed by the part of
    the environment it acts on: the pending timers, the supply of timer
    and socket handles, and the trace of effects. *)
Record service : Type := {
  options : serviceOptions;
  ws : option positive;
  isConnected : bool;
  isConnecting : bool;
  reconnectAttempts : nat;
  lastConnectTime : option Z;
  connectionId : option string;
  messageQueue : list payload;
  subscriptions : list string;
  reconnectTimer : option positive;
  heartbeatTimer : option positive;
  connectionTimer : option positive;
  stats : statistics;
  latencyMeasurements : list Z;
  pending : list timer;
  nextTimer : positive;
  nextSocket : positive;
  effects : list effect
}.

Definition set_ws (v : option positive) (s : service) : service :=
  {| options := options s; ws := v; isConnected := isConnected s;
     isConnecting := isConnecting s;
     reconnectAttempts := reconnectAttempts s;
     lastConnectTime := lastConnectTime s; connectionId := connectionId s;
     messageQueue := messageQueue s; subscriptions := subscriptions s;
     reconnectTimer := reconnectTimer s; heartbeatTimer := heartbeatTimer s;
     connectionTimer := connectionTimer s; stats := stats s;
     latencyMeasurements := latencyMeasurements s; pending := pending s;
     nextTimer := nextTimer s; nextSocket := nextSocket s;
     effects := effects s |}.

Definition set_isConnected (v : bool) (s : service) : service :=
  {| options := options s; ws := ws s; isConnected := v;
     isConnecting := isConnecting s;
     reconnectAttempts := reconnectAttempts s;
     lastConnectTime := lastConnectTime s; connectionId := connectionId s;
     messageQueue := messageQueue s; subscriptions := subscriptions s;
     reconnectTimer := reconnectTimer s; heartbeatTimer := heartbeatTimer s;
     connectionTimer := connectionTimer s; stats := stats s;
     latencyMeasurements := latencyMeasurements s; pending := pending s;
     nextTimer := nextTimer s; nextSocket := nextSocket s;
     effects := effects s |}.

Definition set_isConnecting (v : bool) (s : service) : service :=
  {| options := options s; ws := ws s; isConnected := isConnected s;
     isConnecting := v; reconnectAttempts := reconnectAttempts s;
     lastConnectTime := lastConnectTime s; connectionId := connectionId s;
     messageQueue := messageQueue s; subscriptions := subscriptions s;
     reconnectTimer := reconnectTimer s; heartbeatTimer := heartbeatTimer s;
     connectionTimer := connectionTimer s; stats := stats s;
     latencyMeasurements := latencyMeasurements s; pending := pending s;
     nextTimer := nextTimer s; nextSocket := nextSocket s;
     effects := effects s |}.

Definition set_reconnectAttempts (v : nat) (s : service) : service :=
  {| options := options s; ws := ws s; isConnected := isConnected s;
     isConnecting := isConnecting s; reconnectAttempts := v;
     lastConnectTime := lastConnectTime s; connectionId := connectionId s;
     messageQueue := messageQueue s; subscriptions := subscriptions s;
     reconnectTimer := reconnectTimer s; heartbeatTimer := heartbeatTimer s;
     connectionTimer := connectionTimer s; stats := stats s;
     latencyMeasurements := latencyMeasurements s; pending := pending s;
     nextTimer := nextTimer s; nextSocket := nextSocket s;
     effects := effects s |}.

Definition set_lastConnectTime (v : option Z) (s : service) : service :=
  {| options := options s; ws := ws s; isConnected := isConnected s;
     isConnecting := isConnecting s;
     reconnectAttempts := reconnectAttempts s; lastConnectTime := v;
     connectionId := connectionId s; messageQueue := messageQueue s;
     subscriptions := subscriptions s; reconnectTimer := reconnectTimer s;
     heartbeatTimer := heartbeatTimer s;
     connectionTimer := connectionTimer s; stats := stats s;
     latencyMeasurements := latencyMeasurements s; pending := pending s;
     nextTimer := nextTimer s; nextSocket := nextSocket s;
     effects := effects s |}.

Definition set_connectionId (v : option string) (s : service) : service :=
  {| options := options s; ws := ws s; isConnected := isConnected s;
     isConnecting := isConnecting s;
     reconnectAttempts := reconnectAttempts s;
     lastConnectTime := lastConnectTime s; connectionId := v;
     messageQueue := messageQueue s; subscriptions := subscriptions s;
     reconnectTimer := reconnectTimer s; heartbeatTimer := heartbeatTimer s;
     connectionTimer := connectionTimer s; stats := stats s;
     latencyMeasurements := latencyMeasurements s; pending := pending s;
     nextTimer := nextTimer s; nextSocket := nextSocket s;
     effects := effects s |}.

Definition set_messageQueue (v : list payload) (s : service) : service :=
  {| options := options s; ws := ws s; isConnected := isConnected s;
     isConnecting := isConnecting s;
     reconnectAttempts := reconnectAttempts s;
     lastConnectTime := lastConnectTime s; connectionId := connectionId s;
     messageQueue := v; subscriptions := subscriptions s;
     reconnectTimer := reconnectTimer s; heartbeatTimer := heartbeatTimer s;
     connectionTimer := connectionTimer s; stats := stats s;
     latencyMeasurements := latencyMeasurements s; pending := pending s;
     nextTimer := nextTimer s; nextSocket := nextSocket s;
     effects := effects s |}.

Definition set_subscriptions (v : list string) (s : service) : service :=
  {| options := options s; ws := ws s; isConnected := isConnected s;
     isConnecting := isConnecting s;
     reconnectAttempts := reconnectAttempts s;
     lastConnectTime := lastConnectTime s; connectionId := connectionId s;
     messageQueue := messageQueue s; subscriptions := v;
     reconnectTimer := reconnectTimer s; heartbeatTimer := heartbeatTimer s;
     connectionTimer := connectionTimer s; stats := stats s;
     latencyMeasurements := latencyMeasurements s; pending := pending s;
     nextTimer := nextTimer s; nextSocket := nextSocket s;
     effects := effects s |}.

Definition set_reconnectTimer (v : option positive) (s : service) : service :=
  {| options := options s; ws := ws s; isConnected := isConnected s;
     isConnecting := isConnecting s;
     reconnectAttempts := reconnectAttempts s;
     lastConnectTime := lastConnectTime s; connectionId := connectionId s;
     messageQueue := messageQueue s; subscriptions := subscriptions s;
     reconnectTimer := v; heartbeatTimer := heartbeatTimer s;
     connectionTimer := connectionTimer s; stats := stats s;
     latencyMeasurements := latencyMeasurements s; pending := pending s;
     nextTimer := nextTimer s; nextSocket := nextSocket s;
     effects := effects s |}.

Definition set_heartbeatTimer (v : option positive) (s : service) : service :=
  {| options := options s; ws := ws s; isConnected := isConnected s;
     isConnecting := isConnecting s;
     reconnectAttempts := reconnectAttempts s;
     lastConnectTime := lastConnectTime s; connectionId := connectionId s;
     messageQueue := messageQueue s; subscriptions := subscriptions s;
     reconnectTimer := reconnectTimer s; heartbeatTimer := v;
     connectionTimer := connectionTimer s; stats := stats s;
     latencyMeasurements := latencyMeasurements s; pending := pending s;
     nextTimer := nextTimer s; nextSocket := nextSocket s;
     effects := effects s |}.

Definition set_connectionTimer (v : option positive) (s : service) : service :=
  {| options := options s; ws := ws s; isConnected := isConnected s;
     isConnecting := isConnecting s;
     reconnectAttempts := reconnectAttempts s;
     lastConnectTime := lastConnectTime s; connectionId := connectionId s;
     messageQueue := messageQueue s; subscriptions := subscriptions s;
     reconnectTimer := reconnectTimer s; heartbeatTimer := heartbeatTimer s;
     connectionTimer := v; stats := stats s;
     latencyMeasurements := latencyMeasurements s; pending := pending s;
     nextTimer := nextTimer s; nextSocket := nextSocket s;
     effects := effects s |}.

Definition set_stats (v : statistics) (s : service) : service :=
  {| options := options s; ws := ws s; isConnected := isConnected s;
     isConnecting := isConnecting s;
     reconnectAttempts := reconnectAttempts s;
     lastConnectTime := lastConnectTime s; connectionId := connectionId s;
     messageQueue := messageQueue s; subscriptions := subscriptions s;
     reconnectTimer := reconnectTimer s; heartbeatTimer := heartbeatTimer s;
     connectionTimer := connectionTimer s; stats := v;
     latencyMeasurements := latencyMeasurements s; pending := pending s;
     nextTimer := nextTimer s; nextSocket := nextSocket s;
     effects := effects s |}.

Definition set_latencyMeasurements (v : list Z) (s : service) : service :=
  {| options := options s; ws := ws s; isConnected := isConnected s;
     isConnecting := isConnecting s;
     reconnectAttempts := reconnectAttempts s;
     lastConnectTime := lastConnectTime s; connectionId := connectionId s;
     messageQueue := messageQueue s; subscriptions := subscriptions s;
     reconnectTimer := reconnectTimer s; heartbeatTimer := heartbeatTimer s;
     connectionTimer := connectionTimer s; stats := stats s;
     latencyMeasurements := v; pending := pending s;
     nextTimer := nextTimer s; nextSocket := nextSocket s;
     effects := effects s |}.

Definition set_pending (v : list timer) (s : service) : service :=
  {| options := options s; ws := ws s; isConnected := isConnected s;
     isConnecting := isConnecting s;
     reconnectAttempts := reconnectAttempts s;
     lastConnectTime := lastConnectTime s; connectionId := connectionId s;
     messageQueue := messageQueue s; subscriptions := subscriptions s;
     reconnectTimer := reconnectTimer s; heartbeatTimer := heartbeatTimer s;
     connectionTimer := connectionTimer s; stats := stats s;
     latencyMeasurements := latencyMeasurements s; pending := v;
     nextTimer := nextTimer s; nextSocket := nextSocket s;
     effects := effects s |}.

Definition set_nextTimer (v : positive) (s : service) : service :=
  {| options := options s; ws := ws s; isConnected := isConnected s;
     isConnecting := isConnecting s;
     reconnectAttempts := reconnectAttempts s;
     lastConnectTime := lastConnectTime s; connectionId := connectionId s;
     messageQueue := messageQueue s; subscriptions := subscriptions s;
     reconnectTimer := reconnectTimer s; heartbeatTimer := heartbeatTimer s;
     connectionTimer := connectionTimer s; stats := stats s;
     latencyMeasurements := latencyMeasurements s; pending := pending s;
     nextTimer := v; nextSocket := nextSocket s; effects := effects s |}.

Definition set_nextSocket (v : positive) (s : service) : service :=
  {| options := options s; ws := ws s; isConnected := isConnected s;
     isConnecting := isConnecting s;
     reconnectAttempts := reconnectAttempts s;
     lastConnectTime := lastConnectTime s; connectionId := connectionId s;
     messageQueue := messageQueue s; subscriptions := subscriptions s;
     reconnectTimer := reconnectTimer s; heartbeatTimer := heartbeatTimer s;
     connectionTimer := connectionTimer s; stats := stats s;
     latencyMeasurements := latencyMeasurements s; pending := pending s;
     nextTimer := nextTimer s; nextSocket := v; effects := effects s |}.

Definition set_effects (v : list effect) (s : service) : service :=
  {| options := options s; ws := ws s; isConnected := isConnected s;
     isConnecting := isConnecting s;
     reconnectAttempts := reconnectAttempts s;
     lastConnectTime := lastConnectTime s; connectionId := connectionId s;
     messageQueue := messageQueue s; subscriptions := subscriptions s;
     reconnectTimer := reconnectTimer s; heartbeatTimer := heartbeatTimer s;
     connectionTimer := connectionTimer s; stats := stats s;
     latencyMeasurements := latencyMeasurements s; pending := pending s;
     nextTimer := nextTimer s; nextSocket := nextSocket s; effects := v |}.

(** The state after [new OrderBookWebSocketService(url, options)]. *)
Definition create (o : serviceOptions) : service :=
  {| options := o; ws := None; isConnected := false; isConnecting := false;
     reconnectAttempts := 0; lastConnectTime := None; connectionId := None;
     messageQueue := []; subscriptions := []; reconnectTimer := None;
     heartbeatTimer := None; connectionTimer := None; stats := zeroStats;
     latencyMeasurements := []; pending := []; nextTimer := 1%positive;
     nextSocket := 1%positive; effects := [] |}.

(** [setTimeout] and [setInterval]: a fresh handle and a pending timer. *)
Definition setTimer (k : timerKind) (delay : Q) (s : service) : positive * service :=
  let id := nextTimer s in
  (id, set_nextTimer (Pos.succ id)
         (set_pending (pending s ++ [{| timerId := id; kindOf := k; delayOf := delay |}]) s)).

Definition clearTimer (id : positive) (s : service) : service :=
  set_pending (cancel id (pending s)) s.

Definition perform (e : effect) (s : service) : service :=
  set_effects (effects s ++ [e]) s.

(** [emit(event, data)], recorded by the name of the event. *)
Definition emit (event : string) (s : service) : service := perform (Emit event) s.

(** *** Latency *)

Definition sumZ (l : list Z) : Z := fold_left Z.add l 0%Z.

Definition averageOf (l : list Z) : num :=
  jsdiv (inject_Z (sumZ l)) (inject_Z (Z.of_nat (List.length l))).

Definition updateLatencyStats (latency : Z) (s : service) : service :=
  let pushed := latencyMeasurements s ++ [latency] in
  let kept := if (100 <? List.length pushed)%nat then tl pushed else pushed in
  let st := stats s in
  set_stats
    {| totalMessages := totalMessages st; totalErrors := totalErrors st;
       totalReconnects := totalReconnects st; bytesReceived := bytesReceived st;
       bytesSent := bytesSent st; averageLatency := averageOf kept;
       connectionUptime := connectionUptime st |}
    (set_latencyMeasurements kept s).

Definition handlePongMessage (requestTime : option Z) (now : Z) (s : service) : service :=
  match truthyNum requestTime with
  | Some t => updateLatencyStats (now - t) s
  | None => s
  end.

(** *** Sending *)

(** [message.length || message.byteLength || 0] *)
Definition frameLength (p : payload) : nat :=
  match p with
  | Text t => String.length t
  | Binary n => n
  | Object _ => 0
  end.

Definition addBytesSent (n : nat) (s : service) : service :=
  let st := stats s in
  set_stats
    {| totalMessages := totalMessages st; totalErrors := totalErrors st;
       totalReconnects := totalReconnects st; bytesReceived := bytesReceived st;
       bytesSent := bytesSent st + n; averageLatency := averageLatency st;
       connectionUptime := connectionUptime st |} s.

(** [send(data)].  Once [isConnected] is set the socket has been opened,
    so [WebSocket.send] does not throw and the [catch] branch is dead. *)
Definition send (data : payload) (s : service) : bool * service :=
  match isConnected s, ws s with
  | true, Some socket =>
      let message :=
        match data with
        | Object j => Text (stringify j)
        | _ => data
        end in
      (true, addBytesSent (frameLength message) (perform (Transmit socket message) s))
  | _, _ => (false, set_messageQueue (messageQueue s ++ [data]) s)
  end.

Definition sendJSON (data : json) (s : service) : bool * service :=
  send (Text (stringify data)) s.

(** [processMessageQueue()]: the [while] loop, bounded by [fuel]. *)
Fixpoint processMessageQueue (fuel : nat) (s : service) : option service :=
  match fuel with
  | O => None
  | S fuel' =>
      match messageQueue s with
      | [] => Some s
      | message :: rest =>
          if isConnected s
          then processMessageQueue fuel' (snd (send message (set_messageQueue rest s)))
          else Some s
      end
  end.

(** *** Heartbeat *)

Definition pingMessage (now : Z) (id : option string) : json :=
  JObj [("type"%string, JStr "ping");
        ("requestTime"%string, JNum now);
        ("connectionId"%string, match id with Some i => JStr i | None => JNull end)].

Definition startHeartbeat (s : service) : service :=
  if Qle_bool (heartbeatInterval (options s)) 0 then s
  else
    let (id, s1) := setTimer HeartbeatTimer (heartbeatInterval (options s)) s in
    set_heartbeatTimer (Some id) s1.

Definition stopHeartbeat (s : service) : service :=
  match heartbeatTimer s with
  | Some id => set_heartbeatTimer None (clearTimer id s)
  | None => s
  end.

(** The callback of the heartbeat interval. *)
Definition heartbeatTick (now : Z) (s : service) : service :=
  if isConnected s then snd (sendJSON (pingMessage now (connectionId s)) s) else s.

(** *** Reconnection *)

(** [Math.min(baseDelay * Math.pow(2, attempt - 1), maxDelay)] *)
Definition exponentialDelay (o : serviceOptions) (attempt : nat) : Q :=
  Qmin (reconnectInterval o * Qpower 2 (Z.of_nat attempt - 1)) (maxReconnectInterval o).

(** The delay of the reconnect timer; [random] is the value of
    [Math.random()]. *)
Definition reconnectDelay (o : serviceOptions) (attempt : nat) (random : Q) : Q :=
  let jitter := random * 1000 in
  exponentialDelay o attempt + jitter.

Definition countReconnect (s : service) : service :=
  let st := stats s in
  set_stats
    {| totalMessages := totalMessages st; totalErrors := totalErrors st;
       totalReconnects := S (totalReconnects st); bytesReceived := bytesReceived st;
       bytesSent := bytesSent st; averageLatency := averageLatency st;
       connectionUptime := connectionUptime st |} s.

Definition scheduleReconnect (random : Q) (s : service) : service :=
  match reconnectTimer s with
  | Some _ => s
  | None =>
      let attempt := S (reconnectAttempts s) in
      let s1 := countReconnect (set_reconnectAttempts attempt s) in
      let (id, s2) := setTimer ReconnectTimer (reconnectDelay (options s) attempt random) s1 in
      set_reconnectTimer (Some id) s2
  end.

Definition cancelReconnect (s : service) : service :=
  match reconnectTimer s with
  | Some id => set_reconnectTimer None (clearTimer id s)
  | None => s
  end.

(** *** Connection life cycle *)

Definition countError (s : service) : service :=
  let st := stats s in
  set_stats
    {| totalMessages := totalMessages st; totalErrors := S (totalErrors st);
       totalReconnects := totalReconnects st; bytesReceived := bytesReceived st;
       bytesSent := bytesSent st; averageLatency := averageLatency st;
       connectionUptime := connectionUptime st |} s.

Definition handleConnectionError (random : Q) (s : service) : service :=
  let s1 := emit "error" (countError s) in
  if isConnecting s1 then scheduleReconnect random (set_isConnecting false s1) else s1.

(** [connect()].  [id] is the generated connection id; [socketOk] tells
    whether [new WebSocket] returned rather than threw. *)
Definition connect (id : string) (socketOk : bool) (random : Q) (s : service) : service :=
  if isConnecting s || isConnected s then s
  else
    let s1 := set_connectionId (Some id) (set_isConnecting true s) in
    if socketOk then
      let socket := nextSocket s1 in
      let s2 := perform (Create socket)
                  (set_nextSocket (Pos.succ socket) (set_ws (Some socket) s1)) in
      let (t, s3) := setTimer ConnectionTimer 10000 s2 in
      set_connectionTimer (Some t) s3
    else handleConnectionError random s1.

Definition addUptime (d : Z) (s : service) : service :=
  let st := stats s in
  set_stats
    {| totalMessages := totalMessages st; totalErrors := totalErrors st;
       totalReconnects := totalReconnects st; bytesReceived := bytesReceived st;
       bytesSent := bytesSent st; averageLatency := averageLatency st;
       connectionUptime := connectionUptime st + d |} s.

Definition cleanup (now : Z) (s : service) : service :=
  let s1 := set_isConnecting false (set_isConnected false s) in
  let s2 :=
    match connectionTimer s1 with
    | Some t => set_connectionTimer None (clearTimer t s1)
    | None => s1
    end in
  let s3 := stopHeartbeat s2 in
  match truthyNum (lastConnectTime s3) with
  | Some t => set_lastConnectTime None (addUptime (now - t) s3)
  | None => s3
  end.

Definition subscribeMessage (symbol : string) (now : Z) : json :=
  JObj [("type"%string, JStr "subscribe");
        ("symbol"%string, JStr (toUpperCase symbol));
        ("timestamp"%string, JNum now)].

Definition unsubscribeMessage (symbol : string) (now : Z) : json :=
  JObj [("type"%string, JStr "unsubscribe");
        ("symbol"%string, JStr (toUpperCase symbol));
        ("timestamp"%string, JNum now)].

(** [Set.prototype.add] and [delete] on a set kept in insertion order. *)
Definition setAdd (x : string) (l : list string) : list string :=
  if existsb (String.eqb x) l then l else l ++ [x].

Definition setDelete (x : string) (l : list string) : list string :=
  filter (fun y => negb (String.eqb x y)) l.

Definition subscribe (symbol : string) (now : Z) (s : service) : bool * service :=
  sendJSON (subscribeMessage symbol now)
    (set_subscriptions (setAdd (toUpperCase symbol) (subscriptions s)) s).

Definition unsubscribe (symbol : string) (now : Z) (s : service) : bool * service :=
  sendJSON (unsubscribeMessage symbol now)
    (set_subscriptions (setDelete (toUpperCase symbol) (subscriptions s)) s).

(** [resubscribe()]: one [subscribe] per member of the set. *)
Definition resubscribe (now : Z) (s : service) : service :=
  fold_left (fun acc symbol => snd (subscribe symbol now acc)) (subscriptions s) s.

Definition handleConnectionOpen (now : Z) (s : service) : option service :=
  let s1 :=
    match connectionTimer s with
    | Some t => set_connectionTimer None (clearTimer t s)
    | None => s
    end in
  let s2 := set_lastConnectTime (Some now)
              (set_reconnectAttempts 0
                 (set_isConnecting false (set_isConnected true s1))) in
  let s3 := startHeartbeat s2 in
  match processMessageQueue (S (List.length (messageQueue s3))) s3 with
  | Some s4 => Some (emit "connected" (resubscribe now s4))
  | None => None
  end.

Definition handleConnectionClose (wasClean : bool) (now : Z) (random : Q) (s : service)
  : service :=
  let s1 := cleanup now s in
  let shouldReconnect :=
    negb wasClean && (reconnectAttempts s1 <? optReconnectAttempts (options s1))%nat in
  let s2 := emit "disconnected" s1 in
  if shouldReconnect then scheduleReconnect random s2 else s2.

Definition countMessage (n : nat) (s : service) : service :=
  let st := stats s in
  set_stats
    {| totalMessages := S (totalMessages st); totalErrors := totalErrors st;
       totalReconnects := totalReconnects st; bytesReceived := bytesReceived st + n;
       bytesSent := bytesSent st; averageLatency := averageLatency st;
       connectionUptime := connectionUptime st |} s.

Definition inboundLength (m : inbound) : nat :=
  match m with
  | InObject _ _ _ n | InText n | InBinary n => n
  end.

Definition handleMessage (m : inbound) (now : Z) (s : service) : service :=
  let s1 := countMessage (inboundLength m) s in
  match m with
  | InObject (Some "pong"%string) requestTime _ _ => handlePongMessage requestTime now s1
  | InObject type _ timestamp _ =>
      let s2 :=
        match truthyNum timestamp with
        | Some t => updateLatencyStats (now - t) s1
        | None => s1
        end in
      let s3 := emit "message" s2 in
      match type with
      | Some EmptyString | None => s3
      | Some t => emit ("message:" ++ t) s3
      end
  | _ => emit "message" s1
  end.

Definition disconnect (now : Z) (s : service) : service :=
  let s1 := cancelReconnect s in
  let s2 :=
    match ws s1 with
    | Some socket => set_ws None (perform (Close socket) s1)
    | None => s1
    end in
  set_messageQueue [] (set_subscriptions [] (cleanup now s2)).

Definition resetStats (s : service) : service :=
  set_latencyMeasurements [] (set_stats zeroStats s).

(** *** Timers firing *)

(** The callback of the reconnect timeout. *)
Definition reconnectFires (id : string) (socketOk : bool) (random : Q) (s : service)
  : service :=
  connect id socketOk random (set_reconnectTimer None s).

(** The callback of the connection timeout. *)
Definition connectionTimeoutFires (random : Q) (s : service) : service :=
  if isConnecting s then
    let s1 :=
      match ws s with
      | Some socket => perform (Close socket) s
      | None => s
      end in
    handleConnectionError random s1
  else s.

(** A timeout leaves the pending timers when it fires; an interval stays.
    The service sets no [ForcedReconnectTimer]. *)
Definition fire (t : timer) (id : string) (socketOk : bool) (random : Q) (now : Z)
  (s : service) : service :=
  match kindOf t with
  | HeartbeatTimer => heartbeatTick now s
  | ReconnectTimer => reconnectFires id socketOk random (clearTimer (timerId t) s)
  | ConnectionTimer => connectionTimeoutFires random (clearTimer (timerId t) s)
  | ForcedReconnectTimer => clearTimer (timerId t) s
  end.

(** *** The service as a transition system *)

(** What can happen to a service: a method call, a socket event, or a
    pending timer firing.  The values read from the clock, the random
    number generator and the socket constructor come with the event. *)
Inductive event : Type :=
| CallConnect (id : string) (socketOk : bool) (random : Q)
| CallDisconnect (now : Z)
| CallSend (data : payload)
| CallSubscribe (symbol : string) (now : Z)
| CallUnsubscribe (symbol : string) (now : Z)
| CallResetStats
| SocketOpen (now : Z)
| SocketClose (wasClean : bool) (now : Z) (random : Q)
| SocketError (random : Q)
| SocketMessage (m : inbound) (now : Z)
| TimerFires (t : timer) (id : string) (socketOk : bool) (random : Q) (now : Z).

(** [Math.random()] returns a value in [[0, 1)]. *)
Definition validRandom (r : Q) : Prop := 0 <= r /\ r < 1.

Inductive step : service -> event -> service -> Prop :=
| StepConnect s id ok r :
    validRandom r -> step s (CallConnect id ok r) (connect id ok r s)
| StepDisconnect s now :
    step s (CallDisconnect now) (disconnect now s)
| StepSend s data :
    step s (CallSend data) (snd (send data s))
| StepSubscribe s symbol now :
    step s (CallSubscribe symbol now) (snd (subscribe symbol now s))
| StepUnsubscribe s symbol now :
    step s (CallUnsubscribe symbol now) (snd (unsubscribe symbol now s))
| StepResetStats s :
    step s CallResetStats (resetStats s)
| StepOpen s now s' :
    ws s <> None -> handleConnectionOpen now s = Some s' ->
    step s (SocketOpen now) s'
| StepClose s wasClean now r :
    validRandom r -> step s (SocketClose wasClean now r) (handleConnectionClose wasClean now r s)
| StepError s r :
    validRandom r -> step s (SocketError r) (handleConnectionError r s)
| StepMessage s m now :
    step s (SocketMessage m now) (handleMessage m now s)
| StepTimer s t id ok r now :
    In t (pending s) -> validRandom r ->
    step s (TimerFires t id ok r now) (fire t id ok r now s).

(** The states a service can be in: those reached from a fresh service. *)
Inductive reachable (o : serviceOptions) : service -> Prop :=
| ReachCreate : reachable o (create o)
| ReachStep s e s' : reachable o s -> step s e s' -> reachable o s'.

End Service.

(* ------------------------------------------------------------------ *)
(** ** hooks/useWebSocket.js and hooks/useOrderBook.js *)

Module Hook.
Import JsNum Wire.

(** The options of [useWebSocket] that the connection logic reads. *)
Record hookOptions : Type := {
  reconnectAttempts : nat;
  reconnectInterval : Q;
  heartbeatInterval : Q;
  shouldReconnect : bool;
  retryOnError : bool
}.

Definition defaultOptions : hookOptions :=
  {| reconnectAttempts := 5; reconnectInterval := 3000; heartbeatInterval := 30000;
     shouldReconnect := true; retryOnError := true |}.

(** The options [useOrderBook] passes. *)
Definition orderBookOptions : hookOptions :=
  {| reconnectAttempts := 10; reconnectInterval := 3000; heartbeatInterval := 30000;
     shouldReconnect := true; retryOnError := true |}.

(** [WebSocket.CONNECTING], [OPEN], [CLOSING] and [CLOSED]. *)
Inductive readyStateValue : Type := CONNECTING | OPEN | CLOSING | CLOSED.

Definition isOpen (r : readyStateValue) : bool :=
  match r with
  | OPEN => true
  | _ => false
  end.

(** The socket object behind [webSocketRef.current], with the
    [readyState] the browser maintains for it. *)
Record socket : Type := {
  socketId : positive;
  socketState : readyStateValue
}.

(** The state and refs of a mounted [useWebSocket], the latency state
    [useOrderBook] keeps beside it, and the environment: pending timers,
    handle supplies and the trace of effects. *)
Record hook : Type := {
  config : hookOptions;
  readyState : readyStateValue;
  lastMessage : option string;
  connectionAttempts : nat;
  isConnected : bool;
  error : bool;
  webSocketRef : option socket;
  reconnectTimeoutRef : option positive;
  heartbeatTimeoutRef : option positive;
  messageQueueRef : list string;
  latencyRef : list Z;
  averageLatency : num;
  pending : list timer;
  nextTimer : positive;
  nextSocket : positive;
  effects : list effect
}.

Definition set_readyState (v : readyStateValue) (s : hook) : hook :=
  {| config := config s; readyState := v; lastMessage := lastMessage s;
     connectionAttempts := connectionAttempts s;
     isConnected := isConnected s; error := error s;
     webSocketRef := webSocketRef s;
     reconnectTimeoutRef := reconnectTimeoutRef s;
     heartbeatTimeoutRef := heartbeatTimeoutRef s;
     messageQueueRef := messageQueueRef s; latencyRef := latencyRef s;
     averageLatency := averageLatency s; pending := pending s;
     nextTimer := nextTimer s; nextSocket := nextSocket s;
     effects := effects s |}.

Definition set_lastMessage (v : option string) (s : hook) : hook :=
  {| config := config s; readyState := readyState s; lastMessage := v;
     connectionAttempts := connectionAttempts s;
     isConnected := isConnected s; error := error s;
     webSocketRef := webSocketRef s;
     reconnectTimeoutRef := reconnectTimeoutRef s;
     heartbeatTimeoutRef := heartbeatTimeoutRef s;
     messageQueueRef := messageQueueRef s; latencyRef := latencyRef s;
     averageLatency := averageLatency s; pending := pending s;
     nextTimer := nextTimer s; nextSocket := nextSocket s;
     effects := effects s |}.

Definition set_connectionAttempts (v : nat) (s : hook) : hook :=
  {| config := config s; readyState := readyState s;
     lastMessage := lastMessage s; connectionAttempts := v;
     isConnected := isConnected s; error := error s;
     webSocketRef := webSocketRef s;
     reconnectTimeoutRef := reconnectTimeoutRef s;
     heartbeatTimeoutRef := heartbeatTimeoutRef s;
     messageQueueRef := messageQueueRef s; latencyRef := latencyRef s;
     averageLatency := averageLatency s; pending := pending s;
     nextTimer := nextTimer s; nextSocket := nextSocket s;
     effects := effects s |}.

Definition set_isConnected (v : bool) (s : hook) : hook :=
  {| config := config s; readyState := readyState s;
     lastMessage := lastMessage s;
     connectionAttempts := connectionAttempts s; isConnected := v;
     error := error s; webSocketRef := webSocketRef s;
     reconnectTimeoutRef := reconnectTimeoutRef s;
     heartbeatTimeoutRef := heartbeatTimeoutRef s;
     messageQueueRef := messageQueueRef s; latencyRef := latencyRef s;
     averageLatency := averageLatency s; pending := pending s;
     nextTimer := nextTimer s; nextSocket := nextSocket s;
     effects := effects s |}.

Definition set_error (v : bool) (s : hook) : hook :=
  {| config := config s; readyState := readyState s;
     lastMessage := lastMessage s;
     connectionAttempts := connectionAttempts s;
     isConnected := isConnected s; error := v;
     webSocketRef := webSocketRef s;
     reconnectTimeoutRef := reconnectTimeoutRef s;
     heartbeatTimeoutRef := heartbeatTimeoutRef s;
     messageQueueRef := messageQueueRef s; latencyRef := latencyRef s;
     averageLatency := averageLatency s; pending := pending s;
     nextTimer := nextTimer s; nextSocket := nextSocket s;
     effects := effects s |}.

Definition set_webSocketRef (v : option socket) (s : hook) : hook :=
  {| config := config s; readyState := readyState s;
     lastMessage := lastMessage s;
     connectionAttempts := connectionAttempts s;
     isConnected := isConnected s; error := error s; webSocketRef := v;
     reconnectTimeoutRef := reconnectTimeoutRef s;
     heartbeatTimeoutRef := heartbeatTimeoutRef s;
     messageQueueRef := messageQueueRef s; latencyRef := latencyRef s;
     averageLatency := averageLatency s; pending := pending s;
     nextTimer := nextTimer s; nextSocket := nextSocket s;
     effects := effects s |}.

Definition set_reconnectTimeoutRef (v : option positive) (s : hook) : hook :=
  {| config := config s; readyState := readyState s;
     lastMessage := lastMessage s;
     connectionAttempts := connectionAttempts s;
     isConnected := isConnected s; error := error s;
     webSocketRef := webSocketRef s; reconnectTimeoutRef := v;
     heartbeatTimeoutRef := heartbeatTimeoutRef s;
     messageQueueRef := messageQueueRef s; latencyRef := latencyRef s;
     averageLatency := averageLatency s; pending := pending s;
     nextTimer := nextTimer s; nextSocket := nextSocket s;
     effects := effects s |}.

Definition set_heartbeatTimeoutRef (v : option positive) (s : hook) : hook :=
  {| config := config s; readyState := readyState s;
     lastMessage := lastMessage s;
     connectionAttempts := connectionAttempts s;
     isConnected := isConnected s; error := error s;
     webSocketRef := webSocketRef s;
     reconnectTimeoutRef := reconnectTimeoutRef s; heartbeatTimeoutRef := v;
     messageQueueRef := messageQueueRef s; latencyRef := latencyRef s;
     averageLatency := averageLatency s; pending := pending s;
     nextTimer := nextTimer s; nextSocket := nextSocket s;
     effects := effects s |}.

Definition set_messageQueueRef (v : list string) (s : hook) : hook :=
  {| config := config s; readyState := readyState s;
     lastMessage := lastMessage s;
     connectionAttempts := connectionAttempts s;
     isConnected := isConnected s; error := error s;
     webSocketRef := webSocketRef s;
     reconnectTimeoutRef := reconnectTimeoutRef s;
     heartbeatTimeoutRef := heartbeatTimeoutRef s; messageQueueRef := v;
     latencyRef := latencyRef s; averageLatency := averageLatency s;
     pending := pending s; nextTimer := nextTimer s;
     nextSocket := nextSocket s; effects := effects s |}.

Definition set_pending (v : list timer) (s : hook) : hook :=
  {| config := config s; readyState := readyState s;
     lastMessage := lastMessage s;
     connectionAttempts := connectionAttempts s;
     isConnected := isConnected s; error := error s;
     webSocketRef := webSocketRef s;
     reconnectTimeoutRef := reconnectTimeoutRef s;
     heartbeatTimeoutRef := heartbeatTimeoutRef s;
     messageQueueRef := messageQueueRef s; latencyRef := latencyRef s;
     averageLatency := averageLatency s; pending := v;
     nextTimer := nextTimer s; nextSocket := nextSocket s;
     effects := effects s |}.

Definition set_nextTimer (v : positive) (s : hook) : hook :=
  {| config := config s; readyState := readyState s;
     lastMessage := lastMessage s;
     connectionAttempts := connectionAttempts s;
     isConnected := isConnected s; error := error s;
     webSocketRef := webSocketRef s;
     reconnectTimeoutRef := reconnectTimeoutRef s;
     heartbeatTimeoutRef := heartbeatTimeoutRef s;
     messageQueueRef := messageQueueRef s; latencyRef := latencyRef s;
     averageLatency := averageLatency s; pending := pending s;
     nextTimer := v; nextSocket := nextSocket s; effects := effects s |}.

Definition set_nextSocket (v : positive) (s : hook) : hook :=
  {| config := config s; readyState := readyState s;
     lastMessage := lastMessage s;
     connectionAttempts := connectionAttempts s;
     isConnected := isConnected s; error := error s;
     webSocketRef := webSocketRef s;
     reconnectTimeoutRef := reconnectTimeoutRef s;
     heartbeatTimeoutRef := heartbeatTimeoutRef s;
     messageQueueRef := messageQueueRef s; latencyRef := latencyRef s;
     averageLatency := averageLatency s; pending := pending s;
     nextTimer := nextTimer s; nextSocket := v; effects := effects s |}.

Definition set_effects (v : list effect) (s : hook) : hook :=
  {| config := config s; readyState := readyState s;
     lastMessage := lastMessage s;
     connectionAttempts := connectionAttempts s;
     isConnected := isConnected s; error := error s;
     webSocketRef := webSocketRef s;
     reconnectTimeoutRef := reconnectTimeoutRef s;
     heartbeatTimeoutRef := heartbeatTimeoutRef s;
     messageQueueRef := messageQueueRef s; latencyRef := latencyRef s;
     averageLatency := averageLatency s; pending := pending s;
     nextTimer := nextTimer s; nextSocket := nextSocket s; effects := v |}.

(** The state of the first render. *)
Definition mount (o : hookOptions) : hook :=
  {| config := o; readyState := CONNECTING; lastMessage := None;
     connectionAttempts := 0; isConnected := false; error := false;
     webSocketRef := None; reconnectTimeoutRef := None; heartbeatTimeoutRef := None;
     messageQueueRef := []; latencyRef := []; averageLatency := Fin 0;
     pending := []; nextTimer := 1%positive; nextSocket := 1%positive;
     effects := [] |}.

Definition setTimer (k : timerKind) (delay : Q) (s : hook) : positive * hook :=
  let id := nextTimer s in
  (id, set_nextTimer (Pos.succ id)
         (set_pending (pending s ++ [{| timerId := id; kindOf := k; delayOf := delay |}]) s)).

Definition clearTimer (id : positive) (s : hook) : hook :=
  set_pending (cancel id (pending s)) s.

Definition perform (e : effect) (s : hook) : hook :=
  set_effects (effects s ++ [e]) s.

Definition clearTimeouts (s : hook) : hook :=
  let s1 :=
    match reconnectTimeoutRef s with
    | Some id => set_reconnectTimeoutRef None (clearTimer id s)
    | None => s
    end in
  match heartbeatTimeoutRef s1 with
  | Some id => set_heartbeatTimeoutRef None (clearTimer id s1)
  | None => s1
  end.

(** [webSocketRef.current?.readyState === WebSocket.OPEN] *)
Definition socketOpen (s : hook) : option positive :=
  match webSocketRef s with
  | Some sock => if isOpen (socketState sock) then Some (socketId sock) else None
  | None => None
  end.

Definition heartbeatMessage (now : Z) : json :=
  JObj [("type"%string, JStr "ping"); ("timestamp"%string, JNum now)].

Definition startHeartbeat (s : hook) : hook :=
  if Qltb 0 (heartbeatInterval (config s)) then
    let (id, s1) := setTimer HeartbeatTimer (heartbeatInterval (config s)) s in
    set_heartbeatTimeoutRef (Some id) s1
  else s.

(** The callback of the heartbeat timeout. *)
Definition heartbeatFires (now : Z) (s : hook) : hook :=
  match socketOpen s with
  | Some id => startHeartbeat (perform (Transmit id (Text (stringify (heartbeatMessage now)))) s)
  | None => s
  end.

(** The [while] loop of [processMessageQueue], one [shift] per round. *)
Fixpoint drain (queue : list string) (s : hook) : hook :=
  match queue with
  | [] => set_messageQueueRef [] s
  | message :: rest =>
      match socketOpen s with
      | Some id => drain rest (perform (Transmit id (Text message)) s)
      | None => set_messageQueueRef queue s
      end
  end.

Definition processMessageQueue (s : hook) : hook := drain (messageQueueRef s) s.

(** [typeof message === 'string' ? message : JSON.stringify(message)];
    an [ArrayBuffer] has no enumerable properties. *)
Definition messageText (message : payload) : string :=
  match message with
  | Text t => t
  | Object j => stringify j
  | Binary _ => "{}"
  end.

Definition sendMessage (message : payload) (s : hook) : bool * hook :=
  match webSocketRef s with
  | None => (false, s)
  | Some sock =>
      let messageStr := messageText message in
      if isOpen (socketState sock)
      then (true, perform (Transmit (socketId sock) (Text messageStr)) s)
      else (false, set_messageQueueRef (messageQueueRef s ++ [messageStr]) s)
  end.

Definition sendJsonMessage (message : json) (s : hook) : bool * hook :=
  sendMessage (Text (stringify message)) s.

(** The argument of [subscribe] and [unsubscribe]: one channel or an
    array of channels. *)
Inductive channelsArg : Type :=
| OneChannel (c : string)
| ManyChannels (cs : list string).

(** [Array.isArray(channels) ? channels : [channels]] *)
Definition channelList (channels : channelsArg) : json :=
  match channels with
  | OneChannel c => JArr [JStr c]
  | ManyChannels cs => JArr (map JStr cs)
  end.

Definition subscribeMessage (channels : channelsArg) (now : Z) : json :=
  JObj [("type"%string, JStr "subscribe");
        ("channels"%string, channelList channels);
        ("timestamp"%string, JNum now)].

Definition unsubscribeMessage (channels : channelsArg) (now : Z) : json :=
  JObj [("type"%string, JStr "unsubscribe");
        ("channels"%string, channelList channels);
        ("timestamp"%string, JNum now)].

Definition subscribe (channels : channelsArg) (now : Z) (s : hook) : bool * hook :=
  sendJsonMessage (subscribeMessage channels now) s.

Definition unsubscribe (channels : channelsArg) (now : Z) (s : hook) : bool * hook :=
  sendJsonMessage (unsubscribeMessage channels now) s.

(** The channel [useOrderBook] subscribes to for a symbol:
    [`orderbook.${symbol}`]. *)
Definition orderBookChannel (symbol : string) : channelsArg :=
  OneChannel ("orderbook." ++ symbol).

(** The message [subscribeToSymbols] sends for a newly added symbol. *)
Definition symbolSubscription (symbol : string) (now : Z) : json :=
  subscribeMessage (orderBookChannel symbol) now.

Definition symbolUnsubscription (symbol : string) (now : Z) : json :=
  unsubscribeMessage (orderBookChannel symbol) now.

(** [connect()] with a URL present: any existing socket is closed and a
    new one is created with its handlers. *)
Definition connect (s : hook) : hook :=
  let s1 := set_error false s in
  let s2 :=
    match webSocketRef s1 with
    | Some old => perform (Close (socketId old)) s1
    | None => s1
    end in
  let id := nextSocket s2 in
  set_readyState CONNECTING
    (perform (Create id)
       (set_nextSocket (Pos.succ id)
          (set_webSocketRef (Some {| socketId := id; socketState := CONNECTING |}) s2))).

(** The browser's part of an event on the current socket: its
    [readyState] changes before the handler runs. *)
Definition socketBecomes (r : readyStateValue) (s : hook) : hook :=
  match webSocketRef s with
  | Some sock => set_webSocketRef (Some {| socketId := socketId sock; socketState := r |}) s
  | None => s
  end.

(** The [onopen] handler. *)
Definition onopen (s : hook) : hook :=
  let s1 := set_error false
              (set_connectionAttempts 0 (set_isConnected true (set_readyState OPEN s))) in
  perform (Emit "onOpen") (processMessageQueue (startHeartbeat s1)).

(** [reconnectInterval * Math.pow(1.5, nextAttempt - 1)] *)
Definition backoffDelay (o : hookOptions) (nextAttempt : nat) : Q :=
  reconnectInterval o * Qpower (3 # 2) (Z.of_nat nextAttempt - 1).

(** The [onclose] handler.  [attempts] is the value of
    [connectionAttempts] in the closure of the [connect] callback that
    installed the handler. *)
Definition onclose (attempts : nat) (wasClean : bool) (s : hook) : hook :=
  let s1 := perform (Emit "onClose")
              (clearTimeouts (set_isConnected false (set_readyState CLOSED s))) in
  if shouldReconnect (config s1) && (attempts <? reconnectAttempts (config s1))%nat
     && negb wasClean
  then
    let nextAttempt := S attempts in
    let s2 := set_connectionAttempts nextAttempt s1 in
    let (id, s3) := setTimer ReconnectTimer (backoffDelay (config s2) nextAttempt) s2 in
    set_reconnectTimeoutRef (Some id) s3
  else s1.

(** The [onerror] handler. *)
Definition onerror (s : hook) : hook :=
  let s1 := perform (Emit "onError") (set_error true s) in
  if retryOnError (config s1) && shouldReconnect (config s1)
  then set_readyState CONNECTING s1 else s1.

(** The [onmessage] handler on a message that passed [filter]. *)
Definition onmessage (raw : string) (m : inbound) (s : hook) : hook :=
  let s1 := set_lastMessage (Some raw) s in
  match m with
  | InObject (Some "pong"%string) _ _ _ => s1
  | _ => perform (Emit "onMessage") s1
  end.

Definition disconnect (s : hook) : hook :=
  let s1 := clearTimeouts s in
  let s2 :=
    match webSocketRef s1 with
    | Some sock =>
        perform (Close (socketId sock))
          (set_webSocketRef
             (Some {| socketId := socketId sock;
                      socketState := match socketState sock with
                                     | CLOSED => CLOSED
                                     | _ => CLOSING
                                     end |}) s1)
    | None => s1
    end in
  set_isConnected false (set_readyState CLOSED s2).

(** [reconnect()]: the counter is reset, the hook disconnects, and
    [connect] is called 100 ms later.  The handle [setTimeout] returns is
    dropped, so neither [clearTimeouts] nor a later [reconnect()] cancels
    this timeout. *)
Definition reconnect (s : hook) : hook :=
  snd (setTimer ForcedReconnectTimer 100 (disconnect (set_connectionAttempts 0 s))).

(** A timeout leaves the pending timers when it fires.  The callbacks of
    both reconnect timeouts call [connect]; the hook sets no
    [ConnectionTimer]. *)
Definition fire (t : timer) (now : Z) (s : hook) : hook :=
  let s1 := clearTimer (timerId t) s in
  match kindOf t with
  | HeartbeatTimer => heartbeatFires now s1
  | ReconnectTimer => connect s1
  | ForcedReconnectTimer => connect s1
  | ConnectionTimer => s1
  end.

(** *** The hook as a transition system *)

Inductive event : Type :=
| CallConnect
| CallDisconnect
| CallReconnect
| CallSendMessage (message : payload)
| CallSubscribe (channels : channelsArg) (now : Z)
| CallUnsubscribe (channels : channelsArg) (now : Z)
| SocketOpen
| SocketClose (attempts : nat) (wasClean : bool)
| SocketError
| SocketMessage (raw : string) (m : inbound)
| TimerFires (t : timer) (now : Z).

Inductive step : hook -> event -> hook -> Prop :=
| StepConnect s : step s CallConnect (connect s)
| StepDisconnect s : step s CallDisconnect (disconnect s)
| StepReconnect s : step s CallReconnect (reconnect s)
| StepSendMessage s m : step s (CallSendMessage m) (snd (sendMessage m s))
| StepSubscribe s c now : step s (CallSubscribe c now) (snd (subscribe c now s))
| StepUnsubscribe s c now : step s (CallUnsubscribe c now) (snd (unsubscribe c now s))
| StepOpen s :
    webSocketRef s <> None -> step s SocketOpen (onopen (socketBecomes OPEN s))
| StepClose s attempts wasClean :
    webSocketRef s <> None ->
    step s (SocketClose attempts wasClean) (onclose attempts wasClean (socketBecomes CLOSED s))
| StepError s :
    webSocketRef s <> None -> step s SocketError (onerror s)
| StepMessage s raw m :
    webSocketRef s <> None -> step s (SocketMessage raw m) (onmessage raw m s)
| StepTimer s t now :
    In t (pending s) -> step s (TimerFires t now) (fire t now s).

Inductive reachable (o : hookOptions) : hook -> Prop :=
| ReachMount : reachable o (mount o)
| ReachStep s e s' : reachable o s -> step s e s' -> reachable o s'.

End Hook.

(* ------------------------------------------------------------------ *)
(** ** services/calculator.js: volume statistics and validation *)

Module CalculatorRest.
Import JsNum Calculator.

(** *** calculateVolumeStats *)

(** [parseFloat(qty)] as a number: [NaN] when the text is not numeric. *)
Definition parsedNum (p : parsed) : num :=
  match p with
  | Some q => Fin q
  | None => NaN
  end.

Record priceInterval : Type := { rangeMin : Q; rangeMax : Q }.

(** The predicate of the [filter]: [p >= range.min && p <= range.max],
    false on [NaN]. *)
Definition withinRange (range : priceInterval) (e : entry) : bool :=
  match fst e with
  | Some p => Qle_bool (rangeMin range) p && Qle_bool p (rangeMax range)
  | None => false
  end.

(** [Object.entries(orders || {}).filter(..).reduce((sum, [, qty]) => sum + parseFloat(qty), 0)] *)
Definition calculateRangeVolume (orders : option side) (range : priceInterval) : num :=
  let entries := match orders with
                 | Some s => s
                 | None => []
                 end in
  fold_left (fun sum e => nadd sum (parsedNum (snd e)))
            (filter (withinRange range) entries) (Fin 0).

(** The short result has no [volumeRatio] property. *)
Record volumeStats : Type := {
  bidVolume : num;
  askVolume : num;
  totalVolume : num;
  volumeRatio : option num
}.

(** [orderBook.Bids] is read after the guard on the best prices; on a
    missing book the property access throws. *)
Definition calculateVolumeStats (o : option orderBook) (priceRange : Q)
  : outcome volumeStats :=
  let bestPrices := getBestPrices o in
  if falsy (bestBid bestPrices) || falsy (bestAsk bestPrices) then
    Returned {| bidVolume := Fin 0; askVolume := Fin 0; totalVolume := Fin 0;
                volumeRatio := None |}
  else
    let bidRange := {| rangeMin := bestBid bestPrices * (1 - priceRange / 100);
                       rangeMax := bestBid bestPrices |} in
    let askRange := {| rangeMin := bestAsk bestPrices;
                       rangeMax := bestAsk bestPrices * (1 + priceRange / 100) |} in
    match o with
    | None => TypeError
    | Some ob =>
        let bidVolume := calculateRangeVolume (Bids ob) bidRange in
        let askVolume := calculateRangeVolume (Asks ob) askRange in
        Returned {| bidVolume := bidVolume; askVolume := askVolume;
                    totalVolume := nadd bidVolume askVolume;
                    volumeRatio := Some (if ngtb askVolume (Fin 0)
                                         then ndiv bidVolume askVolume
                                         else Fin 0) |}
    end.

(** *** validateOrderBook *)

(** An order book with its [LastUpdate] property, a time in
    milliseconds; [None] when the property is absent. *)
Record stampedBook : Type := {
  bookOf : orderBook;
  LastUpdate : option Z
}.

(** The texts pushed to [issues] and [warnings]; the large-spread
    warning carries the percentage it prints. *)
Inductive issue : Type :=
| BookMissing
| InvalidBids
| InvalidAsks
| CrossedBook.

Inductive warning : Type :=
| LargeSpread (percent : Q)
| NoBids
| NoAsks
| StaleData.

(** The early results have no [metrics] property. *)
Record validation : Type := {
  isValid : bool;
  issues : list issue;
  warnings : list warning;
  metrics : option bestPrices
}.

(** [Object.keys(o).length === 0] *)
Definition noKeys (s : side) : bool :=
  match s with
  | [] => true
  | _ :: _ => false
  end.

(** [orderBook.LastUpdate && Date.now() - orderBook.LastUpdate > 10000] *)
Definition stale (lastUpdate : option Z) (now : Z) : bool :=
  match lastUpdate with
  | Some t => negb (t =? 0)%Z && (10000 <? now - t)%Z
  | None => false
  end.

(** [now] is the reading of [Date.now()]. *)
Definition validateOrderBook (o : option stampedBook) (now : Z) : validation :=
  match o with
  | None =>
      {| isValid := false; issues := [BookMissing]; warnings := []; metrics := None |}
  | Some sb =>
      let ob := bookOf sb in
      let structural :=
        (match Bids ob with None => [InvalidBids] | Some _ => [] end) ++
        (match Asks ob with None => [InvalidAsks] | Some _ => [] end) in
      match Bids ob, Asks ob with
      | Some bids, Some asks =>
          let bestPrices := getBestPrices (Some ob) in
          let issues :=
            structural ++
            (if Qle_bool (bestAsk bestPrices) (bestBid bestPrices)
                && Qltb 0 (bestBid bestPrices) && Qltb 0 (bestAsk bestPrices)
             then [CrossedBook] else []) in
          let warnings :=
            (if Qltb 10 (spreadPercent bestPrices)
             then [LargeSpread (spreadPercent bestPrices)] else []) ++
            (if noKeys bids then [NoBids] else []) ++
            (if noKeys asks then [NoAsks] else []) ++
            (if stale (LastUpdate sb) now then [StaleData] else []) in
          {| isValid := (List.length issues =? 0)%nat; issues := issues;
             warnings := warnings; metrics := Some bestPrices |}
      | _, _ =>
          {| isValid := false; issues := structural; warnings := []; metrics := None |}
      end
  end.

End CalculatorRest.

(* ------------------------------------------------------------------ *)
(** ** hooks/useOrderBook.js *)

Module OrderBookHook.
Import Wire.

(** *** Objects used as maps *)

(** A JavaScript object used as a map from property names to values,
    read through [lookup]; the order of enumeration is not modelled. *)
Definition object (V : Type) : Type := list (string * V).

(** [o[k]] *)
Fixpoint lookup {V : Type} (k : string) (o : object V) : option V :=
  match o with
  | [] => None
  | (k', v) :: o' => if String.eqb k' k then Some v else lookup k o'
  end.


(** [delete o[k]] *)
Definition remove {V : Type} (k : string) (o : object V) : object V :=
  filter (fun e => negb (String.eqb (fst e) k)) o.

(** *** The order book of a message *)

(** A property of a received object: a number, a string, another truthy
    value ([true], an object or an array) by the text [toString()] gives
    for it, or nothing truthy: the property is absent, [null] or
    [false]. *)
Inductive scalar : Type :=
| NumberValue (q : Q)
| StringValue (s : string)
| OtherValue (text : string)
| Absent.

(** Truthiness: [0], the empty string and an absent property are falsy. *)
Definition truthyScalar (v : scalar) : bool :=
  match v with
  | NumberValue q => negb (Qeq_bool q 0)
  | StringValue EmptyString => false
  | StringValue _ => true
  | OtherValue _ => true
  | Absent => false
  end.

(** [a || b] *)
Definition orElse (a b : scalar) : scalar := if truthyScalar a then a else b.

(** An element of a [Bids] or [Asks] array that is not [null]: its four
    properties, all of them absent on an element that is not an
    object. *)
Record level : Type := {
  Price : scalar;
  price : scalar;
  Quantity : scalar;
  quantity : scalar
}.

(** The [Bids] or [Asks] property of a received book: an array of
    elements none of which is [null], an array that holds [null], an
    object, or anything else. *)
Inductive rawSide : Type :=
| LevelArray (levels : list level)
| ArrayWithNull
| LevelObject (o : object scalar)
| NoLevels.

(** The object [data.data || data] of a message, by the properties the
    handler reads. *)
Record rawOrderBook : Type := {
  rawSymbolUpper : scalar;
  rawSymbolLower : scalar;
  rawBids : rawSide;
  rawAsks : rawSide;
  rawLastUpdate : scalar;
  rawSources : option (list string);
  rawExchange : scalar
}.

(** The book built from a message. *)
Record orderBook : Type := {
  Symbol : scalar;
  Bids : object scalar;
  Asks : object scalar;
  LastUpdate : scalar;
  Sources : list string;
  Exchange : scalar
}.

(** The entry of [orderBooks]: the book with the two times of storing. *)
Record storedBook : Type := {
  book : orderBook;
  lastUpdate : Z;
  receivedAt : Z
}.

(** The [data] property of a message: falsy or absent, an object, or
    another truthy value (a number, a string, [true] or an array), which
    has neither [Symbol] nor [symbol]. *)
Inductive dataProperty : Type :=
| NoData
| DataObject (d : rawOrderBook)
| DataOther.

(** A message handed to [handleWebSocketMessage], by the value [data]
    holds after the parse of a string: text that [JSON.parse] rejects,
    [null], a number, boolean, string or array, or an object with its
    [type] and [data] properties and, read from the object itself, the
    properties of an order book. *)
Inductive incoming : Type :=
| NotJson
| JsonNull
| JsonOther
| JsonObject (type : option string) (data : dataProperty) (self : rawOrderBook).




Section Rendering.

(** [Number.prototype.toString] *)
Variable numberToString : Q -> string.






Definition isUpdate (type : option string) : bool :=
  match type with
  | Some t => String.eqb t "orderbook_update"
  | None => false
  end.


(** [data.data || data], where it is an object. *)
Definition rawOf (data : dataProperty) (self : rawOrderBook) : option rawOrderBook :=
  match data with
  | NoData => Some self
  | DataObject d => Some d
  | DataOther => None
  end.


End Rendering.


(** *** Subscriptions *)

(** The options of [useOrderBook] that the subscription logic reads. *)
Record subscriptionOptions : Type := {
  enableWebSocket : bool;
  enablePolling : bool
}.

(** The argument of [subscribeToSymbols]: an array or a single symbol. *)
Inductive symbolsArg : Type :=
| OneSymbol (symbol : string)
| ManySymbols (symbols : list string).

(** [Array.isArray(symbolList) ? symbolList : [symbolList]] *)
Definition symbolsOf (a : symbolsArg) : list string :=
  match a with
  | OneSymbol symbol => [symbol]
  | ManySymbols symbols => symbols
  end.

(** [set.has(x)] on a set kept in insertion order. *)
Definition has (x : string) (set : list string) : bool := existsb (String.eqb x) set.

(** What a call works on: the copy [newSubscriptions] of the set, the
    order books, the [useWebSocket] hook behind [wsSubscribe] and
    [wsUnsubscribe], and the symbols handed to [fetchOrderBookREST]. *)
Record subscriptionState : Type := {
  newSubscriptions : list string;
  books : object storedBook;
  socketHook : Hook.hook;
  fetched : list string
}.

(** The body of the [forEach] of [subscribeToSymbols]; [isConnected] is
    the value the callback closed over and [now] the reading of
    [Date.now()], taken to be the same throughout one call. *)
Definition subscribeOne (o : subscriptionOptions) (isConnected : bool) (now : Z)
  (s : subscriptionState) (symbol : string) : subscriptionState :=
  if has symbol (newSubscriptions s) then s
  else
    {| newSubscriptions := newSubscriptions s ++ [symbol];
       books := books s;
       socketHook :=
         if enableWebSocket o && isConnected
         then snd (Hook.subscribe (Hook.orderBookChannel symbol) now (socketHook s))
         else socketHook s;
       fetched := if enablePolling o then fetched s ++ [symbol] else fetched s |}.

Definition subscribeToSymbols (o : subscriptionOptions) (isConnected : bool) (now : Z)
  (symbolList : symbolsArg) (s : subscriptionState) : subscriptionState :=
  fold_left (subscribeOne o isConnected now) (symbolsOf symbolList) s.

(** The body of the [forEach] of [unsubscribeFromSymbols]. *)
Definition unsubscribeOne (o : subscriptionOptions) (isConnected : bool) (now : Z)
  (s : subscriptionState) (symbol : string) : subscriptionState :=
  if has symbol (newSubscriptions s) then
    {| newSubscriptions :=
         filter (fun x => negb (String.eqb symbol x)) (newSubscriptions s);
       books := remove symbol (books s);
       socketHook :=
         if enableWebSocket o && isConnected
         then snd (Hook.unsubscribe (Hook.orderBookChannel symbol) now (socketHook s))
         else socketHook s;
       fetched := fetched s |}
  else s.

Definition unsubscribeFromSymbols (o : subscriptionOptions) (isConnected : bool) (now : Z)
  (symbolList : symbolsArg) (s : subscriptionState) : subscriptionState :=
  fold_left (unsubscribeOne o isConnected now) (symbolsOf symbolList) s.

End OrderBookHook.

(* ------------------------------------------------------------------ *)
(** * Properties *)

(** ** Numbers *)

Module NumFacts.
Import JsNum.

Lemma Qltb_lt (a b : Q) : Qltb a b = true <-> a < b.
Proof.
  unfold Qltb. rewrite negb_true_iff.
  split; intro H.
  - apply Qnot_le_lt. intro Hle. apply Qle_bool_iff in Hle. congruence.
  - destruct (Qle_bool b a) eqn:E; [|reflexivity].
    apply Qle_bool_iff in E. exfalso. apply (Qlt_not_le _ _ H E).
Qed.

Lemma Qltb_ge (a b : Q) : Qltb a b = false <-> b <= a.
Proof.
  unfold Qltb. rewrite negb_false_iff. apply Qle_bool_iff.
Qed.

Lemma Qle_bool_gt (a b : Q) : Qle_bool a b = false <-> b < a.
Proof.
  rewrite <- Qltb_lt. unfold Qltb.
  destruct (Qle_bool a b); simpl; intuition congruence.
Qed.

Lemma nltb_Fin_zero (q : Q) : nltb (Fin q) (Fin 0) = true <-> q < 0.
Proof. unfold nltb, ngtb. apply Qltb_lt. Qed.

Lemma nltb_Fin_zero_false (q : Q) : nltb (Fin q) (Fin 0) = false <-> 0 <= q.
Proof. unfold nltb, ngtb. apply Qltb_ge. Qed.

Lemma Qsign_Eq (q : Q) : Qsign q = Eq <-> q == 0.
Proof. unfold Qsign. symmetry. apply Qeq_alt. Qed.

Lemma Qsign_Gt (q : Q) : Qsign q = Gt <-> 0 < q.
Proof. unfold Qsign. symmetry. apply Qgt_alt. Qed.

Lemma Qsign_Lt (q : Q) : Qsign q = Lt <-> q < 0.
Proof. unfold Qsign. symmetry. apply Qlt_alt. Qed.

(** Division by a non-zero number is the exact quotient. *)
Lemma jsdiv_nonzero (a b : Q) : ~ b == 0 -> jsdiv a b = Fin (a / b).
Proof.
  intro Hb. unfold jsdiv.
  destruct (Qsign b) eqn:E; try reflexivity.
  apply Qsign_Eq in E. contradiction.
Qed.

(** Only [0 / 0] is [NaN]. *)
Lemma jsdiv_NaN (a b : Q) : jsdiv a b = NaN <-> a == 0 /\ b == 0.
Proof.
  unfold jsdiv. split.
  - destruct (Qsign b) eqn:Eb; try discriminate.
    destruct (Qsign a) eqn:Ea; try discriminate.
    intros _. split; apply Qsign_Eq; assumption.
  - intros [Ha Hb]. apply Qsign_Eq in Ha, Hb. rewrite Ha, Hb. reflexivity.
Qed.

End NumFacts.

(** ** services/calculator.js *)

Module CalculatorFacts.
Import JsNum Float64 NumFacts Calculator.

(** *** Sorting *)

Section Sorting.

Context {A : Type}.
Variable cmp : A -> A -> num.
Variable before : A -> A -> Prop.

(** The comparator decides a total preorder: a negative result puts the
    first argument first, any other result allows the second first. *)
Hypothesis cmp_negative : forall a b, nltb (cmp a b) (Fin 0) = true -> before a b.
Hypothesis cmp_other : forall a b, nltb (cmp a b) (Fin 0) = false -> before b a.
Hypothesis before_trans : forall a b c, before a b -> before b c -> before a c.

Lemma insert_by_perm (x : A) (l : list A) : Permutation (insert_by cmp x l) (x :: l).
Proof.
  induction l as [|y l IH]; cbn [insert_by].
  - reflexivity.
  - destruct (nltb (cmp y x) (Fin 0)).
    + eapply perm_trans; [apply perm_skip; exact IH | apply perm_swap].
    + reflexivity.
Qed.

Lemma js_sort_perm (l : list A) : Permutation (js_sort cmp l) l.
Proof.
  induction l as [|x l IH]; cbn [js_sort fold_right].
  - reflexivity.
  - eapply perm_trans; [apply insert_by_perm | apply perm_skip; exact IH].
Qed.

Lemma insert_by_sorted (x : A) (l : list A) :
  StronglySorted before l -> StronglySorted before (insert_by cmp x l).
Proof.
  induction 1 as [|y l Hs IH Hall]; cbn [insert_by].
  - repeat constructor.
  - destruct (nltb (cmp y x) (Fin 0)) eqn:E.
    + constructor; [exact IH|].
      apply (Permutation_Forall (Permutation_sym (insert_by_perm x l))).
      constructor; [apply cmp_negative; exact E | exact Hall].
    + assert (Hxy : before x y) by (apply cmp_other; exact E).
      constructor; [constructor; assumption|].
      constructor; [exact Hxy|].
      eapply Forall_impl; [|exact Hall].
      intros z Hz. eapply before_trans; eassumption.
Qed.

Lemma js_sort_sorted (l : list A) : StronglySorted before (js_sort cmp l).
Proof.
  induction l as [|x l IH]; cbn [js_sort fold_right].
  - constructor.
  - apply insert_by_sorted. exact IH.
Qed.

End Sorting.

(** Sorting a list of positive numbers yields the empty list only from
    the empty list. *)
Lemma js_sort_nil {A : Type} (cmp : A -> A -> num) (l : list A) :
  js_sort cmp l = [] <-> l = [].
Proof.
  split; intro H.
  - apply Permutation_nil. rewrite <- H. apply js_sort_perm.
  - subst. reflexivity.
Qed.

(** *** getBestPrices *)

(** A side without a level of positive price; a missing side has none. *)
Definition noPositivePrice (o : option side) : Prop :=
  match o with
  | Some s => Forall (fun e : entry => match fst e with
                                       | Some p => p <= 0
                                       | None => True
                                       end) s
  | None => True
  end.

Definition noBids (o : option orderBook) : Prop :=
  match o with
  | Some ob => noPositivePrice (Bids ob)
  | None => True
  end.

Definition noAsks (o : option orderBook) : Prop :=
  match o with
  | Some ob => noPositivePrice (Asks ob)
  | None => True
  end.

Definition allZero (bp : bestPrices) : Prop :=
  bestBid bp == 0 /\ bestAsk bp == 0 /\ spread bp == 0 /\
  spreadPercent bp == 0 /\ midPrice bp == 0.

Lemma positivePrices_none (s : side) :
  noPositivePrice (Some s) -> positivePrices s = [].
Proof.
  simpl. induction 1 as [|[[p|] q] s Hp Hs IH]; simpl in *; auto.
  apply Qltb_ge in Hp. rewrite Hp. exact IH.
Qed.


Lemma positivePrices_In (s : side) (p : Q) :
  In p (positivePrices s) <-> (exists q, In (Some p, q) s) /\ 0 < p.
Proof.
  induction s as [|[[p'|] q'] s IH]; cbn [positivePrices In].
  - split; [contradiction | intros [[q []] _]].
  - destruct (Qltb 0 p') eqn:E.
    + cbn [In]. rewrite IH. apply Qltb_lt in E. split.
      * intros [<-|[[q Hq] Hp]]; [split; [exists q'; left; reflexivity | exact E]|].
        split; [exists q; right; exact Hq | exact Hp].
      * intros [[q [Hq|Hq]] Hp].
        -- injection Hq as -> _. left. reflexivity.
        -- right. split; [exists q; exact Hq | exact Hp].
    + rewrite IH. apply Qltb_ge in E. split.
      * intros [[q Hq] Hp]. split; [exists q; right; exact Hq | exact Hp].
      * intros [[q [Hq|Hq]] Hp].
        -- injection Hq as -> _. lra.
        -- split; [exists q; exact Hq | exact Hp].
  - rewrite IH. split.
    + intros [[q Hq] Hp]. split; [exists q; right; exact Hq | exact Hp].
    + intros [[q [Hq|Hq]] Hp]; [discriminate|].
      split; [exists q; exact Hq | exact Hp].
Qed.

Lemma ascending_sorted (l : list Q) : StronglySorted Qle (js_sort ascending l).
Proof.
  apply js_sort_sorted.
  - intros a b H. apply nltb_Fin_zero in H. lra.
  - intros a b H. apply nltb_Fin_zero_false in H. lra.
  - intros a b c. lra.
Qed.

Lemma descending_sorted (l : list Q) :
  StronglySorted (fun a b => b <= a) (js_sort descending l).
Proof.
  apply js_sort_sorted.
  - intros a b H. apply nltb_Fin_zero in H. lra.
  - intros a b H. apply nltb_Fin_zero_false in H. lra.
  - intros a b c. lra.
Qed.

(** The head of a sorted list is related to every element. *)
Lemma sorted_head {A : Type} (R : A -> A -> Prop) (x : A) (l : list A) (y : A) :
  (forall a, R a a) -> StronglySorted R (x :: l) -> In y (x :: l) -> R x y.
Proof.
  intros Hrefl Hs [<-|Hy]; [apply Hrefl|].
  inversion Hs as [|? ? _ Hall]; subst.
  apply (proj1 (Forall_forall _ _) Hall). exact Hy.
Qed.

Lemma first_or_zero_of_sort (cmp : Q -> Q -> num) (R : Q -> Q -> Prop) (l : list Q) :
  (forall a, R a a) -> StronglySorted R (js_sort cmp l) -> l <> [] ->
  In (first_or_zero (js_sort cmp l)) l /\
  forall y, In y l -> R (first_or_zero (js_sort cmp l)) y.
Proof.
  intros Hrefl Hs Hne.
  pose proof (js_sort_perm cmp l) as Hp.
  destruct (js_sort cmp l) as [|x rest] eqn:E.
  - apply Permutation_nil in Hp. contradiction.
  - cbn [first_or_zero]. split.
    + apply (Permutation_in _ Hp). left. reflexivity.
    + intros y Hy. apply (sorted_head R x rest y Hrefl Hs).
      apply (Permutation_in _ (Permutation_sym Hp)). exact Hy.
Qed.

(** A book whose bid object is empty and whose ask object holds one level. *)
Definition askOnlyBook : orderBook :=
  {| Bids := Some []; Asks := Some [(Some 100, Some 1)];
     Sources := None; Exchange := None |}.

(** C1, as stated, fails: with no bids and one ask at 100 the result
    reports [bestAsk = 100] and [spread = 100], not zeros. *)
Lemma C1_counterexample :
  (noBids (Some askOnlyBook) \/ noAsks (Some askOnlyBook)) /\
  bestAsk (getBestPrices (Some askOnlyBook)) = 100 /\
  spread (getBestPrices (Some askOnlyBook)) = 100 /\
  ~ allZero (getBestPrices (Some askOnlyBook)).
Proof.
  split; [left; simpl; constructor|].
  split; [reflexivity|]. split; [reflexivity|].
  intros (_ & H & _). vm_compute in H. discriminate.
Qed.

(** Every positive price of a side [s] that is present is matched by the
    best price [best]: [best] is positive, a key of the map, and no
    positive price of the side lies beyond it in the order [before]. *)
Definition reportsBest (before : Q -> Q -> Prop) (s : side) (best : Q) : Prop :=
  forall p, In p (positivePrices s) ->
    0 < best /\ before best p /\ exists q, In (Some best, q) s.

(** C1, amended: when at least one side has no level of positive price,
    [midPrice] and [spreadPercent] are 0 and the best price of each such
    side is 0; when both maps are present the best price of the other
    side is still reported, as its least positive ask or its greatest
    positive bid; and when both sides have no such level the whole result
    is zero. *)
Theorem C1_best_prices_with_an_empty_side (o : option orderBook)
  (H : noBids o \/ noAsks o) :
  let bp := getBestPrices o in
  midPrice bp = 0 /\ spreadPercent bp = 0 /\
  (noBids o -> bestBid bp = 0) /\
  (noAsks o -> bestAsk bp = 0) /\
  (forall ob bids asks,
     o = Some ob -> Bids ob = Some bids -> Asks ob = Some asks ->
     reportsBest Qle asks (bestAsk bp) /\
     reportsBest (fun best p => p <= best) bids (bestBid bp)) /\
  (noBids o -> noAsks o -> bp = zeroPrices).
Proof.
  destruct o as [ob|];
    [|simpl; repeat split;
      first [reflexivity | intros; reflexivity | intros; discriminate]].
  unfold noBids, noAsks in *. unfold getBestPrices.
  destruct (Bids ob) as [bids|] eqn:Ebids, (Asks ob) as [asks|] eqn:Easks;
    try (simpl; repeat split;
         first [reflexivity | intros; reflexivity
               | exfalso;
                 match goal with Ho : Some _ = Some _ |- _ =>
                   injection Ho as <-; congruence end]).
  assert (Hb : noPositivePrice (Some bids) ->
               first_or_zero (js_sort descending (positivePrices bids)) = 0).
  { intro Hn. rewrite (positivePrices_none _ Hn). reflexivity. }
  assert (Ha : noPositivePrice (Some asks) ->
               first_or_zero (js_sort ascending (positivePrices asks)) = 0).
  { intro Hn. rewrite (positivePrices_none _ Hn). reflexivity. }
  cbv zeta. cbn [midPrice spreadPercent spread bestAsk bestBid].
  assert (Hmid : (if Qltb 0 (first_or_zero (js_sort descending (positivePrices bids)))
                     && Qltb 0 (first_or_zero (js_sort ascending (positivePrices asks)))
                  then (first_or_zero (js_sort descending (positivePrices bids))
                        + first_or_zero (js_sort ascending (positivePrices asks))) / 2
                  else 0) = 0).
  { destruct H as [Hn|Hn].
    - rewrite (Hb Hn). reflexivity.
    - rewrite (Ha Hn). rewrite andb_false_r. reflexivity. }
  rewrite Hmid.
  split; [reflexivity|]. split; [reflexivity|].
  split; [exact Hb|]. split; [exact Ha|]. split.
  - intros ob' bids' asks' Ho Hbids Hasks. injection Ho as <-.
    rewrite Ebids in Hbids. rewrite Easks in Hasks.
    injection Hbids as <-. injection Hasks as <-.
    split; intros p Hp.
    + assert (Hne : positivePrices asks <> [])
        by (intro E; rewrite E in Hp; contradiction).
      destruct (first_or_zero_of_sort ascending Qle (positivePrices asks))
        as [Hin Hmin]; [intro; lra | apply ascending_sorted | exact Hne |].
      apply positivePrices_In in Hin. destruct Hin as [Hkey Hpos].
      split; [exact Hpos|]. split; [apply Hmin; exact Hp | exact Hkey].
    + assert (Hne : positivePrices bids <> [])
        by (intro E; rewrite E in Hp; contradiction).
      destruct (first_or_zero_of_sort descending (fun x y => y <= x) (positivePrices bids))
        as [Hin Hmax]; [intro; lra | apply descending_sorted | exact Hne |].
      apply positivePrices_In in Hin. destruct Hin as [Hkey Hpos].
      split; [exact Hpos|]. split; [apply Hmax; exact Hp | exact Hkey].
  - intros Hnb Hna. rewrite (Hb Hnb), (Ha Hna). reflexivity.
Qed.

(** The amended statement at [askOnlyBook]: no mid price, and the best
    ask of 100 is reported. *)
Lemma C1_best_prices_with_an_empty_side_witness :
  midPrice (getBestPrices (Some askOnlyBook)) = 0 /\
  spreadPercent (getBestPrices (Some askOnlyBook)) = 0 /\
  0 < bestAsk (getBestPrices (Some askOnlyBook)).
Proof.
  assert (Hempty : noBids (Some askOnlyBook) \/ noAsks (Some askOnlyBook))
    by (left; simpl; constructor).
  destruct (C1_best_prices_with_an_empty_side (Some askOnlyBook) Hempty)
    as (Hm & Hs & _ & _ & Hother & _).
  split; [exact Hm|]. split; [exact Hs|].
  destruct (Hother askOnlyBook [] [(Some 100, Some 1)] eq_refl eq_refl eq_refl)
    as [Hask _].
  destruct (Hask 100) as [Hpos _]; [left; reflexivity | exact Hpos].
Defined.

(** *** Rounding *)









(** *** calculateVWAP *)





Lemma parseOrders_positive (s : side) :
  Forall (fun o => 0 < quantity o) (parseOrders s).
Proof.
  induction s as [|[[p|] [q|]] s IH]; simpl; auto.
  destruct (Qltb 0 p) eqn:Ep, (Qltb 0 q) eqn:Eq; simpl; auto.
  constructor; [apply Qltb_lt; exact Eq | exact IH].
Qed.






(** **** Whole quantities *)









(** **** The claim *)








(** *** calculateMarketDepth *)

(** A book whose bid and ask objects are both empty. *)
Definition emptyBook : orderBook :=
  {| Bids := Some []; Asks := Some []; Sources := None; Exchange := None |}.

Lemma fold_left_sum_ge {A : Type} (f : A -> Q) (l : list A) (init : Q) :
  Forall (fun x => 0 <= f x) l ->
  init <= fold_left (fun sum x => sum + f x) l init.
Proof.
  intro H. revert init.
  induction H as [|x l Hx Hl IH]; intro init; simpl.
  - lra.
  - specialize (IH (init + f x)). lra.
Qed.

Lemma cumulate_quantities (cum : Q) (l : list order) :
  map dlQuantity (cumulate cum l) = map quantity l.
Proof.
  revert cum. induction l as [|o l IH]; intro cum; simpl.
  - reflexivity.
  - rewrite IH. reflexivity.
Qed.

Lemma processSide_nonneg (levels : nat) (orders : side) (isAsk : bool) :
  Forall (fun d => 0 <= dlQuantity d) (processSide levels orders isAsk).
Proof.
  unfold processSide.
  match goal with
  | |- context [firstn levels ?l] => set (sorted := l)
  end.
  assert (Hs : Forall (fun o => 0 < quantity o) sorted).
  { apply (Permutation_Forall (Permutation_sym (js_sort_perm _ _))).
    apply parseOrders_positive. }
  assert (Hf : Forall (fun o => 0 < quantity o) (firstn levels sorted)).
  { rewrite <- (firstn_skipn levels sorted) in Hs.
    apply Forall_app in Hs. apply Hs. }
  clear Hs. generalize 0 at 2.
  induction Hf as [|o l Ho Hl IH]; intro cum; simpl.
  - constructor.
  - constructor; [simpl; lra | apply IH].
Qed.

Lemma sumQuantity_nonneg (levels : nat) (orders : side) (isAsk : bool) :
  0 <= sumQuantity (processSide levels orders isAsk).
Proof.
  unfold sumQuantity. apply fold_left_sum_ge. apply processSide_nonneg.
Qed.

(** Whenever [calculateMarketDepth] reports an [imbalance], it is either
    [NaN], with no volume on either side, or a finite number in
    [[-1, 1]]. *)
Lemma imbalance_NaN_or_in_range (o : option orderBook) (levels : nat) (i : num) :
  imbalance (calculateMarketDepth o levels) = Some i ->
  (i = NaN /\ totalBidVolume (calculateMarketDepth o levels) == 0
           /\ totalAskVolume (calculateMarketDepth o levels) == 0)
  \/ in_range (-1) 1 i.
Proof.
  destruct o as [ob|]; [|discriminate].
  unfold calculateMarketDepth.
  destruct (Bids ob) as [bids|], (Asks ob) as [asks|]; try discriminate.
  cbn [imbalance totalBidVolume totalAskVolume].
  pose proof (sumQuantity_nonneg levels bids false) as Hb.
  pose proof (sumQuantity_nonneg levels asks true) as Ha.
  set (b := sumQuantity (processSide levels bids false)) in *.
  set (a := sumQuantity (processSide levels asks true)) in *.
  intro H. injection H as <-.
  destruct (Qeq_dec (b + a) 0) as [Hz|Hnz].
  - left. split; [|split; lra].
    apply jsdiv_NaN. split; lra.
  - right. rewrite (jsdiv_nonzero _ _ Hnz). simpl.
    assert (Hpos : 0 < b + a) by lra.
    split.
    + apply Qle_shift_div_l; [exact Hpos | lra].
    + apply Qle_shift_div_r; [exact Hpos | lra].
Qed.

(** C4: on a book with both sides empty the division is [0 / 0]: the
    reported [imbalance] is [NaN], not [0], whatever the number of levels
    requested.  The claim fails at this input. *)
Theorem C4_imbalance_of_empty_book_is_NaN (levels : nat) :
  imbalance (calculateMarketDepth (Some emptyBook) levels) = Some NaN /\
  ~ in_range (-1) 1 NaN.
Proof.
  split.
  - unfold calculateMarketDepth, processSide. simpl.
    destruct levels; reflexivity.
  - simpl. tauto.
Qed.

(** *** calculateOptimalSizing *)

(** Asks [110.5:2] and [100.5:1], in that order of enumeration. *)
Definition unsortedAsks : side := [(Some (221 # 2), Some 2); (Some (201 # 2), Some 1)].

Definition unsortedBook : orderBook :=
  {| Bids := Some []; Asks := Some unsortedAsks; Sources := None; Exchange := None |}.

(** C5: the size reported as [maxSize] need not be within the bound.
    For a buy against [unsortedBook] with [maxSlippage = 0.1] the step is
    2, the quantity of the first level in enumeration order; the first
    candidate, of size 2, fills completely at 105.5 against a reference
    price of 100.5; its slippage of about 4.98 percent is recorded before
    it is compared with the bound, the loop stops there, and the size 2
    is returned as [maxSize]. *)
Theorem C5_max_size_exceeds_the_slippage_bound (fuel : nat) :
  let maxSlippage := round64 (1 # 10) in
  exists r,
    calculateOptimalSizing (S fuel) (Some unsortedBook) (Fin 2) maxSlippage buy
    = Some (Returned {| maxSize := Fin 2; recommendations := [r];
                        szReferencePrice := Some (201 # 2) |}) /\
    stepOf (Fin 2) = Fin 2 /\
    size r = Fin 2 /\ recPrice r = Fin (211 # 2) /\
    remainingVolume (calculateVWAP (Some unsortedBook) (size r) buy) = Fin 0 /\
    slippage r = relativeTo (201 # 2) (Fin (211 # 2)) /\
    ngtb (nabs (slippage r)) maxSlippage = true /\
    ngtb (nabs (slippage r)) (Fin 4) = true.
Proof.
  cbv zeta. eexists. split; [vm_compute; reflexivity|].
  repeat split; vm_compute; reflexivity.
Qed.

(** *** compareOrderBooks *)

(** A book with one bid at 99 and one ask at 100. *)
Definition tradableBook : orderBook :=
  {| Bids := Some [(Some 99, Some 1)]; Asks := Some [(Some 100, Some 1)];
     Sources := Some ["A"%string]; Exchange := None |}.

(** C10: a missing book does not survive to the filter.  With [null] as
    an element of an array of two, [compareOrderBooks] throws a
    [TypeError] from [ob.Sources] instead of returning; the claim fails at
    these inputs. *)
Theorem C10_missing_book_throws :
  compareOrderBooks [None; Some tradableBook] = TypeError /\
  compareOrderBooks [Some tradableBook; None] = TypeError /\
  compareOrderBooks [None; None] = TypeError /\
  bestBid (getBestPrices None) = 0.
Proof. repeat split; reflexivity. Qed.

(** What [describe] returns on a book that is present. *)
Definition infoOf (ob : orderBook) : exchangeInfo :=
  match describe (Some ob) with
  | Returned d => d
  | TypeError =>
      {| exchange := EmptyString; eiBestBid := 0; eiBestAsk := 0; eiSpread := 0;
         eiSpreadPercent := 0; eiMidPrice := 0; eiSpreadBps := NaN; eiDepth := 0;
         eiLiquidity := NaN; eiEfficiency := NaN; eiStability := NaN;
         eiOrderBook := ob |}
  end.

Lemma describe_present (ob : orderBook) : describe (Some ob) = Returned (infoOf ob).
Proof. reflexivity. Qed.

Lemma infoOf_prices (ob : orderBook) :
  exchange (infoOf ob) = exchangeName ob /\
  eiBestBid (infoOf ob) = bestBid (getBestPrices (Some ob)) /\
  eiBestAsk (infoOf ob) = bestAsk (getBestPrices (Some ob)).
Proof. repeat split; reflexivity. Qed.

Lemma describeAll_present (books : list orderBook) :
  describeAll (map Some books) = Returned (map infoOf books).
Proof.
  induction books as [|ob books IH]; [reflexivity|].
  cbn [map describeAll]. rewrite describe_present, IH. reflexivity.
Qed.

(** The books that survive the filter: both best prices positive. *)
Definition survives (ob : orderBook) : bool :=
  Qltb 0 (bestBid (getBestPrices (Some ob))) && Qltb 0 (bestAsk (getBestPrices (Some ob))).

Lemma filter_tradable (books : list orderBook) :
  filter tradable (map infoOf books) = map infoOf (filter survives books).
Proof.
  induction books as [|ob books IH]; [reflexivity|].
  cbn [map filter].
  change (tradable (infoOf ob)) with (survives ob).
  destruct (survives ob); cbn [map]; rewrite IH; reflexivity.
Qed.

(** The analysis of the surviving books. *)
Definition analysis (data : list exchangeInfo) : comparisonResult :=
  match data with
  | first :: _ :: _ =>
      {| arbitrage := js_sort byProfitPercent (findArbitrage data);
         bestExchangeName := Some (exchange (fold_left pickBest (tl data) first));
         exchangeData := Some data;
         summary := Some (summarize data) |}
  | _ => emptyComparison
  end.

(** On books that are all present, [compareOrderBooks] returns, and its
    result is computed from the surviving books alone: the empty result
    when fewer than two survive. *)
Lemma compareOrderBooks_present (books : list orderBook) :
  compareOrderBooks (map Some books)
  = Returned (analysis (map infoOf (filter survives books))) /\
  ((List.length (filter survives books) < 2)%nat ->
   compareOrderBooks (map Some books) = Returned emptyComparison).
Proof.
  assert (Hmain : compareOrderBooks (map Some books)
                  = Returned (analysis (map infoOf (filter survives books)))).
  { unfold compareOrderBooks. rewrite length_map.
    destruct (List.length books <? 2)%nat eqn:E.
    - apply Nat.ltb_lt in E.
      destruct books as [|b1 [|b2 books]]; simpl in E; try lia.
      + reflexivity.
      + cbn [filter]. destruct (survives b1); reflexivity.
    - rewrite describeAll_present, filter_tradable.
      unfold analysis.
      destruct (map infoOf (filter survives books)) as [|d1 [|d2 ds]]; reflexivity. }
  split; [exact Hmain|].
  intro Hlt. rewrite Hmain.
  destruct (filter survives books) as [|b1 [|b2 bs]]; simpl in Hlt; try lia; reflexivity.
Qed.

(** The exchanges named in the summary are those of the surviving books. *)
Lemma summary_exchanges (books : list orderBook) (r : comparisonResult) (st : summaryStats) :
  compareOrderBooks (map Some books) = Returned r -> summary r = Some st ->
  exchanges st = map exchangeName (filter survives books).
Proof.
  rewrite (proj1 (compareOrderBooks_present books)).
  intro H. injection H as <-.
  unfold analysis.
  destruct (map infoOf (filter survives books)) as [|d1 [|d2 ds]] eqn:E;
    try discriminate.
  cbn [summary]. intro H. injection H as <-.
  unfold summarize. cbn [exchanges]. rewrite <- E, map_map. reflexivity.
Qed.

End CalculatorFacts.

(** ** Timers *)

Module TimerFacts.
Import Wire.

(** The handles of the pending reconnect timers. *)
Definition reconnectIds (pending : list timer) : list positive :=
  map timerId (filter isReconnect pending).

Lemma reconnectIds_app (l l' : list timer) :
  reconnectIds (l ++ l') = reconnectIds l ++ reconnectIds l'.
Proof. unfold reconnectIds. rewrite filter_app, map_app. reflexivity. Qed.

Lemma reconnectIds_In (l : list timer) (id : positive) :
  In id (reconnectIds l) <-> exists t, In t l /\ isReconnect t = true /\ timerId t = id.
Proof.
  unfold reconnectIds. rewrite in_map_iff. split.
  - intros (t & Hid & Ht). apply filter_In in Ht. exists t. tauto.
  - intros (t & Ht & Hr & Hid). exists t. split; [exact Hid|].
    apply filter_In. tauto.
Qed.

Lemma cancel_In (id : positive) (l : list timer) (t : timer) :
  In t (cancel id l) <-> In t l /\ timerId t <> id.
Proof.
  unfold cancel. rewrite filter_In, negb_true_iff, Pos.eqb_neq. tauto.
Qed.

(** Cancelling a handle that no pending reconnect timer carries leaves
    the reconnect timers as they are. *)
Lemma reconnectIds_cancel_other (id : positive) (l : list timer) :
  ~ In id (reconnectIds l) -> reconnectIds (cancel id l) = reconnectIds l.
Proof.
  unfold reconnectIds, cancel.
  induction l as [|t l IH]; intro Hn; [reflexivity|].
  cbn [filter] in *.
  destruct (isReconnect t) eqn:Er.
  - cbn [map In] in Hn.
    destruct (Pos.eqb_spec (timerId t) id) as [E|E]; [tauto|].
    cbn [negb filter]. rewrite Er. cbn [map]. rewrite IH; tauto.
  - destruct (negb (Pos.eqb (timerId t) id)); cbn [filter];
      try rewrite Er; apply IH; exact Hn.
Qed.

(** Cancelling the handle of the only pending reconnect timer leaves
    none. *)
Lemma reconnectIds_cancel_self (id : positive) (l : list timer) :
  (forall i, In i (reconnectIds l) -> i = id) -> reconnectIds (cancel id l) = [].
Proof.
  unfold reconnectIds, cancel.
  induction l as [|t l IH]; intro Hall; [reflexivity|].
  cbn [filter] in *.
  destruct (isReconnect t) eqn:Er.
  - cbn [map In] in Hall.
    rewrite (Hall (timerId t)) by tauto.
    rewrite Pos.eqb_refl. cbn [negb]. apply IH. intros i Hi. apply Hall. tauto.
  - destruct (negb (Pos.eqb (timerId t) id)); cbn [filter];
      try rewrite Er; apply IH; exact Hall.
Qed.

Lemma cancel_ids_incl (id : positive) (l : list timer) (i : positive) :
  In i (map timerId (cancel id l)) -> In i (map timerId l).
Proof.
  rewrite !in_map_iff. intros (t & Hi & Ht).
  apply cancel_In in Ht. exists t. tauto.
Qed.

Lemma cancel_NoDup (id : positive) (l : list timer) :
  NoDup (map timerId l) -> NoDup (map timerId (cancel id l)).
Proof.
  unfold cancel. induction l as [|t l IH]; intro Hn; [constructor|].
  cbn [map filter] in *. inversion Hn as [|? ? Hnot Hrest]; subst.
  destruct (negb (Pos.eqb (timerId t) id)); [|apply IH; exact Hrest].
  cbn [map]. constructor; [|apply IH; exact Hrest].
  intro Hin. apply Hnot. eapply cancel_ids_incl. exact Hin.
Qed.

Lemma cancel_Forall (P : timer -> Prop) (id : positive) (l : list timer) :
  Forall P l -> Forall P (cancel id l).
Proof.
  intro H. apply Forall_forall. intros t Ht. apply cancel_In in Ht.
  apply (proj1 (Forall_forall _ _) H). tauto.
Qed.

Lemma reconnectIds_cancel_incl (id : positive) (l : list timer) (i : positive) :
  In i (reconnectIds (cancel id l)) -> In i (reconnectIds l).
Proof.
  rewrite !reconnectIds_In. intros (t & Ht & Hr & Hi).
  apply cancel_In in Ht. exists t. tauto.
Qed.

(** With distinct handles, a pending timer that is not a reconnect timer
    shares its handle with no reconnect timer. *)
Lemma other_kind_not_reconnect (l : list timer) (t : timer) :
  NoDup (map timerId l) -> In t l -> isReconnect t = false ->
  ~ In (timerId t) (reconnectIds l).
Proof.
  induction l as [|u l IH]; intros Hn Ht Hr Hin; [contradiction|].
  cbn [map] in Hn. inversion Hn as [|? ? Hnot Hrest]; subst.
  apply reconnectIds_In in Hin. destruct Hin as (t' & Ht' & Hr' & Hid).
  destruct Ht as [->|Ht], Ht' as [->|Ht'].
  - congruence.
  - apply Hnot. rewrite <- Hid. apply in_map. exact Ht'.
  - apply Hnot. rewrite Hid. apply in_map. exact Ht.
  - apply (IH Hrest Ht Hr). apply reconnectIds_In. exists t'. tauto.
Qed.

End TimerFacts.

(** ** services/websocket.js *)

Module ServiceFacts.
Import JsNum NumFacts Wire TimerFacts Service.

(** *** Operations that only send or queue *)

(** [s'] differs from [s] at most in the queue, the subscription set, the
    counters and the trace of effects. *)
Definition sendsOnly (s s' : service) : Prop :=
  options s' = options s /\ ws s' = ws s /\ isConnected s' = isConnected s /\
  isConnecting s' = isConnecting s /\ reconnectAttempts s' = reconnectAttempts s /\
  lastConnectTime s' = lastConnectTime s /\ connectionId s' = connectionId s /\
  reconnectTimer s' = reconnectTimer s /\ heartbeatTimer s' = heartbeatTimer s /\
  connectionTimer s' = connectionTimer s /\
  latencyMeasurements s' = latencyMeasurements s /\ pending s' = pending s /\
  nextTimer s' = nextTimer s /\ nextSocket s' = nextSocket s /\
  averageLatency (stats s') = averageLatency (stats s).

Lemma sendsOnly_refl (s : service) : sendsOnly s s.
Proof. unfold sendsOnly. repeat split; reflexivity. Qed.

Lemma sendsOnly_trans (s1 s2 s3 : service) :
  sendsOnly s1 s2 -> sendsOnly s2 s3 -> sendsOnly s1 s3.
Proof. unfold sendsOnly. intuition congruence. Qed.

Lemma send_sendsOnly (data : payload) (s : service) : sendsOnly s (snd (send data s)).
Proof.
  unfold send, sendsOnly.
  destruct (isConnected s) eqn:E1, (ws s) eqn:E2; cbn;
    rewrite ?E1, ?E2; repeat split; reflexivity.
Qed.

Lemma sendJSON_sendsOnly (j : json) (s : service) : sendsOnly s (snd (sendJSON j s)).
Proof. apply send_sendsOnly. Qed.

Lemma subscribe_sendsOnly (symbol : string) (now : Z) (s : service) :
  sendsOnly s (snd (subscribe symbol now s)).
Proof.
  unfold subscribe. eapply sendsOnly_trans; [|apply sendJSON_sendsOnly].
  unfold sendsOnly. cbn. repeat split; reflexivity.
Qed.

Lemma unsubscribe_sendsOnly (symbol : string) (now : Z) (s : service) :
  sendsOnly s (snd (unsubscribe symbol now s)).
Proof.
  unfold unsubscribe. eapply sendsOnly_trans; [|apply sendJSON_sendsOnly].
  unfold sendsOnly. cbn. repeat split; reflexivity.
Qed.

Lemma resubscribe_sendsOnly (now : Z) (s : service) : sendsOnly s (resubscribe now s).
Proof.
  unfold resubscribe. generalize (subscriptions s) as l. intro l. revert s.
  induction l as [|x l IH]; intro s; cbn [fold_left].
  - apply sendsOnly_refl.
  - eapply sendsOnly_trans; [apply subscribe_sendsOnly | apply IH].
Qed.

Lemma processMessageQueue_sendsOnly (fuel : nat) :
  forall s s', processMessageQueue fuel s = Some s' -> sendsOnly s s'.
Proof.
  induction fuel as [|fuel IH]; intros s s'; cbn [processMessageQueue]; [discriminate|].
  destruct (messageQueue s) as [|m rest].
  - intro H. injection H as <-. apply sendsOnly_refl.
  - destruct (isConnected s).
    + intro H. apply IH in H.
      eapply sendsOnly_trans; [|exact H].
      eapply sendsOnly_trans; [|apply send_sendsOnly].
      unfold sendsOnly. cbn. repeat split; reflexivity.
    + intro H. injection H as <-. apply sendsOnly_refl.
Qed.

Lemma heartbeatTick_sendsOnly (now : Z) (s : service) : sendsOnly s (heartbeatTick now s).
Proof.
  unfold heartbeatTick. destruct (isConnected s).
  - apply sendJSON_sendsOnly.
  - apply sendsOnly_refl.
Qed.

Lemma emit_sendsOnly (e : string) (s : service) : sendsOnly s (emit e s).
Proof. unfold sendsOnly. cbn. repeat split; reflexivity. Qed.

(** *** The pending timers *)

(** The timer handles are consistent with the pending timers: handles
    are fresh and distinct, the pending reconnect timers are exactly the
    one [reconnectTimer] refers to, and the other two handles are not
    those of a reconnect timer. *)
Record timersOk (s : service) : Prop := {
  ok_fresh : forall t, In t (pending s) -> (timerId t < nextTimer s)%positive;
  ok_nodup : NoDup (map timerId (pending s));
  ok_reconnect :
    reconnectIds (pending s)
    = match reconnectTimer s with Some id => [id] | None => [] end;
  ok_heartbeat : forall id, heartbeatTimer s = Some id ->
    (id < nextTimer s)%positive /\ ~ In id (reconnectIds (pending s));
  ok_connection : forall id, connectionTimer s = Some id ->
    (id < nextTimer s)%positive /\ ~ In id (reconnectIds (pending s))
}.

Lemma timersOk_sendsOnly (s s' : service) : sendsOnly s s' -> timersOk s -> timersOk s'.
Proof.
  unfold sendsOnly. intros H [H1 H2 H3 H4 H5].
  decompose [and] H. clear H.
  constructor; repeat match goal with
                      | E : _ s' = _ s |- _ => rewrite E; clear E
                      end; assumption.
Qed.

(** The same, for a state that agrees with [s] on the timer fields. *)
Lemma timersOk_same (s s' : service) :
  pending s' = pending s -> nextTimer s' = nextTimer s ->
  reconnectTimer s' = reconnectTimer s -> heartbeatTimer s' = heartbeatTimer s ->
  connectionTimer s' = connectionTimer s -> timersOk s -> timersOk s'.
Proof.
  intros E1 E2 E3 E4 E5 [H1 H2 H3 H4 H5].
  constructor; rewrite ?E1, ?E2, ?E3, ?E4, ?E5; assumption.
Qed.

Lemma reconnectIds_fresh (s : service) (id : positive) :
  timersOk s -> In id (reconnectIds (pending s)) -> (id < nextTimer s)%positive.
Proof.
  intros Hok Hin. apply reconnectIds_In in Hin.
  destruct Hin as (t & Ht & _ & <-). apply (ok_fresh s Hok). exact Ht.
Qed.

Lemma NoDup_snoc (l : list positive) (x : positive) :
  NoDup l -> ~ In x l -> NoDup (l ++ [x]).
Proof.
  intros Hl Hx. apply NoDup_rev in Hl.
  rewrite <- (rev_involutive (l ++ [x])). apply NoDup_rev.
  rewrite rev_app_distr. cbn. constructor; [|exact Hl].
  rewrite <- in_rev. exact Hx.
Qed.

(** Arming a timer of kind [k]: the state after [setTimer], before the
    handle is stored. *)
Lemma setTimer_facts (k : timerKind) (delay : Q) (s : service) :
  timersOk s ->
  let s1 := snd (setTimer k delay s) in
  let id := fst (setTimer k delay s) in
  id = nextTimer s /\
  (forall t, In t (pending s1) -> (timerId t < nextTimer s1)%positive) /\
  NoDup (map timerId (pending s1)) /\
  reconnectIds (pending s1)
  = reconnectIds (pending s) ++ (match k with ReconnectTimer => [id] | _ => [] end) /\
  (id < nextTimer s1)%positive /\
  (forall i, (i < nextTimer s)%positive -> (i < nextTimer s1)%positive) /\
  ~ In id (reconnectIds (pending s)).
Proof.
  intros Hok. unfold setTimer.
  cbn [fst snd pending nextTimer set_nextTimer set_pending].
  split; [reflexivity|].
  split.
  { intros t Ht. apply in_app_or in Ht. destruct Ht as [Ht|[<-|[]]].
    - pose proof (ok_fresh s Hok t Ht). lia.
    - cbn. lia. }
  split.
  { rewrite map_app. cbn. apply NoDup_snoc; [apply (ok_nodup s Hok)|].
    intro Hin. apply in_map_iff in Hin. destruct Hin as (t & Hid & Ht).
    pose proof (ok_fresh s Hok t Ht). lia. }
  split.
  { rewrite reconnectIds_app. f_equal. destruct k; reflexivity. }
  split; [lia|]. split; [intros; lia|].
  intro Hin. pose proof (reconnectIds_fresh s _ Hok Hin). lia.
Qed.

(** A state [s'] that is [s] with one more timer of kind [k], its handle
    stored in the field of that kind. *)
Definition armed (k : timerKind) (s s' : service) : Prop :=
  exists delay,
    pending s' = pending s ++ [{| timerId := nextTimer s; kindOf := k; delayOf := delay |}] /\
    nextTimer s' = Pos.succ (nextTimer s) /\
    match k with
    | ReconnectTimer =>
        reconnectTimer s = None /\ reconnectTimer s' = Some (nextTimer s) /\
        heartbeatTimer s' = heartbeatTimer s /\ connectionTimer s' = connectionTimer s
    | HeartbeatTimer =>
        reconnectTimer s' = reconnectTimer s /\ heartbeatTimer s' = Some (nextTimer s) /\
        connectionTimer s' = connectionTimer s
    | ConnectionTimer =>
        reconnectTimer s' = reconnectTimer s /\ heartbeatTimer s' = heartbeatTimer s /\
        connectionTimer s' = Some (nextTimer s)
    | ForcedReconnectTimer => False
    end.

Lemma armed_ok (k : timerKind) (s s' : service) : armed k s s' -> timersOk s -> timersOk s'.
Proof.
  intros (delay & Hp & Hn & Hk) Hok.
  pose proof (setTimer_facts k delay s Hok) as Hf.
  unfold setTimer in Hf. cbn [fst snd pending nextTimer set_nextTimer set_pending] in Hf.
  destruct Hf as (_ & Hfresh & Hnodup & Hrec & Hid & Hmono & Hnew).
  rewrite <- Hp, <- Hn in *.
  assert (Hold : forall i, ~ In i (reconnectIds (pending s)) -> i <> nextTimer s ->
                           ~ In i (reconnectIds (pending s'))).
  { intros i Hi Hne Hin. rewrite Hrec in Hin. apply in_app_or in Hin.
    destruct Hin as [Hin|Hin]; [tauto|].
    destruct k; cbn in Hin; try tauto. destruct Hin as [E|[]]. congruence. }
  assert (Hlt : forall i, (i < nextTimer s)%positive -> i <> nextTimer s) by (intros; lia).
  destruct k.
  - destruct Hk as (Er & Eh & Ec).
    constructor; try assumption.
    + rewrite Hrec, Er, (ok_reconnect s Hok), app_nil_r. reflexivity.
    + rewrite Eh. intros id Hid'. destruct (ok_heartbeat s Hok id Hid') as [H1 H2].
      split; [auto|]. apply Hold; auto.
    + rewrite Ec. intros id Hid'. injection Hid' as <-.
      split; [exact Hid|]. rewrite Hrec, app_nil_r. exact Hnew.
  - destruct Hk as (Er & Eh & Ec).
    constructor; try assumption.
    + rewrite Hrec, Er, (ok_reconnect s Hok), app_nil_r. reflexivity.
    + rewrite Eh. intros id Hid'. injection Hid' as <-.
      split; [exact Hid|]. rewrite Hrec, app_nil_r. exact Hnew.
    + rewrite Ec. intros id Hid'. destruct (ok_connection s Hok id Hid') as [H1 H2].
      split; [auto|]. apply Hold; auto.
  - destruct Hk as (Enone & Er & Eh & Ec).
    constructor; try assumption.
    + rewrite Hrec, Er, (ok_reconnect s Hok), Enone. reflexivity.
    + rewrite Eh. intros id Hid'. destruct (ok_heartbeat s Hok id Hid') as [H1 H2].
      split; [auto|]. apply Hold; auto.
    + rewrite Ec. intros id Hid'. destruct (ok_connection s Hok id Hid') as [H1 H2].
      split; [auto|]. apply Hold; auto.
  - contradiction.
Qed.

(** A state [s'] that is [s] with the timers of handle [id] cancelled and
    the field that held [id] cleared. *)
Definition disarmed (k : timerKind) (id : positive) (s s' : service) : Prop :=
  pending s' = cancel id (pending s) /\ nextTimer s' = nextTimer s /\
  match k with
  | ReconnectTimer =>
      reconnectTimer s = Some id /\ reconnectTimer s' = None /\
      heartbeatTimer s' = heartbeatTimer s /\ connectionTimer s' = connectionTimer s
  | HeartbeatTimer =>
      heartbeatTimer s = Some id /\ heartbeatTimer s' = None /\
      reconnectTimer s' = reconnectTimer s /\ connectionTimer s' = connectionTimer s
  | ConnectionTimer =>
      connectionTimer s = Some id /\ connectionTimer s' = None /\
      reconnectTimer s' = reconnectTimer s /\ heartbeatTimer s' = heartbeatTimer s
  | ForcedReconnectTimer => False
  end.

Lemma cancelled_ok (id : positive) (s s' : service) :
  pending s' = cancel id (pending s) -> nextTimer s' = nextTimer s ->
  heartbeatTimer s' = heartbeatTimer s \/ heartbeatTimer s' = None ->
  connectionTimer s' = connectionTimer s \/ connectionTimer s' = None ->
  reconnectIds (cancel id (pending s))
  = match reconnectTimer s' with Some i => [i] | None => [] end ->
  timersOk s -> timersOk s'.
Proof.
  intros Hp Hn Hh Hc Hr Hok.
  constructor; rewrite ?Hp, ?Hn.
  - intros t Ht. apply cancel_In in Ht. apply (ok_fresh s Hok). tauto.
  - apply cancel_NoDup, (ok_nodup s Hok).
  - exact Hr.
  - intros i Hi. destruct Hh as [Hh|Hh]; rewrite Hh in Hi; [|discriminate].
    destruct (ok_heartbeat s Hok i Hi) as [H1 H2].
    split; [exact H1|]. intro Hin. apply H2. eapply reconnectIds_cancel_incl. exact Hin.
  - intros i Hi. destruct Hc as [Hc|Hc]; rewrite Hc in Hi; [|discriminate].
    destruct (ok_connection s Hok i Hi) as [H1 H2].
    split; [exact H1|]. intro Hin. apply H2. eapply reconnectIds_cancel_incl. exact Hin.
Qed.

Lemma disarmed_ok (k : timerKind) (id : positive) (s s' : service) :
  disarmed k id s s' -> timersOk s -> timersOk s'.
Proof.
  intros (Hp & Hn & Hk) Hok.
  destruct k.
  - destruct Hk as (Hc & Hc' & Hr & Hh).
    apply (cancelled_ok id s s'); auto.
    rewrite Hr, <- (ok_reconnect s Hok).
    apply reconnectIds_cancel_other. apply (ok_connection s Hok id Hc).
  - destruct Hk as (Hh & Hh' & Hr & Hc).
    apply (cancelled_ok id s s'); auto.
    rewrite Hr, <- (ok_reconnect s Hok).
    apply reconnectIds_cancel_other. apply (ok_heartbeat s Hok id Hh).
  - destruct Hk as (Hr & Hr' & Hh & Hc).
    apply (cancelled_ok id s s'); auto.
    rewrite Hr'. apply reconnectIds_cancel_self.
    intros i Hi. rewrite (ok_reconnect s Hok), Hr in Hi.
    destruct Hi as [<-|[]]. reflexivity.
  - contradiction.
Qed.

(** A pending timeout [t] has fired: it is no longer pending, and a
    reconnect timeout has cleared [reconnectTimer]. *)
Lemma fired_ok (t : timer) (s s' : service) :
  In t (pending s) ->
  pending s' = cancel (timerId t) (pending s) -> nextTimer s' = nextTimer s ->
  heartbeatTimer s' = heartbeatTimer s -> connectionTimer s' = connectionTimer s ->
  (if isReconnect t then reconnectTimer s' = None
   else reconnectTimer s' = reconnectTimer s) ->
  timersOk s -> timersOk s'.
Proof.
  intros Ht Hp Hn Hh Hc Hr Hok.
  apply (cancelled_ok (timerId t) s s'); auto.
  destruct (isReconnect t) eqn:Ek.
  - rewrite Hr. apply reconnectIds_cancel_self.
    intros i Hi.
    assert (Hin : In (timerId t) (reconnectIds (pending s)))
      by (apply reconnectIds_In; exists t; tauto).
    rewrite (ok_reconnect s Hok) in Hi, Hin.
    destruct (reconnectTimer s); cbn in Hi, Hin; [|contradiction].
    destruct Hi as [<-|[]], Hin as [<-|[]]. reflexivity.
  - rewrite Hr, <- (ok_reconnect s Hok).
    apply reconnectIds_cancel_other.
    apply other_kind_not_reconnect; [apply (ok_nodup s Hok) | exact Ht | exact Ek].
Qed.

(** Preservation of [timersOk] by a state that agrees on the timer
    fields after evaluation. *)
Ltac same_timers s0 :=
  apply (timersOk_same s0); [reflexivity | reflexivity | reflexivity
                            | reflexivity | reflexivity | ].

Lemma startHeartbeat_ok (s : service) : timersOk s -> timersOk (startHeartbeat s).
Proof.
  intro Hok. unfold startHeartbeat.
  destruct (Qle_bool (heartbeatInterval (options s)) 0); [exact Hok|].
  apply (armed_ok HeartbeatTimer s); [|exact Hok].
  eexists. cbn. repeat split; reflexivity.
Qed.

Lemma stopHeartbeat_ok (s : service) : timersOk s -> timersOk (stopHeartbeat s).
Proof.
  intro Hok. unfold stopHeartbeat.
  destruct (heartbeatTimer s) as [id|] eqn:E; [|exact Hok].
  apply (disarmed_ok HeartbeatTimer id s); [|exact Hok].
  cbn. repeat split; try reflexivity. exact E.
Qed.

Lemma scheduleReconnect_ok (r : Q) (s : service) :
  timersOk s -> timersOk (scheduleReconnect r s).
Proof.
  intro Hok. unfold scheduleReconnect.
  destruct (reconnectTimer s) as [id|] eqn:E; [exact Hok|].
  apply (armed_ok ReconnectTimer s); [|exact Hok].
  eexists. cbn. repeat split; try reflexivity. exact E.
Qed.

Lemma cancelReconnect_ok (s : service) : timersOk s -> timersOk (cancelReconnect s).
Proof.
  intro Hok. unfold cancelReconnect.
  destruct (reconnectTimer s) as [id|] eqn:E; [|exact Hok].
  apply (disarmed_ok ReconnectTimer id s); [|exact Hok].
  cbn. repeat split; try reflexivity. exact E.
Qed.

Lemma handleConnectionError_ok (r : Q) (s : service) :
  timersOk s -> timersOk (handleConnectionError r s).
Proof.
  intro Hok. unfold handleConnectionError.
  assert (H1 : timersOk (emit "error" (countError s))) by (same_timers s; exact Hok).
  destruct (isConnecting (emit "error" (countError s))); [|exact H1].
  apply scheduleReconnect_ok. same_timers (emit "error" (countError s)). exact H1.
Qed.

Lemma connect_ok (id : string) (socketOk : bool) (r : Q) (s : service) :
  timersOk s -> timersOk (connect id socketOk r s).
Proof.
  intro Hok. unfold connect.
  destruct (isConnecting s || isConnected s); [exact Hok|].
  destruct socketOk.
  - apply (armed_ok ConnectionTimer s); [|exact Hok].
    eexists. cbn. repeat split; reflexivity.
  - apply handleConnectionError_ok. same_timers s. exact Hok.
Qed.

Lemma clearConnectionTimer_ok (s : service) :
  timersOk s ->
  timersOk match connectionTimer s with
           | Some t => set_connectionTimer None (clearTimer t s)
           | None => s
           end.
Proof.
  intro Hok. destruct (connectionTimer s) as [id|] eqn:E; [|exact Hok].
  apply (disarmed_ok ConnectionTimer id s); [|exact Hok].
  cbn. repeat split; try reflexivity. exact E.
Qed.

Lemma cleanup_ok (now : Z) (s : service) : timersOk s -> timersOk (cleanup now s).
Proof.
  intro Hok. unfold cleanup.
  set (s1 := set_isConnecting false (set_isConnected false s)).
  assert (H1 : timersOk s1) by (same_timers s; exact Hok).
  pose proof (clearConnectionTimer_ok s1 H1) as H2.
  apply stopHeartbeat_ok in H2.
  match goal with
  | |- timersOk (match truthyNum (lastConnectTime ?s3) with _ => _ end) =>
      destruct (truthyNum (lastConnectTime s3)); [same_timers s3|]; exact H2
  end.
Qed.

Lemma handleConnectionOpen_ok (now : Z) (s s' : service) :
  handleConnectionOpen now s = Some s' -> timersOk s -> timersOk s'.
Proof.
  unfold handleConnectionOpen. intros H Hok.
  pose proof (clearConnectionTimer_ok s Hok) as H1.
  match type of H with
  | context [startHeartbeat ?s2] =>
      assert (H2 : timersOk s2) by
        (match type of H1 with timersOk ?s1 => same_timers s1 end; exact H1);
      pose proof (startHeartbeat_ok s2 H2) as H3;
      set (s3 := startHeartbeat s2) in *
  end.
  destruct (processMessageQueue _ s3) as [s4|] eqn:E; [|discriminate].
  injection H as <-.
  apply processMessageQueue_sendsOnly in E.
  eapply timersOk_sendsOnly; [|exact H3].
  eapply sendsOnly_trans; [exact E|].
  eapply sendsOnly_trans; [apply resubscribe_sendsOnly | apply emit_sendsOnly].
Qed.

Lemma handleConnectionClose_ok (wasClean : bool) (now : Z) (r : Q) (s : service) :
  timersOk s -> timersOk (handleConnectionClose wasClean now r s).
Proof.
  intro Hok. unfold handleConnectionClose.
  pose proof (cleanup_ok now s Hok) as H1.
  assert (H2 : timersOk (emit "disconnected" (cleanup now s)))
    by (same_timers (cleanup now s); exact H1).
  destruct (negb wasClean && _); [apply scheduleReconnect_ok|]; exact H2.
Qed.

Lemma updateLatencyStats_ok (latency : Z) (s : service) :
  timersOk s -> timersOk (updateLatencyStats latency s).
Proof. intro Hok. same_timers s. exact Hok. Qed.

Lemma handleMessage_ok (m : inbound) (now : Z) (s : service) :
  timersOk s -> timersOk (handleMessage m now s).
Proof.
  intro Hok.
  assert (Hall : forall s', pending s' = pending s -> nextTimer s' = nextTimer s ->
            reconnectTimer s' = reconnectTimer s -> heartbeatTimer s' = heartbeatTimer s ->
            connectionTimer s' = connectionTimer s -> timersOk s')
    by (intros; apply (timersOk_same s); assumption).
  apply Hall; unfold handleMessage, handlePongMessage;
    repeat match goal with
           | |- context [match ?x with _ => _ end] => destruct x
           end; reflexivity.
Qed.

Lemma disconnect_ok (now : Z) (s : service) : timersOk s -> timersOk (disconnect now s).
Proof.
  intro Hok. unfold disconnect.
  pose proof (cancelReconnect_ok s Hok) as H1.
  set (s1 := cancelReconnect s) in *.
  assert (H2 : timersOk match ws s1 with
                        | Some socket => set_ws None (perform (Close socket) s1)
                        | None => s1
                        end).
  { destruct (ws s1); [same_timers s1|]; exact H1. }
  apply (cleanup_ok now) in H2.
  match type of H2 with timersOk ?s3 => same_timers s3 end. exact H2.
Qed.

Lemma fire_ok (t : timer) (id : string) (socketOk : bool) (r : Q) (now : Z)
  (s : service) :
  In t (pending s) -> timersOk s -> timersOk (fire t id socketOk r now s).
Proof.
  intros Ht Hok. unfold fire.
  destruct (kindOf t) eqn:Ek.
  - assert (H1 : timersOk (clearTimer (timerId t) s)).
    { apply (fired_ok t s); try reflexivity; try assumption.
      unfold isReconnect. rewrite Ek. reflexivity. }
    unfold connectionTimeoutFires.
    destruct (isConnecting (clearTimer (timerId t) s)); [|exact H1].
    apply handleConnectionError_ok.
    destruct (ws (clearTimer (timerId t) s));
      [same_timers (clearTimer (timerId t) s)|]; exact H1.
  - eapply timersOk_sendsOnly; [apply heartbeatTick_sendsOnly | exact Hok].
  - unfold reconnectFires. apply connect_ok.
    apply (fired_ok t s); try reflexivity; try assumption.
    unfold isReconnect. rewrite Ek. reflexivity.
  - apply (fired_ok t s); try reflexivity; try assumption.
    unfold isReconnect. rewrite Ek. reflexivity.
Qed.

Lemma step_ok (s : service) (e : event) (s' : service) :
  step s e s' -> timersOk s -> timersOk s'.
Proof.
  intros Hstep Hok. destruct Hstep.
  - apply connect_ok, Hok.
  - apply disconnect_ok, Hok.
  - eapply timersOk_sendsOnly; [apply send_sendsOnly | exact Hok].
  - eapply timersOk_sendsOnly; [apply subscribe_sendsOnly | exact Hok].
  - eapply timersOk_sendsOnly; [apply unsubscribe_sendsOnly | exact Hok].
  - same_timers s. exact Hok.
  - eapply handleConnectionOpen_ok; eassumption.
  - apply handleConnectionClose_ok, Hok.
  - apply handleConnectionError_ok, Hok.
  - apply handleMessage_ok, Hok.
  - apply fire_ok; assumption.
Qed.

(** Every reachable state has consistent timers. *)
Lemma reachable_timersOk (o : serviceOptions) (s : service) :
  reachable o s -> timersOk s.
Proof.
  induction 1 as [|s e s' _ IH Hstep].
  - constructor; cbn; try constructor; try discriminate; contradiction.
  - eapply step_ok; eassumption.
Qed.

(** *** Fields that a transition leaves alone *)

(** Unfolding of the methods that are not loops. *)
Ltac unfold_methods :=
  unfold fire, reconnectFires, connectionTimeoutFires, connect, disconnect,
    handleConnectionClose, handleConnectionError, handleMessage, handlePongMessage,
    cleanup, stopHeartbeat, startHeartbeat, scheduleReconnect, cancelReconnect,
    resetStats, emit, countError, countReconnect, countMessage, addUptime, setTimer,
    clearTimer, perform.

Ltac split_cases :=
  repeat match goal with
         | |- context [match ?x with _ => _ end] => destruct x eqn:?
         | |- context [if ?x then _ else _] => destruct x eqn:?
         end.

(** The latency window after a sample: the sample is appended and, past
    100 entries, the oldest is dropped. *)
Definition windowAfter (latency : Z) (window : list Z) : list Z :=
  let pushed := window ++ [latency] in
  if (100 <? List.length pushed)%nat then tl pushed else pushed.

Lemma updateLatencyStats_window (latency : Z) (s : service) :
  latencyMeasurements (updateLatencyStats latency s)
  = windowAfter latency (latencyMeasurements s) /\
  averageLatency (stats (updateLatencyStats latency s))
  = averageOf (windowAfter latency (latencyMeasurements s)).
Proof. split; reflexivity. Qed.

Lemma windowAfter_length (latency : Z) (window : list Z) :
  (List.length window <= 100)%nat ->
  (List.length (windowAfter latency window) <= 100)%nat /\
  (1 <= List.length (windowAfter latency window))%nat.
Proof.
  intro H. unfold windowAfter.
  destruct (100 <? List.length (window ++ [latency]))%nat eqn:E.
  - apply Nat.ltb_lt in E. rewrite length_app in E. cbn [List.length] in E.
    destruct window as [|x window]; cbn [List.length app tl] in *; [lia|].
    rewrite length_app. cbn [List.length]. lia.
  - apply Nat.ltb_ge in E. rewrite length_app in *. cbn [List.length] in *. lia.
Qed.

(** [s'] has the socket, the connection id and the latency window of
    [s], and is connected only if [s] is. *)
Definition quiet (s s' : service) : Prop :=
  ws s' = ws s /\ connectionId s' = connectionId s /\
  latencyMeasurements s' = latencyMeasurements s /\
  (isConnected s' = true -> isConnected s = true).

Lemma quiet_refl (s : service) : quiet s s.
Proof. unfold quiet. tauto. Qed.

Lemma quiet_trans (s1 s2 s3 : service) : quiet s1 s2 -> quiet s2 s3 -> quiet s1 s3.
Proof.
  intros (A1 & A2 & A3 & A4) (B1 & B2 & B3 & B4).
  unfold quiet. rewrite B1, B2, B3, A1, A2, A3. tauto.
Qed.

Lemma sendsOnly_quiet (s s' : service) : sendsOnly s s' -> quiet s s'.
Proof.
  intros (_ & E1 & E2 & _ & _ & _ & E3 & _ & _ & _ & E4 & _).
  unfold quiet. rewrite E1, E2, E3, E4. tauto.
Qed.

(** A state that agrees with [s] on the four fields after evaluation. *)
Ltac quiet_by_computation :=
  unfold quiet; cbn; repeat split; solve [reflexivity | tauto | discriminate].

Lemma scheduleReconnect_quiet (r : Q) (s : service) : quiet s (scheduleReconnect r s).
Proof.
  unfold scheduleReconnect. destruct (reconnectTimer s); [apply quiet_refl|].
  quiet_by_computation.
Qed.

Lemma handleConnectionError_quiet (r : Q) (s : service) :
  quiet s (handleConnectionError r s).
Proof.
  unfold handleConnectionError.
  assert (H1 : quiet s (emit "error" (countError s))) by quiet_by_computation.
  destruct (isConnecting (emit "error" (countError s))); [|exact H1].
  eapply quiet_trans; [exact H1|].
  eapply quiet_trans; [|apply scheduleReconnect_quiet].
  quiet_by_computation.
Qed.

Lemma stopHeartbeat_quiet (s : service) : quiet s (stopHeartbeat s).
Proof.
  unfold stopHeartbeat. destruct (heartbeatTimer s); [|apply quiet_refl].
  quiet_by_computation.
Qed.

Lemma startHeartbeat_quiet (s : service) : quiet s (startHeartbeat s).
Proof.
  unfold startHeartbeat.
  destruct (Qle_bool (heartbeatInterval (options s)) 0); [apply quiet_refl|].
  quiet_by_computation.
Qed.

Lemma clearConnectionTimer_quiet (s : service) :
  quiet s match connectionTimer s with
          | Some t => set_connectionTimer None (clearTimer t s)
          | None => s
          end.
Proof.
  destruct (connectionTimer s); [|apply quiet_refl]. quiet_by_computation.
Qed.

Lemma cleanup_quiet (now : Z) (s : service) :
  quiet s (cleanup now s) /\ isConnected (cleanup now s) = false.
Proof.
  unfold cleanup.
  set (s1 := set_isConnecting false (set_isConnected false s)).
  assert (H1 : quiet s s1 /\ isConnected s1 = false)
    by (split; [quiet_by_computation | reflexivity]).
  destruct H1 as [H1 Hc1].
  pose proof (clearConnectionTimer_quiet s1) as H2.
  assert (Hc2 : isConnected match connectionTimer s1 with
                            | Some t => set_connectionTimer None (clearTimer t s1)
                            | None => s1
                            end = false)
    by (destruct (connectionTimer s1); reflexivity).
  set (s2 := match connectionTimer s1 with
             | Some t => set_connectionTimer None (clearTimer t s1)
             | None => s1
             end) in *.
  pose proof (stopHeartbeat_quiet s2) as H3.
  assert (Hc3 : isConnected (stopHeartbeat s2) = false)
    by (unfold stopHeartbeat; destruct (heartbeatTimer s2); exact Hc2).
  set (s3 := stopHeartbeat s2) in *.
  assert (H13 : quiet s s3)
    by (eapply quiet_trans; [exact H1|]; eapply quiet_trans; eassumption).
  destruct (truthyNum (lastConnectTime s3)); [|split; assumption].
  split; [|exact Hc3].
  eapply quiet_trans; [exact H13|].
  unfold quiet. cbn. repeat split. tauto.
Qed.

Lemma handleConnectionClose_quiet (wasClean : bool) (now : Z) (r : Q) (s : service) :
  quiet s (handleConnectionClose wasClean now r s).
Proof.
  unfold handleConnectionClose.
  destruct (cleanup_quiet now s) as [H1 _].
  assert (H2 : quiet s (emit "disconnected" (cleanup now s))).
  { eapply quiet_trans; [exact H1|]. apply sendsOnly_quiet, emit_sendsOnly. }
  destruct (negb wasClean && _); [|exact H2].
  eapply quiet_trans; [exact H2 | apply scheduleReconnect_quiet].
Qed.

Lemma connectionTimeoutFires_quiet (r : Q) (s : service) :
  quiet s (connectionTimeoutFires r s).
Proof.
  unfold connectionTimeoutFires. destruct (isConnecting s); [|apply quiet_refl].
  eapply quiet_trans; [|apply handleConnectionError_quiet].
  destruct (ws s); [quiet_by_computation | apply quiet_refl].
Qed.

(** [connect()] keeps the latency window and never marks the service
    connected; it leaves the socket alone or creates one, and then a
    connection id is set. *)
Lemma connect_fields (id : string) (socketOk : bool) (r : Q) (s : service) :
  let s' := connect id socketOk r s in
  latencyMeasurements s' = latencyMeasurements s /\
  (isConnected s' = true -> isConnected s = true) /\
  (ws s' = ws s \/ ws s' <> None) /\
  ((ws s' = ws s /\ connectionId s' = connectionId s) \/ connectionId s' <> None).
Proof.
  cbv zeta. unfold connect.
  destruct (isConnecting s || isConnected s).
  { split; [reflexivity|]. split; [tauto|]. split; [left; reflexivity|].
    left. split; reflexivity. }
  destruct socketOk.
  - cbn. split; [reflexivity|]. split; [tauto|].
    split; [right; discriminate|]. right. discriminate.
  - destruct (handleConnectionError_quiet r
                (set_connectionId (Some id) (set_isConnecting true s)))
      as (H1 & H2 & H3 & H4).
    rewrite H1, H2, H3. cbn in *.
    split; [reflexivity|]. split; [exact H4|]. split; [left; reflexivity|].
    right. discriminate.
Qed.

Lemma disconnect_fields (now : Z) (s : service) :
  ws (disconnect now s) = None /\ isConnected (disconnect now s) = false /\
  latencyMeasurements (disconnect now s) = latencyMeasurements s.
Proof.
  unfold disconnect.
  set (s1 := cancelReconnect s).
  assert (H1 : latencyMeasurements s1 = latencyMeasurements s)
    by (unfold s1, cancelReconnect; destruct (reconnectTimer s); reflexivity).
  set (s2 := match ws s1 with
             | Some socket => set_ws None (perform (Close socket) s1)
             | None => s1
             end).
  assert (H2 : ws s2 = None /\ latencyMeasurements s2 = latencyMeasurements s1)
    by (unfold s2; destruct (ws s1) eqn:E; split; auto).
  destruct H2 as [H2 H2'].
  destruct (cleanup_quiet now s2) as [(H3 & _ & H4 & _) H5].
  cbn [ws isConnected latencyMeasurements set_messageQueue set_subscriptions].
  rewrite H3, H4, H5, H2, H2', H1. repeat split.
Qed.

(** The open transition marks the service connected and leaves the
    socket, the connection id and the latency window alone. *)
Lemma handleConnectionOpen_fields (now : Z) (s s' : service) :
  handleConnectionOpen now s = Some s' ->
  ws s' = ws s /\ connectionId s' = connectionId s /\
  latencyMeasurements s' = latencyMeasurements s.
Proof.
  unfold handleConnectionOpen.
  match goal with
  | |- context [startHeartbeat ?s2] => set (s3 := startHeartbeat s2)
  end.
  destruct (processMessageQueue _ s3) as [s4|] eqn:E; [|discriminate].
  intro H. injection H as <-.
  apply processMessageQueue_sendsOnly in E.
  pose proof (sendsOnly_quiet _ _
                (sendsOnly_trans _ _ _ E
                   (sendsOnly_trans _ _ _ (resubscribe_sendsOnly now s4)
                      (emit_sendsOnly "connected" _)))) as (H1 & H2 & H3 & _).
  rewrite H1, H2, H3.
  unfold s3.
  match goal with
  | |- context [startHeartbeat ?s2] =>
      destruct (startHeartbeat_quiet s2) as (A1 & A2 & A3 & _)
  end.
  rewrite A1, A2, A3.
  cbn [ws connectionId latencyMeasurements set_lastConnectTime set_reconnectAttempts
       set_isConnecting set_isConnected].
  destruct (clearConnectionTimer_quiet s) as (B1 & B2 & B3 & _).
  rewrite B1, B2, B3. repeat split.
Qed.

(** [handleMessage] leaves the socket, the connection id and the
    connection flag alone, and adds at most one sample to the window. *)
Lemma handleMessage_fields (m : inbound) (now : Z) (s : service) :
  let s' := handleMessage m now s in
  ws s' = ws s /\ connectionId s' = connectionId s /\ isConnected s' = isConnected s /\
  (latencyMeasurements s' = latencyMeasurements s \/
   exists latency, latencyMeasurements s' = windowAfter latency (latencyMeasurements s)).
Proof.
  cbv zeta. unfold handleMessage, handlePongMessage.
  destruct m as [[ty|] rt ts len|len|len]; cbn [inboundLength].
  - destruct (String.eqb ty "pong") eqn:Epong.
    + apply String.eqb_eq in Epong. subst ty.
      destruct (truthyNum rt);
        repeat split; first [left; reflexivity | right; eexists; reflexivity].
    + assert (Hother :
        forall (P : service -> Prop) (pongCase otherCase : service),
          P otherCase ->
          P (match ty with
             | "pong"%string => pongCase
             | _ => otherCase
             end)).
      { intros P pc oc Hoc.
        repeat match goal with
               | |- context [match ?x with _ => _ end] =>
                   match type of x with
                   | string => destruct x
                   | ascii => destruct x
                   | bool => destruct x
                   end
               end; try exact Hoc.
        rewrite String.eqb_refl in Epong. discriminate. }
      apply (Hother (fun s' =>
               ws s' = ws s /\ connectionId s' = connectionId s /\
               isConnected s' = isConnected s /\
               (latencyMeasurements s' = latencyMeasurements s \/
                exists latency,
                  latencyMeasurements s' = windowAfter latency (latencyMeasurements s)))).
      destruct (truthyNum ts); destruct ty;
        repeat split; first [left; reflexivity | right; eexists; reflexivity].
  - destruct (truthyNum ts);
      repeat split; first [left; reflexivity | right; eexists; reflexivity].
  - repeat split. left. reflexivity.
  - repeat split. left. reflexivity.
Qed.

(** What a transition does to the latency window: nothing, a reset, or
    one sample. *)
Lemma step_window (s : service) (e : event) (s' : service) :
  step s e s' ->
  latencyMeasurements s' = latencyMeasurements s \/
  latencyMeasurements s' = [] \/
  exists latency, latencyMeasurements s' = windowAfter latency (latencyMeasurements s).
Proof.
  intro Hstep. destruct Hstep.
  - left. apply connect_fields.
  - left. apply disconnect_fields.
  - left. apply send_sendsOnly.
  - left. apply subscribe_sendsOnly.
  - left. apply unsubscribe_sendsOnly.
  - right. left. reflexivity.
  - left. eapply handleConnectionOpen_fields. eassumption.
  - left. apply handleConnectionClose_quiet.
  - left. apply handleConnectionError_quiet.
  - destruct (handleMessage_fields m now s) as (_ & _ & _ & [H|H]); tauto.
  - left. unfold fire. destruct (kindOf t).
    + eapply eq_trans; [apply connectionTimeoutFires_quiet|]. reflexivity.
    + apply heartbeatTick_sendsOnly.
    + unfold reconnectFires.
      eapply eq_trans; [apply connect_fields|]. reflexivity.
    + reflexivity.
Qed.

(** In every reachable state the latency window holds at most 100
    samples. *)
Lemma reachable_window (o : serviceOptions) (s : service) :
  reachable o s -> (List.length (latencyMeasurements s) <= 100)%nat.
Proof.
  induction 1 as [|s e s' _ IH Hstep].
  - cbn. lia.
  - destruct (step_window _ _ _ Hstep) as [E|[E|[latency E]]]; rewrite E.
    + exact IH.
    + cbn. lia.
    + apply windowAfter_length, IH.
Qed.

(** *** The connection id *)

(** A connected service has a socket, and a service with a socket has a
    connection id. *)
Definition connectionOk (s : service) : Prop :=
  (isConnected s = true -> ws s <> None) /\ (ws s <> None -> connectionId s <> None).

Lemma connectionOk_quiet (s s' : service) : quiet s s' -> connectionOk s -> connectionOk s'.
Proof.
  intros (E1 & E2 & _ & E3) [H1 H2].
  unfold connectionOk. rewrite E1, E2. tauto.
Qed.

Lemma connect_connectionOk (id : string) (socketOk : bool) (r : Q) (s : service) :
  connectionOk s -> connectionOk (connect id socketOk r s).
Proof.
  intros [H1 H2].
  destruct (connect_fields id socketOk r s) as (_ & Hc & Hw & Hi).
  split.
  - intro Hcon. destruct Hw as [Hw|Hw]; [rewrite Hw; auto | exact Hw].
  - intro Hsock. destruct Hi as [[Ew Ei]|Hi]; [|exact Hi].
    rewrite Ei. apply H2. rewrite <- Ew. exact Hsock.
Qed.

Lemma step_connectionOk (s : service) (e : event) (s' : service) :
  step s e s' -> connectionOk s -> connectionOk s'.
Proof.
  intros Hstep Hok. destruct Hstep.
  - apply connect_connectionOk, Hok.
  - destruct (disconnect_fields now s) as (Hw & Hc & _).
    split; [rewrite Hc; discriminate | rewrite Hw; intro H; contradiction].
  - eapply connectionOk_quiet; [apply sendsOnly_quiet, send_sendsOnly | exact Hok].
  - eapply connectionOk_quiet; [apply sendsOnly_quiet, subscribe_sendsOnly | exact Hok].
  - eapply connectionOk_quiet; [apply sendsOnly_quiet, unsubscribe_sendsOnly | exact Hok].
  - destruct Hok as [H1 H2]. split; cbn; assumption.
  - match goal with
    | H : handleConnectionOpen _ _ = Some _ |- _ =>
        destruct (handleConnectionOpen_fields _ _ _ H) as (Hw & Hi & _)
    end.
    destruct Hok as [H1 H2]. split; rewrite Hw, ?Hi; auto.
  - eapply connectionOk_quiet; [apply handleConnectionClose_quiet | exact Hok].
  - eapply connectionOk_quiet; [apply handleConnectionError_quiet | exact Hok].
  - destruct (handleMessage_fields m now s) as (Hw & Hi & Hc & _).
    destruct Hok as [H1 H2]. split; rewrite Hw, ?Hi, ?Hc; auto.
  - unfold fire. destruct (kindOf t).
    + eapply connectionOk_quiet; [apply connectionTimeoutFires_quiet|].
      eapply connectionOk_quiet; [|exact Hok]. quiet_by_computation.
    + eapply connectionOk_quiet;
        [apply sendsOnly_quiet, heartbeatTick_sendsOnly | exact Hok].
    + unfold reconnectFires. apply connect_connectionOk.
      eapply connectionOk_quiet; [|exact Hok]. quiet_by_computation.
    + eapply connectionOk_quiet; [|exact Hok]. quiet_by_computation.
Qed.

Lemma reachable_connectionOk (o : serviceOptions) (s : service) :
  reachable o s -> connectionOk s.
Proof.
  induction 1 as [|s e s' _ IH Hstep].
  - split; cbn; [discriminate | congruence].
  - eapply step_connectionOk; eassumption.
Qed.

(** *** Sending and flushing *)

(** The frame [send] hands to the socket for [data]. *)
Definition frameOf (data : payload) : payload :=
  match data with
  | Object j => Text (stringify j)
  | _ => data
  end.

Lemma send_connected (data : payload) (s : service) (socket : positive) :
  isConnected s = true -> ws s = Some socket ->
  fst (send data s) = true /\
  effects (snd (send data s)) = effects s ++ [Transmit socket (frameOf data)] /\
  messageQueue (snd (send data s)) = messageQueue s /\
  isConnected (snd (send data s)) = true /\ ws (snd (send data s)) = Some socket.
Proof.
  intros Hc Hw. unfold send. rewrite Hc, Hw. cbn. rewrite Hc, Hw. repeat split.
Qed.


Lemma transmitted_app (l l' : list effect) :
  transmitted (l ++ l') = transmitted l ++ transmitted l'.
Proof.
  induction l as [|e l IH]; [reflexivity|].
  destruct e; cbn; rewrite IH; reflexivity.
Qed.

Lemma transmitted_map {A : Type} (socket : positive) (f : A -> payload) (l : list A) :
  transmitted (map (fun x => Transmit socket (f x)) l) = map f l.
Proof.
  induction l as [|x l IH]; [reflexivity|].
  cbn [map transmitted]. rewrite IH. reflexivity.
Qed.

(** The flush: with a socket and [isConnected] set, the queue is sent
    front to back and left empty. *)
Lemma processMessageQueue_flushes (socket : positive) :
  forall queue s,
  isConnected s = true -> ws s = Some socket -> messageQueue s = queue ->
  exists s',
    processMessageQueue (S (List.length queue)) s = Some s' /\
    effects s' = effects s ++ map (fun m => Transmit socket (frameOf m)) queue /\
    messageQueue s' = [] /\ isConnected s' = true /\ ws s' = Some socket.
Proof.
  induction queue as [|m rest IH]; intros s Hc Hw Hq.
  - cbn [List.length processMessageQueue]. rewrite Hq.
    exists s. rewrite app_nil_r. repeat split; assumption.
  - cbn [List.length]. remember (S (List.length rest)) as n.
    cbn [processMessageQueue]. rewrite Hq, Hc. subst n.
    set (s1 := set_messageQueue rest s).
    destruct (send_connected m s1 socket) as (_ & He & Hq1 & Hc1 & Hw1);
      [exact Hc | exact Hw |].
    destruct (IH (snd (send m s1)) Hc1 Hw1 Hq1) as (s' & Hrun & He' & Hq' & Hc' & Hw').
    exists s'. split; [exact Hrun|].
    split; [|repeat split; assumption].
    rewrite He', He. cbn [map]. rewrite <- app_assoc. reflexivity.
Qed.

Lemma processMessageQueue_subscriptions (fuel : nat) :
  forall s s', processMessageQueue fuel s = Some s' -> subscriptions s' = subscriptions s.
Proof.
  induction fuel as [|fuel IH]; intros s s'; cbn [processMessageQueue]; [discriminate|].
  destruct (messageQueue s); [intro H; injection H as <-; reflexivity|].
  destruct (isConnected s); [|intro H; injection H as <-; reflexivity].
  intro H. rewrite (IH _ _ H). unfold send. split_cases; reflexivity.
Qed.

Lemma subscribe_connected (symbol : string) (now : Z) (s : service) (socket : positive) :
  isConnected s = true -> ws s = Some socket ->
  effects (snd (subscribe symbol now s))
  = effects s ++ [Transmit socket (Text (stringify (subscribeMessage symbol now)))] /\
  isConnected (snd (subscribe symbol now s)) = true /\
  ws (snd (subscribe symbol now s)) = Some socket /\
  messageQueue (snd (subscribe symbol now s)) = messageQueue s.
Proof.
  intros Hc Hw. unfold subscribe, sendJSON.
  match goal with
  | |- context [send ?d ?s1] =>
      destruct (send_connected d s1 socket) as (_ & He & Hq & Hc1 & Hw1);
      [exact Hc | exact Hw |]
  end.
  repeat split; assumption.
Qed.

Lemma resubscribe_connected (now : Z) (socket : positive) :
  forall symbols s,
  isConnected s = true -> ws s = Some socket ->
  let s' := fold_left (fun acc symbol => snd (subscribe symbol now acc)) symbols s in
  effects s'
  = effects s ++ map (fun symbol =>
                        Transmit socket (Text (stringify (subscribeMessage symbol now))))
                     symbols /\
  messageQueue s' = messageQueue s /\ isConnected s' = true.
Proof.
  induction symbols as [|x symbols IH]; intros s Hc Hw; cbn [fold_left map].
  - rewrite app_nil_r. repeat split; assumption.
  - destruct (subscribe_connected x now s socket Hc Hw) as (He & Hc1 & Hw1 & Hq1).
    destruct (IH _ Hc1 Hw1) as (He' & Hq' & Hc').
    split; [|split; [congruence | exact Hc']].
    rewrite He', He, <- app_assoc. reflexivity.
Qed.

(** The open transition: the queued messages are transmitted in the
    order they were queued, each once, followed by one [subscribe] per
    subscription, and the queue is left empty. *)
Lemma handleConnectionOpen_flushes (now : Z) (s : service) (socket : positive) :
  ws s = Some socket ->
  exists s',
    handleConnectionOpen now s = Some s' /\
    transmitted (effects s')
    = transmitted (effects s)
      ++ map frameOf (messageQueue s)
      ++ map (fun symbol => Text (stringify (subscribeMessage symbol now)))
             (subscriptions s) /\
    messageQueue s' = [] /\ isConnected s' = true.
Proof.
  intro Hw. unfold handleConnectionOpen.
  match goal with
  | |- context [startHeartbeat ?s2] => set (s3 := startHeartbeat s2)
  end.
  assert (H3 : isConnected s3 = true /\ ws s3 = Some socket /\
               messageQueue s3 = messageQueue s /\ effects s3 = effects s /\
               subscriptions s3 = subscriptions s).
  { subst s3. unfold_methods. split_cases; cbn; repeat split; assumption. }
  destruct H3 as (Hc3 & Hw3 & Hq3 & He3 & Hs3).
  destruct (processMessageQueue_flushes socket (messageQueue s3) s3 Hc3 Hw3 eq_refl)
    as (s4 & Hrun & He4 & Hq4 & Hc4 & Hw4).
  rewrite Hrun.
  pose proof (processMessageQueue_subscriptions _ _ _ Hrun) as Hs4.
  eexists. split; [reflexivity|].
  unfold resubscribe.
  destruct (resubscribe_connected now socket (subscriptions s4) s4 Hc4 Hw4)
    as (He5 & Hq5 & Hc5).
  cbn [emit perform effects messageQueue isConnected set_effects].
  rewrite He5, He4, He3, Hq5, Hq4, Hc5, Hs4, Hs3, Hq3.
  split; [|split; reflexivity].
  rewrite !transmitted_app, app_nil_r, <- app_assoc.
  rewrite (transmitted_map socket frameOf).
  rewrite (transmitted_map socket
             (fun symbol => Text (stringify (subscribeMessage symbol now)))).
  reflexivity.
Qed.

(** *** Reconnection *)



Lemma cleanup_fields (now : Z) (s : service) :
  reconnectTimer (cleanup now s) = reconnectTimer s /\
  reconnectAttempts (cleanup now s) = reconnectAttempts s /\
  options (cleanup now s) = options s /\
  isConnected (cleanup now s) = false /\ isConnecting (cleanup now s) = false /\
  effects (cleanup now s) = effects s.
Proof. unfold_methods. split_cases; repeat split. Qed.

(** After [disconnect()] no reconnect timer is pending. *)
Lemma disconnect_cancels (now : Z) (s : service) :
  timersOk s ->
  let s' := disconnect now s in
  reconnectTimer s' = None /\ reconnectIds (pending s') = [] /\
  isConnected s' = false /\ isConnecting s' = false /\ ws s' = None /\
  messageQueue s' = [].
Proof.
  intros Hok s'.
  assert (Hr : reconnectTimer s' = None /\ isConnected s' = false /\
               isConnecting s' = false /\ ws s' = None /\ messageQueue s' = []).
  { subst s'. unfold_methods. split_cases; cbn in *; repeat split; congruence. }
  destruct Hr as (Hr & Hc & Hg & Hw & Hq).
  pose proof (ok_reconnect s' (disconnect_ok now s Hok)) as Hids.
  rewrite Hr in Hids. repeat split; assumption.
Qed.

(** A close event with the clean indicator schedules nothing. *)
Lemma clean_close_schedules_nothing (now : Z) (r : Q) (s : service) :
  timersOk s -> reconnectTimer s = None ->
  let s' := handleConnectionClose true now r s in
  reconnectTimer s' = None /\ reconnectIds (pending s') = [] /\
  isConnected s' = false /\ isConnecting s' = false.
Proof.
  intros Hok Hnone s'.
  destruct (cleanup_fields now s) as (Hr & _ & _ & Hc & Hg & _).
  assert (Hf : reconnectTimer s' = None /\ isConnected s' = false /\
               isConnecting s' = false).
  { subst s'. unfold handleConnectionClose. cbn [negb andb].
    cbn [emit perform reconnectTimer isConnected isConnecting set_effects].
    rewrite Hr, Hc, Hg. repeat split. exact Hnone. }
  destruct Hf as (Hr' & Hc' & Hg').
  pose proof (ok_reconnect s' (handleConnectionClose_ok true now r s Hok)) as Hids.
  rewrite Hr' in Hids. repeat split; assumption.
Qed.

(** With no connection, no connection attempt and no reconnect timer
    pending, no timer that fires touches a socket: no connect is
    attempted. *)
Lemma quiet_timers (s : service) (t : timer) (id : string) (socketOk : bool) (r : Q)
  (now : Z) :
  isConnected s = false -> isConnecting s = false -> reconnectIds (pending s) = [] ->
  In t (pending s) ->
  effects (fire t id socketOk r now s) = effects s /\
  ws (fire t id socketOk r now s) = ws s.
Proof.
  intros Hc Hg Hids Ht. unfold fire.
  destruct (kindOf t) eqn:Ek.
  - unfold connectionTimeoutFires.
    cbn [clearTimer isConnecting set_pending]. rewrite Hg. split; reflexivity.
  - unfold heartbeatTick. rewrite Hc. split; reflexivity.
  - exfalso.
    assert (Hin : In (timerId t) (reconnectIds (pending s))).
    { apply reconnectIds_In. exists t. unfold isReconnect. rewrite Ek. tauto. }
    rewrite Hids in Hin. contradiction.
  - split; reflexivity.
Qed.

(** An unclean close below the attempt limit leaves exactly one reconnect
    timer pending. *)
Lemma unclean_close_schedules (now : Z) (r : Q) (s : service) :
  timersOk s ->
  (reconnectAttempts s < optReconnectAttempts (options s))%nat ->
  let s' := handleConnectionClose false now r s in
  exists id, reconnectTimer s' = Some id /\ reconnectIds (pending s') = [id].
Proof.
  intros Hok Hlt s'.
  destruct (cleanup_fields now s) as (Hr & Ha & Ho & _).
  assert (Hf : exists id, reconnectTimer s' = Some id).
  { subst s'. unfold handleConnectionClose. rewrite Ha, Ho.
    apply Nat.ltb_lt in Hlt. rewrite Hlt. cbn [negb andb].
    unfold scheduleReconnect.
    destruct (reconnectTimer (emit "disconnected" (cleanup now s))) as [id|] eqn:E;
      [exists id; exact E|].
    eexists. reflexivity. }
  destruct Hf as [id Hid]. exists id. split; [exact Hid|].
  pose proof (ok_reconnect s' (handleConnectionClose_ok false now r s Hok)) as Hids.
  rewrite Hid in Hids. exact Hids.
Qed.

(** *** Message shapes *)

Lemma upperChar_idempotent (c : ascii) : upperChar (upperChar c) = upperChar c.
Proof.
  destruct c as [[] [] [] [] [] [] [] []]; reflexivity.
Qed.

Lemma toUpperCase_idempotent (s : string) : toUpperCase (toUpperCase s) = toUpperCase s.
Proof.
  induction s as [|c s IH]; [reflexivity|].
  cbn [toUpperCase]. rewrite upperChar_idempotent, IH. reflexivity.
Qed.

(** The heartbeat of a connected service is a ping on its socket. *)
Lemma heartbeatTick_connected (now : Z) (s : service) (socket : positive) :
  isConnected s = true -> ws s = Some socket ->
  effects (heartbeatTick now s)
  = effects s ++ [Transmit socket (Text (stringify (pingMessage now (connectionId s))))].
Proof.
  intros Hc Hw. unfold heartbeatTick, sendJSON. rewrite Hc.
  match goal with
  | |- context [send ?d s] =>
      destruct (send_connected d s socket Hc Hw) as (_ & He & _)
  end.
  exact He.
Qed.

Lemma unsubscribe_connected (symbol : string) (now : Z) (s : service) (socket : positive) :
  isConnected s = true -> ws s = Some socket ->
  effects (snd (unsubscribe symbol now s))
  = effects s ++ [Transmit socket (Text (stringify (unsubscribeMessage symbol now)))].
Proof.
  intros Hc Hw. unfold unsubscribe, sendJSON.
  match goal with
  | |- context [send ?d ?s1] =>
      destruct (send_connected d s1 socket) as (_ & He & _); [exact Hc | exact Hw |]
  end.
  exact He.
Qed.

(** *** Pong *)

Lemma handleMessage_pong (t now : Z) (ts : option Z) (len : nat) (s : service) :
  t <> 0%Z ->
  let s' := handleMessage (InObject (Some "pong"%string) (Some t) ts len) now s in
  latencyMeasurements s' = windowAfter (now - t) (latencyMeasurements s) /\
  averageLatency (stats s') = averageOf (latencyMeasurements s') /\
  effects s' = effects s.
Proof.
  intro Ht. unfold handleMessage, handlePongMessage.
  destruct t; [contradiction| |]; repeat split.
Qed.

Lemma sumZ_from (l : list Z) (init : Z) : fold_left Z.add l init = (init + sumZ l)%Z.
Proof.
  unfold sumZ. revert init. induction l as [|x l IH]; intro init; cbn [fold_left].
  - lia.
  - rewrite IH, (IH (0 + x)%Z). lia.
Qed.

(** The average of a non-empty window is the sum of its samples over
    their number. *)
Lemma averageOf_nonempty (l : list Z) :
  l <> [] ->
  averageOf l = Fin (inject_Z (sumZ l) / inject_Z (Z.of_nat (List.length l))).
Proof.
  intro Hne. unfold averageOf. apply jsdiv_nonzero.
  destruct l as [|x l]; [contradiction|].
  cbn [List.length]. intro H.
  assert (Hz : (Z.of_nat (S (List.length l)) = 0)%Z).
  { apply (proj1 (inject_Z_injective _ 0%Z)). exact H. }
  lia.
Qed.

End ServiceFacts.

(** ** hooks/useWebSocket.js *)

Module HookFacts.
Import JsNum NumFacts Wire TimerFacts Hook.

Ltac unfold_handlers :=
  unfold fire, heartbeatFires, onopen, onclose, onerror, onmessage, connect, reconnect,
    disconnect, subscribe, unsubscribe, sendJsonMessage, sendMessage, processMessageQueue,
    startHeartbeat, clearTimeouts, socketBecomes, socketOpen, setTimer, clearTimer,
    perform.

Ltac split_cases :=
  repeat match goal with
         | |- context [match ?x with _ => _ end] => destruct x eqn:?
         | |- context [if ?x then _ else _] => destruct x eqn:?
         end.

(** *** Sending and flushing *)

Lemma sendMessage_open (message : payload) (s : hook) (sock : socket) :
  webSocketRef s = Some sock -> socketState sock = OPEN ->
  fst (sendMessage message s) = true /\
  effects (snd (sendMessage message s))
  = effects s ++ [Transmit (socketId sock) (Text (messageText message))] /\
  messageQueueRef (snd (sendMessage message s)) = messageQueueRef s.
Proof.
  intros Hw Ho. unfold sendMessage. rewrite Hw, Ho. repeat split.
Qed.



(** What [drain] leaves alone. *)
Lemma drain_fields (queue : list string) :
  forall s,
  webSocketRef (drain queue s) = webSocketRef s /\
  reconnectTimeoutRef (drain queue s) = reconnectTimeoutRef s /\
  heartbeatTimeoutRef (drain queue s) = heartbeatTimeoutRef s /\
  pending (drain queue s) = pending s /\ nextTimer (drain queue s) = nextTimer s /\
  latencyRef (drain queue s) = latencyRef s /\
  averageLatency (drain queue s) = averageLatency s /\
  config (drain queue s) = config s.
Proof.
  induction queue as [|m queue IH]; intro s; cbn [drain].
  - repeat split.
  - unfold socketOpen. destruct (webSocketRef s) as [sock|] eqn:Hw;
      [|cbn; rewrite ?Hw; repeat split].
    destruct (isOpen (socketState sock)); [|cbn; rewrite ?Hw; repeat split].
    destruct (IH (perform (Transmit (socketId sock) (Text m)) s))
      as (H1 & H2 & H3 & H4 & H5 & H6 & H7 & H8).
    rewrite H1, H2, H3, H4, H5, H6, H7, H8. cbn. rewrite ?Hw. repeat split.
Qed.

(** The flush on an open socket: the queue is sent front to back and
    left empty. *)
Lemma drain_open (sock : socket) (queue : list string) :
  forall s,
  webSocketRef s = Some sock -> socketState sock = OPEN ->
  effects (drain queue s)
  = effects s ++ map (fun m => Transmit (socketId sock) (Text m)) queue /\
  messageQueueRef (drain queue s) = [].
Proof.
  induction queue as [|m queue IH]; intros s Hw Ho; cbn [drain map].
  - rewrite app_nil_r. split; reflexivity.
  - unfold socketOpen. rewrite Hw, Ho. cbn [isOpen].
    destruct (IH (perform (Transmit (socketId sock) (Text m)) s) Hw Ho) as (He & Hq).
    rewrite He, Hq. cbn [perform effects set_effects].
    rewrite <- app_assoc. split; reflexivity.
Qed.

Lemma hook_transmitted_app (l l' : list effect) :
  transmitted (l ++ l') = transmitted l ++ transmitted l'.
Proof.
  induction l as [|e l IH]; [reflexivity|].
  destruct e; cbn; rewrite IH; reflexivity.
Qed.

Lemma transmitted_texts (id : positive) (l : list string) :
  transmitted (map (fun m => Transmit id (Text m)) l) = map Text l.
Proof.
  induction l as [|x l IH]; [reflexivity|].
  cbn [map transmitted]. rewrite IH. reflexivity.
Qed.

(** The open event on the current socket: the queued messages are
    transmitted in the order they were queued, each once, and the queue is
    left empty. *)
Lemma onopen_flushes (s : hook) (sock : socket) :
  webSocketRef s = Some sock ->
  let s' := onopen (socketBecomes OPEN s) in
  transmitted (effects s') = transmitted (effects s) ++ map Text (messageQueueRef s) /\
  messageQueueRef s' = [].
Proof.
  intros Hw s'. subst s'. unfold onopen, processMessageQueue.
  match goal with
  | |- context [drain ?q ?s1] =>
      assert (H1 : webSocketRef s1
                   = Some {| socketId := socketId sock; socketState := OPEN |} /\
                   q = messageQueueRef s /\ effects s1 = effects s);
      [|destruct H1 as (Hw1 & Hq1 & He1);
        destruct (drain_open _ q s1 Hw1 eq_refl) as (He & Hq)]
  end.
  { unfold socketBecomes. rewrite Hw. unfold_handlers. split_cases; repeat split. }
  cbn [perform effects messageQueueRef set_effects].
  rewrite He, Hq, He1, Hq1.
  rewrite !hook_transmitted_app, transmitted_texts, app_nil_r. split; reflexivity.
Qed.

(** *** Subscription and heartbeat messages *)

Lemma subscribe_open (channels : channelsArg) (now : Z) (s : hook) (sock : socket) :
  webSocketRef s = Some sock -> socketState sock = OPEN ->
  effects (snd (subscribe channels now s))
  = effects s ++ [Transmit (socketId sock)
                    (Text (stringify (subscribeMessage channels now)))].
Proof.
  intros Hw Ho. unfold subscribe, sendJsonMessage.
  apply (sendMessage_open (Text _) s sock Hw Ho).
Qed.

Lemma unsubscribe_open (channels : channelsArg) (now : Z) (s : hook) (sock : socket) :
  webSocketRef s = Some sock -> socketState sock = OPEN ->
  effects (snd (unsubscribe channels now s))
  = effects s ++ [Transmit (socketId sock)
                    (Text (stringify (unsubscribeMessage channels now)))].
Proof.
  intros Hw Ho. unfold unsubscribe, sendJsonMessage.
  apply (sendMessage_open (Text _) s sock Hw Ho).
Qed.

Lemma startHeartbeat_effects (s : hook) : effects (startHeartbeat s) = effects s.
Proof.
  unfold startHeartbeat, setTimer.
  destruct (Qltb 0 (heartbeatInterval (config s))); reflexivity.
Qed.

Lemma heartbeatFires_open (now : Z) (s : hook) (sock : socket) :
  webSocketRef s = Some sock -> socketState sock = OPEN ->
  transmitted (effects (heartbeatFires now s))
  = transmitted (effects s) ++ [Text (stringify (heartbeatMessage now))].
Proof.
  intros Hw Ho. unfold heartbeatFires, socketOpen. rewrite Hw, Ho. cbn [isOpen].
  rewrite startHeartbeat_effects.
  cbn [perform effects set_effects]. rewrite hook_transmitted_app. reflexivity.
Qed.

(** *** The reconnect timeout *)

(** Every pending reconnect timer is the one [reconnectTimeoutRef]
    refers to. *)
Definition refOk (pending : list timer) (ref : option positive) : Prop :=
  forall id, In id (reconnectIds pending) -> ref = Some id.

Definition reconnectRefOk (s : hook) : Prop := refOk (pending s) (reconnectTimeoutRef s).

Lemma refOk_cancel (id : positive) (pending : list timer) (ref : option positive) :
  refOk pending ref -> refOk (cancel id pending) ref.
Proof.
  intros H i Hi. apply H. eapply reconnectIds_cancel_incl. exact Hi.
Qed.

Lemma refOk_none (pending : list timer) : refOk pending None -> reconnectIds pending = [].
Proof.
  intro H. destruct (reconnectIds pending) as [|id l] eqn:E; [reflexivity|].
  assert (Hin : In id (reconnectIds pending)) by (rewrite E; left; reflexivity).
  specialize (H id Hin). discriminate.
Qed.

Lemma refOk_empty (pending : list timer) (ref : option positive) :
  reconnectIds pending = [] -> refOk pending ref.
Proof. intros E id Hid. rewrite E in Hid. contradiction. Qed.

Lemma refOk_cancel_ref (id : positive) (pending : list timer) :
  refOk pending (Some id) -> reconnectIds (cancel id pending) = [].
Proof.
  intro H. apply reconnectIds_cancel_self.
  intros i Hi. specialize (H i Hi). congruence.
Qed.

Lemma refOk_heartbeat (pending : list timer) (ref : option positive) (id : positive)
  (delay : Q) :
  refOk pending ref ->
  refOk (pending ++ [{| timerId := id; kindOf := HeartbeatTimer; delayOf := delay |}]) ref.
Proof.
  intros H i Hi. rewrite reconnectIds_app in Hi. cbn in Hi.
  rewrite app_nil_r in Hi. apply H. exact Hi.
Qed.

(** [clearTimeouts] leaves no reconnect timer pending. *)
Lemma clearTimeouts_clears (s : hook) :
  reconnectRefOk s ->
  reconnectIds (pending (clearTimeouts s)) = [] /\
  reconnectTimeoutRef (clearTimeouts s) = None /\
  heartbeatTimeoutRef (clearTimeouts s) = None /\
  config (clearTimeouts s) = config s /\ effects (clearTimeouts s) = effects s /\
  nextTimer (clearTimeouts s) = nextTimer s /\
  nextSocket (clearTimeouts s) = nextSocket s /\
  webSocketRef (clearTimeouts s) = webSocketRef s.
Proof.
  unfold reconnectRefOk. intro Hok.
  assert (H1 : reconnectIds
                 (pending match reconnectTimeoutRef s with
                          | Some id => set_reconnectTimeoutRef None (clearTimer id s)
                          | None => s
                          end) = []).
  { destruct (reconnectTimeoutRef s) as [id|].
    - apply refOk_cancel_ref. exact Hok.
    - apply refOk_none. exact Hok. }
  unfold clearTimeouts.
  destruct (reconnectTimeoutRef s) as [id|] eqn:Er;
    match goal with
    | |- context [heartbeatTimeoutRef ?s1] =>
        destruct (heartbeatTimeoutRef s1) as [hb|] eqn:Eh
    end; cbn in *; rewrite ?Eh, ?Er; repeat split; try assumption;
    apply refOk_none, refOk_cancel, refOk_empty; exact H1.
Qed.

Lemma socketBecomes_fields (r : readyStateValue) (s : hook) :
  pending (socketBecomes r s) = pending s /\
  reconnectTimeoutRef (socketBecomes r s) = reconnectTimeoutRef s /\
  config (socketBecomes r s) = config s /\ effects (socketBecomes r s) = effects s /\
  latencyRef (socketBecomes r s) = latencyRef s /\
  averageLatency (socketBecomes r s) = averageLatency s /\
  nextSocket (socketBecomes r s) = nextSocket s.
Proof. unfold socketBecomes. destruct (webSocketRef s); repeat split. Qed.

(** The state [onclose] works on before it decides about a reconnect. *)
Definition closedState (s : hook) : hook :=
  perform (Emit "onClose") (clearTimeouts (set_isConnected false (set_readyState CLOSED s))).

Lemma closedState_facts (s : hook) :
  reconnectRefOk s ->
  reconnectIds (pending (closedState s)) = [] /\
  reconnectTimeoutRef (closedState s) = None /\
  config (closedState s) = config s /\
  nextSocket (closedState s) = nextSocket s.
Proof.
  intro Hok. unfold closedState.
  destruct (clearTimeouts_clears (set_isConnected false (set_readyState CLOSED s)))
    as (H1 & H2 & _ & H3 & _ & _ & H4 & _); [exact Hok|].
  cbn [perform pending reconnectTimeoutRef config nextSocket set_effects].
  rewrite H1, H2, H3, H4. repeat split.
Qed.

(** A close with the clean indicator leaves no reconnect timer pending. *)
Lemma onclose_clean (attempts : nat) (s : hook) :
  reconnectRefOk s ->
  reconnectIds (pending (onclose attempts true s)) = [] /\
  reconnectTimeoutRef (onclose attempts true s) = None /\
  nextSocket (onclose attempts true s) = nextSocket s.
Proof.
  intro Hok. unfold onclose. fold (closedState s).
  rewrite andb_false_r.
  destruct (closedState_facts s Hok) as (H1 & H2 & _ & H3). repeat split; assumption.
Qed.

(** With [shouldReconnect] off, no close schedules a reconnect. *)
Lemma onclose_gated (attempts : nat) (wasClean : bool) (s : hook) :
  reconnectRefOk s -> shouldReconnect (config s) = false ->
  reconnectIds (pending (onclose attempts wasClean s)) = [].
Proof.
  intros Hok Hoff. unfold onclose. fold (closedState s).
  destruct (closedState_facts s Hok) as (H1 & _ & Hc & _).
  rewrite Hc, Hoff. cbn [andb]. exact H1.
Qed.

(** An unclean close seen with a counter below the limit, with
    [shouldReconnect] on, leaves exactly one reconnect timer pending; its
    delay is [backoffDelay] at the next attempt. *)
Lemma onclose_unclean (attempts : nat) (s : hook) :
  reconnectRefOk s -> shouldReconnect (config s) = true ->
  (attempts < reconnectAttempts (config s))%nat ->
  let s' := onclose attempts false s in
  exists t,
    filter isReconnect (pending s') = [t] /\
    reconnectTimeoutRef s' = Some (timerId t) /\
    delayOf t = backoffDelay (config s) (S attempts) /\
    connectionAttempts s' = S attempts.
Proof.
  intros Hok Hon Hlt s'. subst s'. unfold onclose. fold (closedState s).
  destruct (closedState_facts s Hok) as (H1 & _ & Hc & _).
  rewrite Hc, Hon. apply Nat.ltb_lt in Hlt. rewrite Hlt. cbn [andb negb].
  unfold setTimer.
  cbn [set_connectionAttempts set_reconnectTimeoutRef set_nextTimer set_pending
       pending reconnectTimeoutRef connectionAttempts config nextTimer].
  rewrite Hc.
  eexists. rewrite filter_app.
  unfold reconnectIds in H1. apply map_eq_nil in H1. rewrite H1.
  repeat split.
Qed.

(** What a transition leaves alone: the latency window, the reported
    average and the configuration. *)
Lemma step_fields (s : hook) (e : event) (s' : hook) :
  step s e s' ->
  latencyRef s' = latencyRef s /\ averageLatency s' = averageLatency s /\
  config s' = config s.
Proof.
  intro Hstep. destruct Hstep;
    try (unfold_handlers; split_cases; repeat split; fail).
  - unfold onopen, processMessageQueue.
    match goal with
    | |- context [drain ?q ?s1] =>
        destruct (drain_fields q s1) as (_ & _ & _ & _ & _ & H6 & H7 & H8)
    end.
    cbn [perform latencyRef averageLatency config set_effects].
    rewrite H6, H7, H8. unfold_handlers. split_cases; repeat split.
Qed.

(** In every reachable state the latency window is empty and the
    reported average is 0. *)
Lemma reachable_latency (o : hookOptions) (s : hook) :
  reachable o s -> latencyRef s = [] /\ averageLatency s = Fin 0 /\ config s = o.
Proof.
  induction 1 as [|s e s' _ IH Hstep].
  - repeat split.
  - destruct (step_fields _ _ _ Hstep) as (H1 & H2 & H3).
    rewrite H1, H2, H3. exact IH.
Qed.

Lemma reconnectRefOk_same (s s' : hook) :
  pending s' = pending s -> reconnectTimeoutRef s' = reconnectTimeoutRef s ->
  reconnectRefOk s -> reconnectRefOk s'.
Proof. unfold reconnectRefOk. intros -> ->. tauto. Qed.

Lemma startHeartbeat_refOk (s : hook) : reconnectRefOk s -> reconnectRefOk (startHeartbeat s).
Proof.
  unfold reconnectRefOk, startHeartbeat, setTimer. intro Hok.
  destruct (Qltb 0 (heartbeatInterval (config s))); [|exact Hok].
  cbn. apply refOk_heartbeat. exact Hok.
Qed.

Lemma onclose_refOk (attempts : nat) (wasClean : bool) (s : hook) :
  reconnectRefOk s -> reconnectRefOk (onclose attempts wasClean s).
Proof.
  intro Hok. unfold onclose. fold (closedState s).
  destruct (closedState_facts s Hok) as (H1 & _ & _ & _).
  destruct (shouldReconnect (config (closedState s))
            && (attempts <? reconnectAttempts (config (closedState s)))%nat
            && negb wasClean).
  - unfold reconnectRefOk, setTimer.
    cbn [set_connectionAttempts set_reconnectTimeoutRef set_nextTimer set_pending
         pending reconnectTimeoutRef nextTimer].
    intros id Hid.
    rewrite reconnectIds_app, H1 in Hid. cbn in Hid.
    destruct Hid as [<-|[]]. reflexivity.
  - apply refOk_empty. exact H1.
Qed.

Lemma step_refOk (s : hook) (e : event) (s' : hook) :
  step s e s' -> reconnectRefOk s -> reconnectRefOk s'.
Proof.
  intros Hstep Hok. destruct Hstep.
  - apply (reconnectRefOk_same s); [| |exact Hok];
      unfold_handlers; split_cases; reflexivity.
  - unfold disconnect.
    destruct (clearTimeouts_clears s Hok) as (H1 & _).
    apply refOk_empty.
    destruct (webSocketRef (clearTimeouts s)); exact H1.
  - unfold reconnect, setTimer.
    set (s0 := disconnect (set_connectionAttempts 0 s)).
    assert (H1 : reconnectIds (pending s0) = []).
    { subst s0. unfold disconnect.
      destruct (clearTimeouts_clears (set_connectionAttempts 0 s) Hok) as (H1 & _).
      destruct (webSocketRef (clearTimeouts (set_connectionAttempts 0 s))); exact H1. }
    clearbody s0. apply refOk_empty.
    cbn [snd pending set_nextTimer set_pending].
    rewrite reconnectIds_app, H1. reflexivity.
  - apply (reconnectRefOk_same s); [| |exact Hok];
      unfold_handlers; split_cases; reflexivity.
  - apply (reconnectRefOk_same s); [| |exact Hok];
      unfold_handlers; split_cases; reflexivity.
  - apply (reconnectRefOk_same s); [| |exact Hok];
      unfold_handlers; split_cases; reflexivity.
  - unfold onopen, processMessageQueue.
    match goal with
    | |- context [drain ?q (startHeartbeat ?s1)] =>
        destruct (drain_fields q (startHeartbeat s1)) as (_ & H2 & _ & H4 & _);
        assert (H1 : reconnectRefOk (startHeartbeat s1))
    end.
    { apply startHeartbeat_refOk.
      apply (reconnectRefOk_same s); [| |exact Hok];
        unfold socketBecomes; destruct (webSocketRef s); reflexivity. }
    unfold reconnectRefOk in *.
    cbn [perform pending reconnectTimeoutRef set_effects].
    rewrite H2, H4. exact H1.
  - apply onclose_refOk.
    apply (reconnectRefOk_same s); [| |exact Hok];
      unfold socketBecomes; destruct (webSocketRef s); reflexivity.
  - apply (reconnectRefOk_same s); [| |exact Hok];
      unfold_handlers; split_cases; reflexivity.
  - apply (reconnectRefOk_same s); [| |exact Hok];
      unfold_handlers; split_cases; reflexivity.
  - assert (H1 : reconnectRefOk (clearTimer (timerId t) s))
      by (apply refOk_cancel; exact Hok).
    unfold fire. destruct (kindOf t).
    + exact H1.
    + unfold heartbeatFires. destruct (socketOpen (clearTimer (timerId t) s)); [|exact H1].
      apply startHeartbeat_refOk.
      apply (reconnectRefOk_same (clearTimer (timerId t) s)); [reflexivity..|exact H1].
    + apply (reconnectRefOk_same (clearTimer (timerId t) s)); [| |exact H1];
        unfold_handlers; split_cases; reflexivity.
    + apply (reconnectRefOk_same (clearTimer (timerId t) s)); [| |exact H1];
        unfold_handlers; split_cases; reflexivity.
Qed.

(** In every reachable state the pending reconnect timers are the one
    [reconnectTimeoutRef] refers to. *)
Lemma reachable_refOk (o : hookOptions) (s : hook) : reachable o s -> reconnectRefOk s.
Proof.
  induction 1 as [|s e s' _ IH Hstep].
  - intros id Hid. contradiction.
  - eapply step_refOk; eassumption.
Qed.

(** With no reconnect timer of [onclose] pending, the only timers that
    create a socket when they fire are those of [reconnect()]. *)
Lemma hook_quiet_timers (s : hook) (t : timer) (now : Z) :
  reconnectIds (pending s) = [] -> In t (pending s) ->
  kindOf t <> ForcedReconnectTimer ->
  nextSocket (fire t now s) = nextSocket s.
Proof.
  intros Hids Ht Hkind. unfold fire. destruct (kindOf t) eqn:Ek.
  - reflexivity.
  - unfold_handlers. split_cases; reflexivity.
  - exfalso.
    assert (Hin : In (timerId t) (reconnectIds (pending s))).
    { apply reconnectIds_In. exists t. unfold isReconnect. rewrite Ek. tauto. }
    rewrite Hids in Hin. contradiction.
  - contradiction.
Qed.

(** Neither [clearTimeouts] nor [disconnect] sets a timer. *)
Lemma clearTimeouts_pending (s : hook) (t : timer) :
  In t (pending (clearTimeouts s)) -> In t (pending s).
Proof.
  unfold clearTimeouts.
  set (s1 := match reconnectTimeoutRef s with
             | Some id => set_reconnectTimeoutRef None (clearTimer id s)
             | None => s
             end).
  assert (H1 : In t (pending s1) -> In t (pending s)).
  { subst s1. destruct (reconnectTimeoutRef s) as [id|]; [|tauto].
    cbn [pending set_reconnectTimeoutRef clearTimer set_pending].
    intro Hin. apply cancel_In in Hin. tauto. }
  clearbody s1. intro Hin. apply H1.
  destruct (heartbeatTimeoutRef s1) as [id|]; [|exact Hin].
  cbn [pending set_heartbeatTimeoutRef clearTimer set_pending] in Hin.
  apply cancel_In in Hin. tauto.
Qed.

Lemma disconnect_pending (s : hook) (t : timer) :
  In t (pending (disconnect s)) -> In t (pending s).
Proof.
  unfold disconnect. intro Hin. apply clearTimeouts_pending.
  destruct (webSocketRef (clearTimeouts s)); exact Hin.
Qed.

(** A close with the clean indicator sets no timer. *)
Lemma onclose_clean_pending (attempts : nat) (s : hook) (t : timer) :
  In t (pending (onclose attempts true s)) -> In t (pending s).
Proof.
  unfold onclose. rewrite andb_false_r.
  cbn [perform pending set_effects]. intro Hin.
  apply clearTimeouts_pending in Hin. exact Hin.
Qed.

Lemma disconnect_clears (s : hook) :
  reconnectRefOk s ->
  reconnectIds (pending (disconnect s)) = [] /\ reconnectRefOk (disconnect s) /\
  nextSocket (disconnect s) = nextSocket s.
Proof.
  intro Hok.
  assert (H : reconnectIds (pending (disconnect s)) = [] /\
              nextSocket (disconnect s) = nextSocket s).
  { unfold disconnect.
    destruct (clearTimeouts_clears s Hok) as (H1 & _ & _ & _ & _ & _ & H2 & _).
    destruct (webSocketRef (clearTimeouts s)); split; assumption. }
  destruct H as [H1 H2]. repeat split; try assumption.
  apply refOk_empty. exact H1.
Qed.

End HookFacts.

(** ** The transport: [OrderBookWebSocketService] and [useWebSocket] *)

Module Transport.
Import JsNum NumFacts Wire TimerFacts.

(** *** Reconnect backoff *)





(** *** Outbound messages *)




(** *** Message shapes *)

(** The shape of a subscription control message as the claim words it:
    [{type: "subscribe"|"unsubscribe", symbol: <upper-cased>, timestamp}]. *)
Definition subscriptionShape (j : json) : Prop :=
  exists kind symbol timestamp,
    j = JObj [("type"%string, JStr kind); ("symbol"%string, JStr symbol);
              ("timestamp"%string, JNum timestamp)] /\
    (kind = "subscribe"%string \/ kind = "unsubscribe"%string) /\
    toUpperCase symbol = symbol.

(** The shape of a heartbeat as the claim words it:
    [{type: "ping", requestTime, connectionId}]. *)
Definition heartbeatShape (j : json) : Prop :=
  exists requestTime connectionId,
    j = JObj [("type"%string, JStr "ping"); ("requestTime"%string, JNum requestTime);
              ("connectionId"%string, JStr connectionId)].

(** The shapes [useWebSocket] sends: [{type, channels: [...], timestamp}]
    and [{type: "ping", timestamp}]. *)
Definition channelsShape (j : json) : Prop :=
  exists kind channels timestamp,
    j = JObj [("type"%string, JStr kind);
              ("channels"%string, JArr (map JStr channels));
              ("timestamp"%string, JNum timestamp)] /\
    (kind = "subscribe"%string \/ kind = "unsubscribe"%string).

Definition pingShape (j : json) : Prop :=
  exists timestamp,
    j = JObj [("type"%string, JStr "ping"); ("timestamp"%string, JNum timestamp)].

(** A hook, configured as [useOrderBook] does, whose socket has opened. *)
Definition openHook : Hook.hook :=
  Hook.onopen
    (Hook.socketBecomes Hook.OPEN (Hook.connect (Hook.mount Hook.orderBookOptions))).

(** C7, as stated, fails for [useWebSocket] and [useOrderBook]: the
    subscription for a symbol carries [channels: ["orderbook.<symbol>"]]
    with the symbol as given and no [symbol] property, and the heartbeat
    carries [timestamp] and neither [requestTime] nor [connectionId]. *)
Lemma C7_counterexample :
  transmitted (Hook.effects (snd (Hook.subscribe (Hook.orderBookChannel "btcusdt") 7
                                    openHook)))
  = [Text (stringify (Hook.symbolSubscription "btcusdt" 7))] /\
  ~ subscriptionShape (Hook.symbolSubscription "btcusdt" 7) /\
  transmitted (Hook.effects (Hook.heartbeatFires 7 openHook))
  = [Text (stringify (Hook.heartbeatMessage 7))] /\
  ~ heartbeatShape (Hook.heartbeatMessage 7).
Proof.
  split; [vm_compute; reflexivity|].
  split; [intros (kind & symbol & timestamp & H & _); discriminate H|].
  split; [vm_compute; reflexivity|].
  intros (requestTime & connectionId & H). discriminate H.
Qed.

(** C7, amended.  In every reachable state of
    [OrderBookWebSocketService], [subscribe] and [unsubscribe] send
    [{type, symbol, timestamp}] with the symbol upper-cased, and the
    heartbeat of a connected service sends
    [{type: "ping", requestTime, connectionId}] with a string id; these
    are the texts handed to the socket.  [useWebSocket] sends
    [{type, channels, timestamp}], where [useOrderBook] passes the single
    channel ["orderbook.<symbol>"], and its heartbeat sends
    [{type: "ping", timestamp}]. *)
Theorem C7_message_shapes (o : Service.serviceOptions) (s : Service.service)
  (symbol : string) (now : Z) (h : Hook.hook) (channels : Hook.channelsArg)
  (Hreach : Service.reachable o s) :
  subscriptionShape (Service.subscribeMessage symbol now) /\
  subscriptionShape (Service.unsubscribeMessage symbol now) /\
  (Service.isConnected s = true ->
   heartbeatShape (Service.pingMessage now (Service.connectionId s))) /\
  (match Service.isConnected s, Service.ws s with
   | true, Some socket =>
       Service.effects (snd (Service.subscribe symbol now s))
       = Service.effects s
         ++ [Transmit socket (Text (stringify (Service.subscribeMessage symbol now)))] /\
       Service.effects (snd (Service.unsubscribe symbol now s))
       = Service.effects s
         ++ [Transmit socket (Text (stringify (Service.unsubscribeMessage symbol now)))] /\
       Service.effects (Service.heartbeatTick now s)
       = Service.effects s
         ++ [Transmit socket
               (Text (stringify (Service.pingMessage now (Service.connectionId s))))]
   | _, _ => True
   end) /\
  channelsShape (Hook.subscribeMessage channels now) /\
  channelsShape (Hook.unsubscribeMessage channels now) /\
  pingShape (Hook.heartbeatMessage now) /\
  Hook.symbolSubscription symbol now
  = JObj [("type"%string, JStr "subscribe");
          ("channels"%string, JArr [JStr ("orderbook." ++ symbol)]);
          ("timestamp"%string, JNum now)] /\
  (match Hook.webSocketRef h with
   | Some sock =>
       match Hook.socketState sock with
       | Hook.OPEN =>
           Hook.effects (snd (Hook.subscribe channels now h))
           = Hook.effects h
             ++ [Transmit (Hook.socketId sock)
                   (Text (stringify (Hook.subscribeMessage channels now)))] /\
           Hook.effects (snd (Hook.unsubscribe channels now h))
           = Hook.effects h
             ++ [Transmit (Hook.socketId sock)
                   (Text (stringify (Hook.unsubscribeMessage channels now)))] /\
           transmitted (Hook.effects (Hook.heartbeatFires now h))
           = transmitted (Hook.effects h) ++ [Text (stringify (Hook.heartbeatMessage now))]
       | _ => True
       end
   | None => True
   end).
Proof.
  split; [|split; [|split; [|split; [|split; [|split; [|split; [|split]]]]]]].
  - exists "subscribe"%string, (toUpperCase symbol), now.
    split; [reflexivity|]. split; [left; reflexivity|].
    apply ServiceFacts.toUpperCase_idempotent.
  - exists "unsubscribe"%string, (toUpperCase symbol), now.
    split; [reflexivity|]. split; [right; reflexivity|].
    apply ServiceFacts.toUpperCase_idempotent.
  - intro Hc.
    destruct (ServiceFacts.reachable_connectionOk o s Hreach) as [H1 H2].
    specialize (H2 (H1 Hc)).
    unfold Service.pingMessage.
    destruct (Service.connectionId s) as [id|]; [|contradiction].
    exists now, id. reflexivity.
  - destruct (Service.isConnected s) eqn:Hc; [|exact I].
    destruct (Service.ws s) as [socket|] eqn:Hw; [|exact I].
    split; [apply (ServiceFacts.subscribe_connected symbol now s socket Hc Hw)|].
    split; [apply (ServiceFacts.unsubscribe_connected symbol now s socket Hc Hw)|].
    apply (ServiceFacts.heartbeatTick_connected now s socket Hc Hw).
  - destruct channels as [c|cs].
    + exists "subscribe"%string, [c], now. split; [reflexivity | left; reflexivity].
    + exists "subscribe"%string, cs, now. split; [reflexivity | left; reflexivity].
  - destruct channels as [c|cs].
    + exists "unsubscribe"%string, [c], now. split; [reflexivity | right; reflexivity].
    + exists "unsubscribe"%string, cs, now. split; [reflexivity | right; reflexivity].
  - exists now. reflexivity.
  - reflexivity.
  - destruct (Hook.webSocketRef h) as [sock|] eqn:Hw; [|exact I].
    destruct (Hook.socketState sock) eqn:Ho; try exact I.
    split; [apply (HookFacts.subscribe_open channels now h sock Hw Ho)|].
    split; [apply (HookFacts.unsubscribe_open channels now h sock Hw Ho)|].
    apply (HookFacts.heartbeatFires_open now h sock Hw Ho).
Qed.

(** C7 at a fresh service. *)
Lemma C7_message_shapes_witness :
  Service.reachable Service.defaultOptions (Service.create Service.defaultOptions) /\
  subscriptionShape (Service.subscribeMessage "btcusdt" 7).
Proof.
  split; [constructor|].
  apply (C7_message_shapes Service.defaultOptions (Service.create Service.defaultOptions)
           "btcusdt" 7 openHook (Hook.orderBookChannel "btcusdt")).
  constructor.
Defined.

(** *** Heartbeat latency *)

(** C8, as stated, fails for [useWebSocket] and [useOrderBook]: a pong
    is consumed without any latency being computed; the window
    [latencyRef] stays empty and [averageLatency] stays 0. *)
Lemma C8_counterexample :
  Hook.latencyRef
    (Hook.onmessage "pong" (InObject (Some "pong"%string) (Some 5%Z) None 4) openHook) = [] /\
  Hook.averageLatency
    (Hook.onmessage "pong" (InObject (Some "pong"%string) (Some 5%Z) None 4) openHook)
  = Fin 0 /\
  Hook.effects
    (Hook.onmessage "pong" (InObject (Some "pong"%string) (Some 5%Z) None 4) openHook)
  = Hook.effects openHook.
Proof.
  split; [vm_compute; reflexivity|]. split; vm_compute; reflexivity.
Qed.

Lemma windowAfter_cases (latency : Z) (window : list Z) :
  (List.length window <= 100)%nat ->
  ServiceFacts.windowAfter latency window
  = if (List.length window <? 100)%nat then window ++ [latency]
    else tl window ++ [latency].
Proof.
  intro Hle. unfold ServiceFacts.windowAfter.
  rewrite length_app. cbn [List.length].
  destruct (List.length window <? 100)%nat eqn:E.
  - apply Nat.ltb_lt in E.
    destruct (100 <? List.length window + 1)%nat eqn:E'; [|reflexivity].
    apply Nat.ltb_lt in E'. lia.
  - apply Nat.ltb_ge in E.
    destruct (100 <? List.length window + 1)%nat eqn:E'.
    + destruct window as [|x window]; [cbn in E; lia | reflexivity].
    + apply Nat.ltb_ge in E'. lia.
Qed.

(** C8, amended.  In every reachable state of
    [OrderBookWebSocketService], a pong with a non-zero [requestTime]
    appends [now - requestTime] to the latency window, dropping the
    oldest sample when the window already holds 100, so the window never
    exceeds 100 samples; [averageLatency] becomes the sum of the window
    over its length; the pong is not forwarded.  A pong without
    [requestTime] changes nothing.  In [useWebSocket] and [useOrderBook] a
    pong is consumed without forwarding, the latency window stays empty
    and [averageLatency] stays 0. *)
Theorem C8_pong_latency (o : Service.serviceOptions) (s : Service.service)
  (requestTime now : Z) (timestamp : option Z) (len : nat)
  (ho : Hook.hookOptions) (h : Hook.hook) (raw : string) (hookRequestTime : option Z)
  (Hreach : Service.reachable o s) (Hrt : requestTime <> 0%Z)
  (Hhook : Hook.reachable ho h) :
  let window := Service.latencyMeasurements s in
  let s' := Service.handleMessage
              (InObject (Some "pong"%string) (Some requestTime) timestamp len) now s in
  let window' := Service.latencyMeasurements s' in
  window' = (if (List.length window <? 100)%nat
             then window ++ [(now - requestTime)%Z]
             else tl window ++ [(now - requestTime)%Z]) /\
  (List.length window' <= 100)%nat /\
  Service.averageLatency (Service.stats s')
  = Fin (inject_Z (Service.sumZ window') / inject_Z (Z.of_nat (List.length window'))) /\
  Service.effects s' = Service.effects s /\
  Service.latencyMeasurements
    (Service.handleMessage (InObject (Some "pong"%string) None timestamp len) now s)
  = window /\
  (let h' := Hook.onmessage raw (InObject (Some "pong"%string) hookRequestTime timestamp len)
               h in
   Hook.latencyRef h' = [] /\ Hook.averageLatency h' = Fin 0 /\
   Hook.effects h' = Hook.effects h).
Proof.
  cbv zeta.
  pose proof (ServiceFacts.reachable_window o s Hreach) as Hwin.
  destruct (ServiceFacts.handleMessage_pong requestTime now timestamp len s Hrt)
    as (Hw & Ha & He).
  destruct (ServiceFacts.windowAfter_length (now - requestTime)
              (Service.latencyMeasurements s) Hwin) as [Hle Hge].
  rewrite <- Hw in Hle, Hge.
  split; [rewrite Hw; apply windowAfter_cases; exact Hwin|].
  split; [exact Hle|].
  split.
  { rewrite Ha. apply ServiceFacts.averageOf_nonempty.
    intro E. rewrite E in Hge. cbn in Hge. lia. }
  split; [exact He|].
  split; [reflexivity|].
  destruct (HookFacts.reachable_latency ho h Hhook) as (H1 & H2 & _).
  cbn. repeat split; assumption.
Qed.

(** C8 at a fresh service and a freshly mounted hook. *)
Lemma C8_pong_latency_witness :
  Service.latencyMeasurements
    (Service.handleMessage (InObject (Some "pong"%string) (Some 5%Z) None 4) 12
       (Service.create Service.defaultOptions))
  = [7%Z].
Proof.
  assert (Hrt : 5%Z <> 0%Z) by discriminate.
  destruct (C8_pong_latency Service.defaultOptions (Service.create Service.defaultOptions)
              5 12 None 4 Hook.defaultOptions (Hook.mount Hook.defaultOptions)
              "pong" None (Service.ReachCreate _) Hrt (Hook.ReachMount _))
    as (H & _).
  exact H.
Defined.

(** *** Reconnection after a close *)

(** Options with reconnection switched off. *)
Definition noReconnect : Hook.hookOptions :=
  {| Hook.reconnectAttempts := 5; Hook.reconnectInterval := 3000;
     Hook.heartbeatInterval := 30000; Hook.shouldReconnect := false;
     Hook.retryOnError := true |}.

(** A hook on which [reconnect()] was called, then [disconnect()] before
    the 100 ms had passed, and whose socket then closed cleanly. *)
Definition disconnectedAfterReconnect : Hook.hook :=
  Hook.onclose 0 true
    (Hook.socketBecomes Hook.CLOSED
       (Hook.disconnect
          (Hook.reconnect (Hook.connect (Hook.mount Hook.defaultOptions))))).

(** C9, as stated, fails for [useWebSocket]: with [shouldReconnect] off,
    an unclean close seen with an attempt counter of 0, below the limit
    of 5, schedules no reconnect; and after [disconnect()] and a clean
    close the timeout of an earlier [reconnect()] is still pending and
    creates a socket when it fires. *)
Lemma C9_counterexample :
  ((0 < Hook.reconnectAttempts noReconnect)%nat /\
   filter isReconnect
     (Hook.pending
        (Hook.onclose 0 false
           (Hook.socketBecomes Hook.CLOSED (Hook.connect (Hook.mount noReconnect))))) = []) /\
  (let t := {| timerId := 1; kindOf := ForcedReconnectTimer; delayOf := 100 |} in
   Hook.pending disconnectedAfterReconnect = [t] /\
   Hook.effects (Hook.fire t 0 disconnectedAfterReconnect)
   = Hook.effects disconnectedAfterReconnect ++ [Close 1; Create 2]).
Proof.
  split; [split; [cbn; lia | vm_compute; reflexivity]|].
  split; vm_compute; reflexivity.
Qed.

(** C9, amended.  In every reachable state of
    [OrderBookWebSocketService], [disconnect()] followed by a close with
    the clean indicator leaves no reconnect timer pending, and no timer
    that fires afterwards touches a socket; an unclean close with the
    attempt counter below the limit leaves exactly one reconnect timer
    pending.  In every reachable state of [useWebSocket], [disconnect()]
    followed by a clean close sets no timer and creates no socket, leaves
    no reconnect timer of [onclose] pending, and no timer that fires
    afterwards creates a socket, the timeouts of earlier [reconnect()]
    calls apart; an unclean close seen with a counter below the limit
    leaves exactly one reconnect timer of [onclose] pending when
    [shouldReconnect] is on, and none when it is off. *)
Theorem C9_reconnect_after_close (o : Service.serviceOptions) (s : Service.service)
  (now now' : Z) (random : Q) (ho : Hook.hookOptions) (h : Hook.hook) (attempts : nat)
  (Hreach : Service.reachable o s) (Hrandom : Service.validRandom random)
  (Hhook : Hook.reachable ho h) :
  (let s1 := Service.disconnect now s in
   let s2 := Service.handleConnectionClose true now' random s1 in
   reconnectIds (Service.pending s1) = [] /\
   reconnectIds (Service.pending s2) = [] /\ Service.reconnectTimer s2 = None /\
   forall t id socketOk r at_,
     In t (Service.pending s2) ->
     Service.effects (Service.fire t id socketOk r at_ s2) = Service.effects s2) /\
  ((Service.reconnectAttempts s < Service.optReconnectAttempts (Service.options s))%nat ->
   exists id,
     reconnectIds (Service.pending (Service.handleConnectionClose false now random s))
     = [id]) /\
  (let h1 := Hook.disconnect h in
   let h2 := Hook.onclose attempts true (Hook.socketBecomes Hook.CLOSED h1) in
   (forall t, In t (Hook.pending h2) -> In t (Hook.pending h)) /\
   Hook.nextSocket h2 = Hook.nextSocket h /\
   reconnectIds (Hook.pending h1) = [] /\ reconnectIds (Hook.pending h2) = [] /\
   forall t at_,
     In t (Hook.pending h2) -> kindOf t <> ForcedReconnectTimer ->
     Hook.nextSocket (Hook.fire t at_ h2) = Hook.nextSocket h2) /\
  ((attempts < Hook.reconnectAttempts (Hook.config h))%nat ->
   let h' := Hook.onclose attempts false (Hook.socketBecomes Hook.CLOSED h) in
   if Hook.shouldReconnect (Hook.config h)
   then exists t, filter isReconnect (Hook.pending h') = [t]
   else filter isReconnect (Hook.pending h') = []).
Proof.
  pose proof (ServiceFacts.reachable_timersOk o s Hreach) as Hok.
  pose proof (HookFacts.reachable_refOk ho h Hhook) as Hhok.
  split; [|split; [|split]].
  - cbv zeta.
    destruct (ServiceFacts.disconnect_cancels now s Hok) as (Hr1 & Hi1 & _).
    destruct (ServiceFacts.clean_close_schedules_nothing now' random
                (Service.disconnect now s) (ServiceFacts.disconnect_ok now s Hok) Hr1)
      as (Hr2 & Hi2 & Hc2 & Hg2).
    split; [exact Hi1|]. split; [exact Hi2|]. split; [exact Hr2|].
    intros t id socketOk r at_ Ht.
    apply (ServiceFacts.quiet_timers _ t id socketOk r at_ Hc2 Hg2 Hi2 Ht).
  - intro Hlt.
    destruct (ServiceFacts.unclean_close_schedules now random s Hok Hlt) as (id & _ & Hids).
    exists id. exact Hids.
  - cbv zeta.
    destruct (HookFacts.disconnect_clears h Hhok) as (Hi1 & Hok1 & Hn1).
    destruct (HookFacts.socketBecomes_fields Hook.CLOSED (Hook.disconnect h))
      as (Hp & Hr & _ & _ & _ & _ & Hn).
    assert (Hok1' : HookFacts.reconnectRefOk (Hook.socketBecomes Hook.CLOSED (Hook.disconnect h)))
      by (apply (HookFacts.reconnectRefOk_same (Hook.disconnect h)); assumption).
    destruct (HookFacts.onclose_clean attempts _ Hok1') as (Hi2 & _ & Hn2).
    split.
    { intros t Ht. apply HookFacts.onclose_clean_pending in Ht.
      rewrite Hp in Ht. apply HookFacts.disconnect_pending. exact Ht. }
    split; [rewrite Hn2, Hn; exact Hn1|].
    split; [exact Hi1|]. split; [exact Hi2|].
    intros t at_ Ht Hkind. apply (HookFacts.hook_quiet_timers _ t at_ Hi2 Ht Hkind).
  - intro Hlt. cbv zeta.
    destruct (HookFacts.socketBecomes_fields Hook.CLOSED h) as (Hp & Hr & Hc & _).
    assert (Hok' : HookFacts.reconnectRefOk (Hook.socketBecomes Hook.CLOSED h))
      by (apply (HookFacts.reconnectRefOk_same h); assumption).
    destruct (Hook.shouldReconnect (Hook.config h)) eqn:Hon.
    + rewrite <- Hc in Hon, Hlt.
      destruct (HookFacts.onclose_unclean attempts _ Hok' Hon Hlt) as (t & Hf & _).
      exists t. exact Hf.
    + rewrite <- Hc in Hon.
      pose proof (HookFacts.onclose_gated attempts false _ Hok' Hon) as Hids.
      unfold reconnectIds in Hids. apply map_eq_nil in Hids. exact Hids.
Qed.

(** C9 at a fresh service and a freshly mounted hook. *)
Lemma C9_reconnect_after_close_witness :
  exists id,
    reconnectIds
      (Service.pending
         (Service.handleConnectionClose false 0 (1 # 2)
            (Service.create Service.defaultOptions))) = [id].
Proof.
  assert (Hrandom : Service.validRandom (1 # 2)) by (split; lra).
  destruct (C9_reconnect_after_close Service.defaultOptions
              (Service.create Service.defaultOptions) 0 0 (1 # 2) Hook.defaultOptions
              (Hook.mount Hook.defaultOptions) 0 (Service.ReachCreate _) Hrandom
              (Hook.ReachMount _)) as (_ & H & _).
  apply H. cbn. lia.
Defined.

End Transport.

(* ------------------------------------------------------------------ *)
(** * Further properties of services/calculator.js *)

Module CalculatorMore.
Import JsNum Float64 NumFacts Calculator CalculatorFacts.

(** *** getBestPrices *)

(** With both maps present, [bestBid] is the greatest positive bid price
    and [bestAsk] the least positive ask price, each a key of its map;
    when both exist, [midPrice] is their mean and [spreadPercent] the
    spread relative to it. *)
Theorem best_prices_are_extremes (ob : orderBook) (bids asks : side) (b a : Q)
  (Hbids : Bids ob = Some bids) (Hasks : Asks ob = Some asks)
  (Hb : In b (positivePrices bids)) (Ha : In a (positivePrices asks)) :
  let bp := getBestPrices (Some ob) in
  b <= bestBid bp /\ bestAsk bp <= a /\
  (exists q, In (Some (bestBid bp), q) bids) /\
  (exists q, In (Some (bestAsk bp), q) asks) /\
  0 < bestBid bp /\ 0 < bestAsk bp /\
  midPrice bp = (bestBid bp + bestAsk bp) / 2 /\ 0 < midPrice bp /\
  spreadPercent bp = ((bestAsk bp - bestBid bp) / midPrice bp) * 100.
Proof.
  cbv zeta. unfold getBestPrices. rewrite Hbids, Hasks.
  cbn [bestBid bestAsk midPrice spreadPercent spread].
  assert (Hnb : positivePrices bids <> []) by (intro E; rewrite E in Hb; contradiction).
  assert (Hna : positivePrices asks <> []) by (intro E; rewrite E in Ha; contradiction).
  destruct (first_or_zero_of_sort descending (fun x y => y <= x) (positivePrices bids))
    as [Hbin Hbmax]; [intro; lra | apply descending_sorted | exact Hnb |].
  destruct (first_or_zero_of_sort ascending Qle (positivePrices asks))
    as [Hain Hamin]; [intro; lra | apply ascending_sorted | exact Hna |].
  set (bb := first_or_zero (js_sort descending (positivePrices bids))) in *.
  set (ba := first_or_zero (js_sort ascending (positivePrices asks))) in *.
  apply positivePrices_In in Hbin, Hain.
  destruct Hbin as [Hbkey Hbpos], Hain as [Hakey Hapos].
  assert (E1 : Qltb 0 bb = true) by (apply Qltb_lt; exact Hbpos).
  assert (E2 : Qltb 0 ba = true) by (apply Qltb_lt; exact Hapos).
  rewrite E1, E2. cbn [andb].
  assert (Hmid : 0 < (bb + ba) / 2) by (apply Qlt_shift_div_l; lra).
  assert (E3 : Qltb 0 ((bb + ba) / 2) = true) by (apply Qltb_lt; exact Hmid).
  rewrite E3.
  repeat split; auto.
Qed.

Lemma best_prices_are_extremes_witness :
  99 <= bestBid (getBestPrices (Some tradableBook)) /\
  bestAsk (getBestPrices (Some tradableBook)) <= 100.
Proof.
  destruct (best_prices_are_extremes tradableBook [(Some 99, Some 1)]
              [(Some 100, Some 1)] 99 100 eq_refl eq_refl
              (or_introl eq_refl) (or_introl eq_refl)) as (H1 & H2 & _).
  split; [exact H1 | exact H2].
Defined.

(** *** calculateMarketDepth *)

Definition sumDepthQuantity (l : list depthLevel) : Q :=
  fold_right (fun d acc => dlQuantity d + acc) 0 l.

Lemma sumQuantity_from (l : list depthLevel) (init : Q) :
  fold_left (fun sum level => sum + dlQuantity level) l init == init + sumDepthQuantity l.
Proof.
  revert init. induction l as [|d l IH]; intro init; cbn [fold_left sumDepthQuantity fold_right].
  - lra.
  - rewrite IH. fold (sumDepthQuantity l). lra.
Qed.

Lemma cumulate_length (cum : Q) (l : list order) :
  List.length (cumulate cum l) = List.length l.
Proof.
  revert cum. induction l as [|o l IH]; intro cum; cbn; [reflexivity|].
  rewrite IH. reflexivity.
Qed.

Lemma cumulate_prices (cum : Q) (l : list order) :
  map dlPrice (cumulate cum l) = map price l.
Proof.
  revert cum. induction l as [|o l IH]; intro cum; cbn; [reflexivity|].
  rewrite IH. reflexivity.
Qed.

(** Each level's [cumulativeVolume] is the start value plus the
    quantities up to and including that level. *)
Lemma cumulate_running (l : list order) :
  forall cum k d,
  nth_error (cumulate cum l) k = Some d ->
  cumulativeVolume d == cum + sumDepthQuantity (firstn (S k) (cumulate cum l)).
Proof.
  induction l as [|o l IH]; intros cum k d Hk.
  - destruct k; discriminate.
  - cbn [cumulate] in *. destruct k as [|k].
    + injection Hk as <-. cbn. lra.
    + cbn [nth_error] in Hk. rewrite (IH _ _ _ Hk).
      cbn [firstn sumDepthQuantity fold_right dlQuantity].
      fold (sumDepthQuantity (firstn (S k) (cumulate (cum + quantity o) l))). lra.
Qed.

Lemma sorted_map {A B : Type} (f : A -> B) (R : B -> B -> Prop) (l : list A) :
  StronglySorted (fun a b => R (f a) (f b)) l -> StronglySorted R (map f l).
Proof.
  induction 1 as [|x l Hs IH Hall]; cbn; constructor; [exact IH|].
  apply Forall_map. exact Hall.
Qed.

Lemma sorted_firstn {A : Type} (R : A -> A -> Prop) (n : nat) (l : list A) :
  StronglySorted R l -> StronglySorted R (firstn n l).
Proof.
  intro Hs. revert n. induction Hs as [|x l Hs IH Hall]; intro n.
  - rewrite firstn_nil. constructor.
  - destruct n; cbn; constructor; [apply IH|].
    rewrite <- (firstn_skipn n l) in Hall. apply Forall_app in Hall. apply Hall.
Qed.

Lemma processSide_prices (levels : nat) (orders : side) (isAsk : bool) :
  StronglySorted (fun p p' => if isAsk then p <= p' else p' <= p)
    (map dlPrice (processSide levels orders isAsk)).
Proof.
  unfold processSide. rewrite cumulate_prices.
  apply sorted_map, sorted_firstn.
  apply js_sort_sorted.
  - intros a b H. destruct isAsk; apply nltb_Fin_zero in H; lra.
  - intros a b H. destruct isAsk; apply nltb_Fin_zero_false in H; lra.
  - intros a b c. destruct isAsk; lra.
Qed.

Lemma processSide_length (levels : nat) (orders : side) (isAsk : bool) :
  (List.length (processSide levels orders isAsk) <= levels)%nat.
Proof.
  unfold processSide. rewrite cumulate_length. apply firstn_le_length.
Qed.

(** [calculateMarketDepth] returns at most [levels] levels per side,
    bids by descending and asks by ascending price; each level's
    [cumulativeVolume] is the sum of the quantities down to that level,
    and the side's total volume is the sum over all returned levels. *)
Theorem depth_levels_are_bounded_and_cumulative (o : option orderBook) (levels : nat) :
  let d := calculateMarketDepth o levels in
  (List.length (bidDepth d) <= levels)%nat /\
  (List.length (askDepth d) <= levels)%nat /\
  StronglySorted (fun p p' => p' <= p) (map dlPrice (bidDepth d)) /\
  StronglySorted Qle (map dlPrice (askDepth d)) /\
  (forall k l, nth_error (bidDepth d) k = Some l ->
     cumulativeVolume l == sumDepthQuantity (firstn (S k) (bidDepth d))) /\
  (forall k l, nth_error (askDepth d) k = Some l ->
     cumulativeVolume l == sumDepthQuantity (firstn (S k) (askDepth d))) /\
  totalBidVolume d == sumDepthQuantity (bidDepth d) /\
  totalAskVolume d == sumDepthQuantity (askDepth d).
Proof.
  cbv zeta. unfold calculateMarketDepth.
  assert (Hempty : forall x : list depthLevel, x = [] ->
            (List.length x <= levels)%nat /\
            StronglySorted Qle (map dlPrice x) /\
            StronglySorted (fun p p' => p' <= p) (map dlPrice x) /\
            (forall k l, nth_error x k = Some l ->
               cumulativeVolume l == sumDepthQuantity (firstn (S k) x)) /\
            0 == sumDepthQuantity x).
  { intros x ->. cbn. repeat split; try constructor; try lia.
    intros [|k] l; discriminate. }
  destruct o as [ob|];
    [destruct (Bids ob) as [bids|], (Asks ob) as [asks|]|];
    cbn [bidDepth askDepth totalBidVolume totalAskVolume];
    try (destruct (Hempty [] eq_refl) as (H1 & H2 & H3 & H4 & H5);
         repeat split; assumption).
  split; [apply processSide_length|]. split; [apply processSide_length|].
  split; [apply (processSide_prices levels bids false)|].
  split; [apply (processSide_prices levels asks true)|].
  split; [|split; [|split]].
  - intros k l Hk. unfold processSide in *.
    rewrite (cumulate_running _ _ _ _ Hk). lra.
  - intros k l Hk. unfold processSide in *.
    rewrite (cumulate_running _ _ _ _ Hk). lra.
  - unfold sumQuantity. rewrite sumQuantity_from. lra.
  - unfold sumQuantity. rewrite sumQuantity_from. lra.
Qed.


(** *** calculateQualityMetrics *)

(** [stability] is always a finite number in [[0, 1]], and every metric
    is 0 when a best price is missing. *)
Theorem stability_is_bounded (o : option orderBook) :
  let m := calculateQualityMetrics o in
  (exists q, stability m = Fin q /\ 0 <= q /\ q <= 1) /\
  (bestBid (getBestPrices o) == 0 \/ bestAsk (getBestPrices o) == 0 ->
   qmSpread m = 0 /\ spreadBps m = Fin 0 /\ qmDepth m = 0 /\ liquidity m = Fin 0 /\
   efficiency m = Fin 0 /\ stability m = Fin 0).
Proof.
  cbv zeta. unfold calculateQualityMetrics, falsy.
  destruct (Qeq_bool (bestBid (getBestPrices o)) 0) eqn:Eb.
  { cbn. split; [exists 0; repeat split; lra | intros _; repeat split]. }
  destruct (Qeq_bool (bestAsk (getBestPrices o)) 0) eqn:Ea.
  { cbn. split; [exists 0; repeat split; lra | intros _; repeat split]. }
  cbn [orb stability].
  split.
  - pose proof (imbalance_NaN_or_in_range o 20) as Hi.
    unfold imbalanceOrZero.
    destruct (imbalance (calculateMarketDepth o 20)) as [i|].
    + destruct (Hi i eq_refl) as [[-> _]|Hr].
      * cbn. exists (1 + - Qabs 0). repeat split; cbn; lra.
      * destruct i as [q| | |]; cbn in Hr; try contradiction.
        cbn. exists (1 + - Qabs q). split; [reflexivity|].
        assert (Habs : Qabs q <= 1) by (apply Qabs_Qle_condition; lra).
        pose proof (Qabs_nonneg q). lra.
    + cbn. exists (1 + - Qabs 0). repeat split; cbn; lra.
  - intros [H|H]; apply Qeq_bool_iff in H; congruence.
Qed.

(** *** calculateOptimalSizing *)


(** *** compareOrderBooks *)

Section SortingOn.

Context {A : Type}.
Variable cmp : A -> A -> num.
Variable before : A -> A -> Prop.
Variable regular : A -> Prop.

(** The comparator decides a total preorder on the regular elements. *)
Hypothesis cmp_negative :
  forall a b, regular a -> regular b -> nltb (cmp a b) (Fin 0) = true -> before a b.
Hypothesis cmp_other :
  forall a b, regular a -> regular b -> nltb (cmp a b) (Fin 0) = false -> before b a.
Hypothesis before_trans : forall a b c, before a b -> before b c -> before a c.

Lemma insert_by_sorted_on (x : A) (l : list A) :
  regular x -> Forall regular l ->
  StronglySorted before l -> StronglySorted before (insert_by cmp x l).
Proof.
  intros Hx Hl Hs. induction Hs as [|y l Hs IH Hall]; cbn [insert_by].
  - repeat constructor.
  - inversion Hl as [|? ? Hy Hl']; subst.
    destruct (nltb (cmp y x) (Fin 0)) eqn:E.
    + constructor; [apply IH; exact Hl'|].
      apply (Permutation_Forall (Permutation_sym (insert_by_perm cmp x l))).
      constructor; [apply cmp_negative; assumption | exact Hall].
    + assert (Hxy : before x y) by (apply cmp_other; assumption).
      constructor; [constructor; assumption|].
      constructor; [exact Hxy|].
      eapply Forall_impl; [|exact Hall].
      intros z Hz. eapply before_trans; eassumption.
Qed.

Lemma js_sort_sorted_on (l : list A) :
  Forall regular l -> StronglySorted before (js_sort cmp l).
Proof.
  induction l as [|x l IH]; intro Hl; cbn [js_sort fold_right].
  - constructor.
  - inversion Hl as [|? ? Hx Hl']; subst.
    apply insert_by_sorted_on; [exact Hx | | apply IH; exact Hl'].
    apply (Permutation_Forall (Permutation_sym (js_sort_perm cmp l))). exact Hl'.
Qed.

End SortingOn.

(** Two elements of a list at different positions, the first before the
    second. *)
Definition apart {A : Type} (l : list A) (x y : A) : Prop :=
  exists pre mid post, l = pre ++ x :: mid ++ y :: post.

(** An opportunity between two of the given exchanges, which sit at
    different positions of [data]: bought at the best ask of one, sold at
    the higher best bid of the other. *)
Definition crossing (data : list exchangeInfo) (o : opportunity) : Prop :=
  exists b s,
    (apart data b s \/ apart data s b) /\
    o = opportunityOf b s /\ eiBestAsk b < eiBestBid s.

Lemma arbitrageWith_crossing (b : exchangeInfo) (rest : list exchangeInfo) :
  forall o, In o (arbitrageWith b rest) -> crossing (b :: rest) o.
Proof.
  induction rest as [|s rest IH]; intros o Ho; [contradiction|].
  cbn [arbitrageWith] in Ho.
  apply in_app_or in Ho. destruct Ho as [Ho|Ho].
  { destruct (Qltb (eiBestAsk b) (eiBestBid s)) eqn:E; [|contradiction].
    destruct Ho as [<-|[]]. apply Qltb_lt in E.
    exists b, s. split; [|split; [reflexivity | exact E]].
    left. exists [], [], rest. reflexivity. }
  apply in_app_or in Ho. destruct Ho as [Ho|Ho].
  { destruct (Qltb (eiBestAsk s) (eiBestBid b)) eqn:E; [|contradiction].
    destruct Ho as [<-|[]]. apply Qltb_lt in E.
    exists s, b. split; [|split; [reflexivity | exact E]].
    right. exists [], [], rest. reflexivity. }
  destruct (IH _ Ho) as (b' & s' & Hpos & Hrest).
  exists b', s'. split; [|exact Hrest].
  assert (Hskip : forall x y, apart (b :: rest) x y -> apart (b :: s :: rest) x y).
  { intros x y (pre & mid & post & E).
    destruct pre as [|p pre]; cbn [app] in E.
    - injection E as <- ->. exists [], (s :: mid), post. reflexivity.
    - injection E as <- ->. exists (b :: s :: pre), mid, post. reflexivity. }
  destruct Hpos as [H|H]; [left | right]; apply Hskip; exact H.
Qed.

Lemma findArbitrage_crossing (data : list exchangeInfo) :
  forall o, In o (findArbitrage data) -> crossing data o.
Proof.
  induction data as [|b rest IH]; intros o Ho; [contradiction|].
  cbn [findArbitrage] in Ho. apply in_app_or in Ho. destruct Ho as [Ho|Ho].
  - apply arbitrageWith_crossing. exact Ho.
  - destruct (IH _ Ho) as (b' & s' & Hpos & Hrest).
    exists b', s'. split; [|exact Hrest].
    assert (Hskip : forall x y, apart rest x y -> apart (b :: rest) x y).
    { intros x y (pre & mid & post & ->). exists (b :: pre), mid, post. reflexivity. }
    destruct Hpos as [H|H]; [left | right]; apply Hskip; exact H.
Qed.

(** The percentage of a profitable purchase at a positive price. *)
Lemma profitPercent_positive (p a : Q) :
  0 < a -> 0 < p ->
  nmul (jsdiv p a) (Fin 100) = Fin (p / a * 100) /\ 0 < p / a * 100.
Proof.
  intros Ha Hp.
  rewrite jsdiv_nonzero by lra.
  assert (Hq : 0 < p / a) by (apply Qlt_shift_div_l; lra).
  split; [|lra].
  unfold nmul. cbn [nsign].
  reflexivity.
Qed.

(** The order of the sorted opportunities: the percentage of a later
    entry is not greater than that of an earlier one. *)
Definition rankedBefore (a b : opportunity) : Prop :=
  ngtb (profitPercent b) (profitPercent a) = false.

(** The same order on percentages that are finite numbers. *)
Definition finiteRank (a b : opportunity) : Prop :=
  exists x y, profitPercent a = Fin x /\ profitPercent b = Fin y /\ y <= x.

Lemma finiteRank_trans (a b c : opportunity) :
  finiteRank a b -> finiteRank b c -> finiteRank a c.
Proof.
  intros (x & y & Ha & Hb & Hxy) (y' & z & Hb' & Hc & Hyz).
  rewrite Hb in Hb'. injection Hb' as <-.
  exists x, z. repeat split; try assumption. lra.
Qed.

Lemma finiteRank_ranked (a b : opportunity) : finiteRank a b -> rankedBefore a b.
Proof.
  intros (x & y & Ha & Hb & Hxy). unfold rankedBefore. rewrite Ha, Hb.
  cbn [ngtb]. apply Qltb_ge. exact Hxy.
Qed.

Lemma byProfitPercent_ranks (a b : opportunity) :
  (exists x, profitPercent a = Fin x) -> (exists y, profitPercent b = Fin y) ->
  (nltb (byProfitPercent a b) (Fin 0) = true -> finiteRank a b) /\
  (nltb (byProfitPercent a b) (Fin 0) = false -> finiteRank b a).
Proof.
  intros [x Hx] [y Hy]. unfold byProfitPercent, finiteRank.
  rewrite Hx, Hy. unfold nsub, nneg, nadd.
  split; intro H.
  - apply nltb_Fin_zero in H. exists x, y. repeat split. lra.
  - apply nltb_Fin_zero_false in H. exists y, x. repeat split. lra.
Qed.

(** Two books that pass the filter, the first before the second. *)
Definition survivingPair (books : list orderBook) (b s : orderBook) : Prop :=
  exists pre mid post, filter survives books = pre ++ b :: mid ++ s :: post.

(** What an entry of [arbitrage] says about the books that survive the
    filter: it buys at the best ask of one and sells at the higher best
    bid of another, which is a different element of the array. *)
Definition profitableBetween (books : list orderBook) (o : opportunity) : Prop :=
  exists b s,
    (survivingPair books b s \/ survivingPair books s b) /\
    buyExchange o = exchangeName b /\ sellExchange o = exchangeName s /\
    buyPrice o = bestAsk (getBestPrices (Some b)) /\
    sellPrice o = bestBid (getBestPrices (Some s)) /\
    0 < buyPrice o /\ buyPrice o < sellPrice o /\
    profit o = sellPrice o - buyPrice o /\
    profitPercent o = nmul (jsdiv (profit o) (buyPrice o)) (Fin 100).

Lemma apart_map (books : list orderBook) (x y : exchangeInfo) :
  apart (map infoOf books) x y ->
  exists b s, x = infoOf b /\ y = infoOf s /\
              exists pre mid post, books = pre ++ b :: mid ++ s :: post.
Proof.
  intros (pre & mid & post & E).
  apply map_eq_app in E. destruct E as (pre' & tl1 & -> & _ & E).
  apply map_eq_cons in E. destruct E as (b & tl2 & -> & <- & E).
  apply map_eq_app in E. destruct E as (mid' & tl3 & -> & _ & E).
  apply map_eq_cons in E. destruct E as (s & post' & -> & <- & _).
  exists b, s. split; [reflexivity|]. split; [reflexivity|].
  exists pre', mid', post'. reflexivity.
Qed.

Lemma crossing_profitable (books : list orderBook) (o : opportunity) :
  crossing (map infoOf (filter survives books)) o ->
  profitableBetween books o /\ exists x, profitPercent o = Fin x.
Proof.
  intros (b & s & Hpos & -> & Hlt).
  assert (Hpair : exists ob os, b = infoOf ob /\ s = infoOf os /\
                    (survivingPair books ob os \/ survivingPair books os ob)).
  { destruct Hpos as [H|H]; apply apart_map in H.
    - destruct H as (ob & os & -> & -> & H). exists ob, os. repeat split. left. exact H.
    - destruct H as (os & ob & -> & -> & H). exists ob, os. repeat split. right. exact H. }
  destruct Hpair as (ob & os & -> & -> & Hpair).
  assert (Hob : In ob (filter survives books)).
  { destruct Hpair as [(pre & mid & post & E)|(pre & mid & post & E)]; rewrite E.
    - apply in_or_app. right. left. reflexivity.
    - apply in_or_app. right. right. apply in_or_app. right. left. reflexivity. }
  assert (Hask : 0 < bestAsk (getBestPrices (Some ob))).
  { apply filter_In in Hob. destruct Hob as [_ Hsv].
    unfold survives in Hsv. apply andb_true_iff in Hsv. destruct Hsv as [_ Hsv].
    apply Qltb_lt in Hsv. exact Hsv. }
  change (eiBestAsk (infoOf ob)) with (bestAsk (getBestPrices (Some ob))) in Hlt.
  change (eiBestBid (infoOf os)) with (bestBid (getBestPrices (Some os))) in Hlt.
  split.
  - exists ob, os. split; [exact Hpair|]. cbn [opportunityOf buyExchange sellExchange
      buyPrice sellPrice profit profitPercent].
    repeat split; try assumption.
  - assert (Hprofit : 0 < bestBid (getBestPrices (Some os))
                          - bestAsk (getBestPrices (Some ob))) by lra.
    destruct (profitPercent_positive _ _ Hask Hprofit) as [Hfin _].
    eexists. cbn [opportunityOf profitPercent]. exact Hfin.
Qed.

Lemma sorted_weaken {A : Type} (R R' : A -> A -> Prop) (l : list A) :
  (forall a b, R a b -> R' a b) -> StronglySorted R l -> StronglySorted R' l.
Proof.
  intros Himp Hs. induction Hs as [|x l Hs IH Hall]; constructor.
  - exact IH.
  - eapply Forall_impl; [|exact Hall]. intros y Hy. apply Himp. exact Hy.
Qed.

(** On books that are all present, [compareOrderBooks] returns; every
    entry of [arbitrage] buys at the positive best ask of one surviving
    book and sells at the strictly higher best bid of another surviving
    book, a different element of the array; its profit is the difference
    of the two prices and its percentage is that profit over the buying
    price, times 100; and no entry has a percentage greater than that of
    an entry before it. *)
Theorem arbitrage_is_profitable_and_ranked (books : list orderBook) :
  exists r,
    compareOrderBooks (map Some books) = Returned r /\
    Forall (profitableBetween books) (arbitrage r) /\
    StronglySorted rankedBefore (arbitrage r).
Proof.
  destruct (compareOrderBooks_present books) as [-> _].
  eexists. split; [reflexivity|].
  set (data := map infoOf (filter survives books)).
  assert (Hall : Forall (fun o => profitableBetween books o /\
                                  exists x, profitPercent o = Fin x)
                   (findArbitrage data)).
  { apply Forall_forall. intros o Ho.
    apply crossing_profitable, findArbitrage_crossing. exact Ho. }
  assert (Hperm : Forall (fun o => profitableBetween books o /\
                                   exists x, profitPercent o = Fin x)
                    (js_sort byProfitPercent (findArbitrage data)))
    by (apply (Permutation_Forall (Permutation_sym (js_sort_perm _ _))); exact Hall).
  assert (Hsorted : Forall (profitableBetween books)
                      (js_sort byProfitPercent (findArbitrage data)) /\
                    StronglySorted rankedBefore
                      (js_sort byProfitPercent (findArbitrage data))).
  { split.
    - eapply Forall_impl; [|exact Hperm]. intros o [Ho _]. exact Ho.
    - apply (sorted_weaken finiteRank); [apply finiteRank_ranked|].
      apply js_sort_sorted_on with (regular := fun o => exists x, profitPercent o = Fin x).
      + intros a b Ha Hb. apply (byProfitPercent_ranks a b Ha Hb).
      + intros a b Ha Hb. apply (byProfitPercent_ranks a b Ha Hb).
      + apply finiteRank_trans.
      + eapply Forall_impl; [|exact Hall]. intros o [_ Ho]. exact Ho. }
  unfold analysis.
  destruct data as [|d1 [|d2 ds]]; cbn [arbitrage emptyComparison];
    try (split; constructor).
  exact Hsorted.
Qed.

Lemma arbitrageWith_finds (b s : exchangeInfo) (mid post : list exchangeInfo) :
  (eiBestAsk b < eiBestBid s -> In (opportunityOf b s) (arbitrageWith b (mid ++ s :: post))) /\
  (eiBestAsk s < eiBestBid b -> In (opportunityOf s b) (arbitrageWith b (mid ++ s :: post))).
Proof.
  induction mid as [|m mid IH]; cbn [app arbitrageWith].
  - split; intro H; apply Qltb_lt in H; rewrite H.
    + left. reflexivity.
    + apply in_or_app. right. left. reflexivity.
  - split; intro H; apply in_or_app; right; apply in_or_app; right; apply IH; exact H.
Qed.

Lemma findArbitrage_finds (b s : exchangeInfo) (pre mid post : list exchangeInfo) :
  (eiBestAsk b < eiBestBid s ->
   In (opportunityOf b s) (findArbitrage (pre ++ b :: mid ++ s :: post))) /\
  (eiBestAsk s < eiBestBid b ->
   In (opportunityOf s b) (findArbitrage (pre ++ b :: mid ++ s :: post))).
Proof.
  induction pre as [|p pre IH]; cbn [app findArbitrage].
  - split; intro H; apply in_or_app; left; apply arbitrageWith_finds; exact H.
  - split; intro H; apply in_or_app; right; apply IH; exact H.
Qed.

(** Every crossing between two surviving books is reported, in either
    direction: when the best ask of one lies below the best bid of the
    other, [arbitrage] has the entry that buys at that ask and sells at
    that bid. *)
Theorem arbitrage_finds_every_crossing (books : list orderBook) (b s : orderBook)
  (Hpair : survivingPair books b s \/ survivingPair books s b)
  (Hcross : bestAsk (getBestPrices (Some b)) < bestBid (getBestPrices (Some s))) :
  exists r o,
    compareOrderBooks (map Some books) = Returned r /\
    In o (arbitrage r) /\
    buyExchange o = exchangeName b /\ sellExchange o = exchangeName s /\
    buyPrice o = bestAsk (getBestPrices (Some b)) /\
    sellPrice o = bestBid (getBestPrices (Some s)) /\
    profit o = sellPrice o - buyPrice o.
Proof.
  destruct (compareOrderBooks_present books) as [-> _].
  exists (analysis (map infoOf (filter survives books))), (opportunityOf (infoOf b) (infoOf s)).
  split; [reflexivity|]. split; [|repeat split].
  assert (Hin : In (opportunityOf (infoOf b) (infoOf s))
                   (findArbitrage (map infoOf (filter survives books)))).
  { destruct Hpair as [(pre & mid & post & ->)|(pre & mid & post & ->)];
      rewrite map_app; cbn [map]; rewrite map_app; cbn [map].
    - apply findArbitrage_finds. exact Hcross.
    - apply findArbitrage_finds. exact Hcross. }
  assert (Hlen : exists d1 d2 ds, map infoOf (filter survives books) = d1 :: d2 :: ds).
  { destruct Hpair as [(pre & mid & post & ->)|(pre & mid & post & ->)];
      rewrite map_app; cbn [map]; rewrite map_app; cbn [map];
      destruct pre as [|p1 [|p2 pre]]; cbn [map app];
      try (destruct mid as [|m mid]; cbn [map app]); eauto. }
  destruct Hlen as (d1 & d2 & ds & Hdata).
  unfold analysis. rewrite Hdata in *. cbn [arbitrage].
  apply (Permutation_in _ (Permutation_sym (js_sort_perm _ _))). exact Hin.
Qed.

(** An exchange whose bid lies above the ask of [tradableBook]. *)
Definition higherBook : orderBook :=
  {| Bids := Some [(Some 101, Some 1)]; Asks := Some [(Some 102, Some 1)];
     Sources := Some ["B"%string]; Exchange := None |}.

Lemma arbitrage_finds_every_crossing_witness :
  exists r o,
    compareOrderBooks (map Some [higherBook; tradableBook]) = Returned r /\
    In o (arbitrage r) /\
    buyExchange o = "A"%string /\ sellExchange o = "B"%string /\
    buyPrice o = 100 /\ sellPrice o = 101.
Proof.
  assert (Hpair : survivingPair [higherBook; tradableBook] tradableBook higherBook \/
                  survivingPair [higherBook; tradableBook] higherBook tradableBook).
  { right. exists [], [], []. vm_compute. reflexivity. }
  assert (Hcross : bestAsk (getBestPrices (Some tradableBook))
                   < bestBid (getBestPrices (Some higherBook)))
    by (vm_compute; reflexivity).
  destruct (arbitrage_finds_every_crossing _ _ _ Hpair Hcross)
    as (r & o & Hr & Ho & Hb & Hs & Hbp & Hsp & _).
  exists r, o. repeat split; assumption.
Defined.

(** *** calculateVolumeStats *)

Import CalculatorRest.

Lemma first_or_zero_cases (cmp : Q -> Q -> num) (l : list Q) :
  (l = [] /\ first_or_zero (js_sort cmp l) = 0) \/ In (first_or_zero (js_sort cmp l)) l.
Proof.
  pose proof (js_sort_perm cmp l) as Hp.
  destruct (js_sort cmp l) as [|x rest] eqn:E.
  - left. split; [|reflexivity]. apply Permutation_nil. exact Hp.
  - right. apply (Permutation_in _ Hp). left. reflexivity.
Qed.

(** The shape of the best prices of any book: both are non-negative and
    each is zero or a key of its map; the mid price and the relative
    spread are zero unless both are positive. *)
Lemma bestPrices_shape (o : option orderBook) :
  let bp := getBestPrices o in
  spread bp = bestAsk bp - bestBid bp /\
  ((0 < bestBid bp /\ 0 < bestAsk bp /\
    midPrice bp = (bestBid bp + bestAsk bp) / 2 /\
    spreadPercent bp = (spread bp / midPrice bp) * 100 /\
    exists ob bids asks,
      o = Some ob /\ Bids ob = Some bids /\ Asks ob = Some asks /\
      (exists q, In (Some (bestBid bp), q) bids) /\
      (exists q, In (Some (bestAsk bp), q) asks)) \/
   ((bestBid bp = 0 \/ bestAsk bp = 0) /\ 0 <= bestBid bp /\ 0 <= bestAsk bp /\
    midPrice bp = 0 /\ spreadPercent bp = 0)).
Proof.
  cbv zeta.
  assert (Hzero : spread zeroPrices = bestAsk zeroPrices - bestBid zeroPrices /\
            ((bestBid zeroPrices = 0 \/ bestAsk zeroPrices = 0) /\
             0 <= bestBid zeroPrices /\ 0 <= bestAsk zeroPrices /\
             midPrice zeroPrices = 0 /\ spreadPercent zeroPrices = 0)).
  { cbn. repeat split; try reflexivity; try lra. left. reflexivity. }
  destruct o as [ob|]; [|cbn [getBestPrices]; split; [apply Hzero | right; apply Hzero]].
  unfold getBestPrices.
  destruct (Bids ob) as [bids|] eqn:Hbids, (Asks ob) as [asks|] eqn:Hasks;
    try (split; [apply Hzero | right; apply Hzero]).
  cbn [bestBid bestAsk midPrice spreadPercent spread].
  split; [reflexivity|].
  pose proof (first_or_zero_cases descending (positivePrices bids)) as Hb.
  pose proof (first_or_zero_cases ascending (positivePrices asks)) as Ha.
  set (bb := first_or_zero (js_sort descending (positivePrices bids))) in *.
  set (ba := first_or_zero (js_sort ascending (positivePrices asks))) in *.
  assert (Hb' : bb = 0 \/ ((exists q, In (Some bb, q) bids) /\ 0 < bb)).
  { destruct Hb as [[_ Hb]|Hb]; [left; exact Hb | right].
    apply positivePrices_In. exact Hb. }
  assert (Ha' : ba = 0 \/ ((exists q, In (Some ba, q) asks) /\ 0 < ba)).
  { destruct Ha as [[_ Ha]|Ha]; [left; exact Ha | right].
    apply positivePrices_In. exact Ha. }
  clear Hb Ha.
  destruct Hb' as [Hb|[Hbkey Hbpos]].
  { right. rewrite Hb. cbn [andb].
    change (Qltb 0 0) with false. cbn [andb].
    change (Qltb 0 0) with false.
    destruct Ha' as [Ha|[_ Ha]]; [rewrite Ha|]; repeat split; auto; lra. }
  destruct Ha' as [Ha|[Hakey Hapos]].
  { right. rewrite Ha. rewrite andb_false_r.
    change (Qltb 0 0) with false.
    repeat split; auto; lra. }
  left.
  assert (E1 : Qltb 0 bb = true) by (apply Qltb_lt; exact Hbpos).
  assert (E2 : Qltb 0 ba = true) by (apply Qltb_lt; exact Hapos).
  rewrite E1, E2. cbn [andb].
  assert (Hmid : 0 < (bb + ba) / 2) by (apply Qlt_shift_div_l; lra).
  assert (E3 : Qltb 0 ((bb + ba) / 2) = true) by (apply Qltb_lt; exact Hmid).
  rewrite E3.
  repeat split; auto.
  exists ob, bids, asks. repeat split; auto.
Qed.

Lemma falsy_zero (x : Q) : falsy x = true <-> x == 0.
Proof. unfold falsy. apply Qeq_bool_iff. Qed.

Lemma falsy_prices (o : option orderBook) :
  falsy (bestBid (getBestPrices o)) || falsy (bestAsk (getBestPrices o)) = true <->
  bestBid (getBestPrices o) == 0 \/ bestAsk (getBestPrices o) == 0.
Proof. rewrite orb_true_iff, !falsy_zero. reflexivity. Qed.

(** [calculateVolumeStats] returns for every argument, a missing book
    included: the guard on the best prices keeps the property accesses
    from a missing book.  The total is the sum of the two volumes, and
    the short result without [volumeRatio] is returned exactly when a
    best price is zero. *)
Theorem volume_stats_never_throw (o : option orderBook) (priceRange : Q) :
  exists v,
    calculateVolumeStats o priceRange = Returned v /\
    totalVolume v = nadd (bidVolume v) (askVolume v) /\
    (volumeRatio v = None <->
     bestBid (getBestPrices o) == 0 \/ bestAsk (getBestPrices o) == 0).
Proof.
  unfold calculateVolumeStats.
  pose proof (falsy_prices o) as Hfalsy.
  destruct (falsy (bestBid (getBestPrices o)) || falsy (bestAsk (getBestPrices o))) eqn:E.
  { eexists. split; [reflexivity|]. cbn.
    split; [reflexivity|].
    split; [intros _; apply Hfalsy; reflexivity | reflexivity]. }
  assert (Hnz : ~ (bestBid (getBestPrices o) == 0 \/ bestAsk (getBestPrices o) == 0)).
  { intro H. apply Hfalsy in H. discriminate. }
  destruct (bestPrices_shape o) as [_ [Hpos|Hz]].
  2:{ exfalso. apply Hnz. destruct Hz as [[Hz|Hz] _]; rewrite Hz; [left|right]; reflexivity. }
  destruct Hpos as (Hb & Ha & _ & _ & ob & bids & asks & -> & Hbids & Hasks & _).
  eexists. split; [reflexivity|].
  cbn [bidVolume askVolume totalVolume volumeRatio].
  split; [reflexivity|].
  split; [discriminate | intro H; contradiction].
Qed.






(** *** validateOrderBook *)

(** The best prices cross: the best bid is not below a positive best
    ask. *)
Definition crossed (bp : bestPrices) : Prop :=
  0 < bestAsk bp /\ bestAsk bp <= bestBid bp.

Lemma crossed_test (bp : bestPrices) :
  Qle_bool (bestAsk bp) (bestBid bp) && Qltb 0 (bestBid bp) && Qltb 0 (bestAsk bp) = true
  <-> crossed bp.
Proof.
  unfold crossed. rewrite !andb_true_iff, !Qltb_lt, Qle_bool_iff.
  split; [tauto|]. intros [H1 H2]. repeat split; try assumption. lra.
Qed.

Lemma large_spread_not_crossed (o : option orderBook) :
  10 < spreadPercent (getBestPrices o) ->
  0 < bestBid (getBestPrices o) /\
  bestBid (getBestPrices o) < bestAsk (getBestPrices o).
Proof.
  intro Hlarge.
  destruct (bestPrices_shape o) as [Hspread [Hpos|Hz]].
  2:{ destruct Hz as (_ & _ & _ & _ & Hsp). rewrite Hsp in Hlarge. lra. }
  destruct Hpos as (Hb & Ha & Hmid & Hsp & _).
  split; [exact Hb|].
  set (bp := getBestPrices o) in *.
  assert (Hm : 0 < midPrice bp) by (rewrite Hmid; apply Qlt_shift_div_l; lra).
  destruct (Qlt_le_dec (bestBid bp) (bestAsk bp)) as [Hlt|Hle]; [exact Hlt|].
  exfalso.
  assert (Hs : spread bp <= 0) by (rewrite Hspread; lra).
  assert (Hq : spread bp / midPrice bp <= 0).
  { apply Qle_shift_div_r; [exact Hm | lra]. }
  rewrite Hsp in Hlarge. lra.
Qed.

(** The verdict of [validateOrderBook].  The book is valid exactly when
    it is present with both maps and its best prices do not cross, which
    is also when no issue is listed; [metrics] are the best prices of a
    book with both maps and absent otherwise; warnings come only with
    [metrics]; a large-spread warning carries a relative spread above 10
    of an uncrossed book, so it never accompanies the crossed-book issue;
    and a book with an empty map is never reported as crossed. *)
Theorem validation_verdict (o : option stampedBook) (now : Z) :
  let v := validateOrderBook o now in
  (isValid v = true <-> issues v = []) /\
  (isValid v = true <->
   exists sb bids asks,
     o = Some sb /\ Bids (bookOf sb) = Some bids /\ Asks (bookOf sb) = Some asks /\
     ~ crossed (getBestPrices (Some (bookOf sb)))) /\
  (metrics v = None <->
   match o with
   | Some sb => Bids (bookOf sb) = None \/ Asks (bookOf sb) = None
   | None => True
   end) /\
  (forall m, metrics v = Some m ->
     exists sb, o = Some sb /\ m = getBestPrices (Some (bookOf sb))) /\
  (metrics v = None -> warnings v = []) /\
  (forall p, In (LargeSpread p) (warnings v) ->
     10 < p /\ ~ In CrossedBook (issues v) /\
     exists m, metrics v = Some m /\ p = spreadPercent m /\
               0 < bestBid m /\ bestBid m < bestAsk m) /\
  (In NoBids (warnings v) \/ In NoAsks (warnings v) -> ~ In CrossedBook (issues v)).
Proof.
  cbv zeta. unfold validateOrderBook.
  destruct o as [sb|].
  2:{ cbn [isValid issues warnings metrics].
      split; [split; discriminate|].
      split; [split; [discriminate | intros (sb & bids & asks & H & _); discriminate]|].
      split; [split; [exact (fun _ => I) | reflexivity]|].
      split; [discriminate|]. split; [reflexivity|].
      split; [intros p [] | intros [[]|[]]]. }
  destruct (Bids (bookOf sb)) as [bids|] eqn:Hbids;
    destruct (Asks (bookOf sb)) as [asks|] eqn:Hasks.
  2,3,4: cbn [isValid issues warnings metrics];
    (split; [split; discriminate|]);
    (split; [split; [discriminate|];
             intros (sb' & bids' & asks' & H & H1 & H2 & _); injection H as <-; congruence|]);
    (split; [split; [intros _; auto | reflexivity]|]);
    (split; [discriminate|]); (split; [reflexivity|]);
    (split; [intros p [] | intros [[]|[]]]).
  set (bp := getBestPrices (Some (bookOf sb))).
  cbn [app isValid issues warnings metrics].
  pose proof (crossed_test bp) as Hcross.
  pose proof (large_spread_not_crossed (Some (bookOf sb))) as Hlarge. fold bp in Hlarge.
  assert (Hempty : noKeys bids = true \/ noKeys asks = true -> ~ crossed bp).
  { intros Hk [Hc1 Hc2]. subst bp. unfold getBestPrices in Hc1, Hc2.
    rewrite Hbids, Hasks in Hc1, Hc2. cbn [bestBid bestAsk] in Hc1, Hc2.
    destruct Hk as [Hk|Hk].
    - destruct bids; [|discriminate]. cbn in Hc2. lra.
    - destruct asks; [|discriminate]. cbn in Hc1. lra. }
  destruct (Qle_bool (bestAsk bp) (bestBid bp) && Qltb 0 (bestBid bp)
            && Qltb 0 (bestAsk bp)) eqn:E.
  - assert (Hc : crossed bp) by (apply Hcross; reflexivity).
    cbn [List.length Nat.eqb].
    split; [split; discriminate|].
    split; [split; [discriminate|]|].
    { intros (sb' & bids' & asks' & H & _ & _ & Hn). injection H as <-. contradiction. }
    split; [split; [discriminate | intros [H|H]; discriminate]|].
    split; [intros m H; injection H as <-; exists sb; split; reflexivity|].
    split; [discriminate|].
    split.
    + intros p Hp. exfalso.
      apply in_app_or in Hp. destruct Hp as [Hp|Hp].
      * destruct (Qltb 10 (spreadPercent bp)) eqn:E10; [|contradiction].
        apply Qltb_lt in E10. destruct (Hlarge E10) as [_ Hlt].
        destruct Hc. lra.
      * repeat (apply in_app_or in Hp; destruct Hp as [Hp|Hp]);
          repeat match goal with
                 | H : In _ (if ?c then _ else _) |- _ => destruct c
                 end;
          repeat match goal with
                 | H : In _ _ |- _ => destruct H as [H|H]; try discriminate
                 end; try contradiction.
    + intros Hw _. apply Hempty; [|exact Hc].
      destruct Hw as [Hw|Hw].
      * left. apply in_app_or in Hw. destruct Hw as [Hw|Hw].
        { destruct (Qltb 10 (spreadPercent bp)); [destruct Hw as [Hw|[]]; discriminate
                                                 | contradiction]. }
        apply in_app_or in Hw. destruct Hw as [Hw|Hw].
        { destruct (noKeys bids); [reflexivity | contradiction]. }
        exfalso.
        apply in_app_or in Hw. destruct Hw as [Hw|Hw].
        { destruct (noKeys asks); [destruct Hw as [Hw|[]]; discriminate | contradiction]. }
        destruct (stale _ _); [destruct Hw as [Hw|[]]; discriminate | contradiction].
      * right. apply in_app_or in Hw. destruct Hw as [Hw|Hw].
        { destruct (Qltb 10 (spreadPercent bp)); [destruct Hw as [Hw|[]]; discriminate
                                                 | contradiction]. }
        apply in_app_or in Hw. destruct Hw as [Hw|Hw].
        { exfalso.
          destruct (noKeys bids); [destruct Hw as [Hw|[]]; discriminate | contradiction]. }
        apply in_app_or in Hw. destruct Hw as [Hw|Hw].
        { destruct (noKeys asks); [reflexivity | contradiction]. }
        exfalso.
        destruct (stale _ _); [destruct Hw as [Hw|[]]; discriminate | contradiction].
  - assert (Hc : ~ crossed bp) by (intro H; apply Hcross in H; congruence).
    cbn [List.length Nat.eqb].
    split; [split; reflexivity|].
    split; [split; [intros _; exists sb, bids, asks; repeat split; assumption
                   | reflexivity]|].
    split; [split; [discriminate | intros [H|H]; discriminate]|].
    split; [intros m H; injection H as <-; exists sb; split; reflexivity|].
    split; [discriminate|].
    split; [|intros _ []].
    intros p Hp.
    assert (Hp' : 10 < p /\ p = spreadPercent bp).
    { apply in_app_or in Hp. destruct Hp as [Hp|Hp].
      - destruct (Qltb 10 (spreadPercent bp)) eqn:E10; [|contradiction].
        apply Qltb_lt in E10. destruct Hp as [Hp|[]]. injection Hp as <-.
        split; [exact E10 | reflexivity].
      - exfalso.
        repeat (apply in_app_or in Hp; destruct Hp as [Hp|Hp]);
          repeat match goal with
                 | H : In _ (if ?c then _ else _) |- _ => destruct c
                 end;
          repeat match goal with
                 | H : In _ _ |- _ => destruct H as [H|H]; try discriminate
                 end; try contradiction. }
    destruct Hp' as [H10 ->].
    split; [exact H10|]. split; [intros []|].
    exists bp. split; [reflexivity|]. split; [reflexivity|].
    apply Hlarge. exact H10.
Qed.
End CalculatorMore.

(* ------------------------------------------------------------------ *)
(** * Further properties of OrderBookWebSocketService *)

Module ServiceMore.
Import JsNum NumFacts Wire Service TimerFacts ServiceFacts.

(** Reduction of the field projections over the setters. *)
Ltac projections :=
  cbn [options ws isConnected isConnecting reconnectAttempts lastConnectTime connectionId
       messageQueue subscriptions reconnectTimer heartbeatTimer connectionTimer stats
       latencyMeasurements pending nextTimer nextSocket effects
       set_ws set_isConnected set_isConnecting set_reconnectAttempts set_lastConnectTime
       set_connectionId set_messageQueue set_subscriptions set_reconnectTimer
       set_heartbeatTimer set_connectionTimer set_stats set_latencyMeasurements
       set_pending set_nextTimer set_nextSocket set_effects
       emit perform countError countReconnect countMessage addUptime addBytesSent
       totalMessages totalErrors totalReconnects bytesReceived bytesSent averageLatency
       connectionUptime fst snd].

(** *** Timers *)

(** In every state a service can reach, at most one reconnect timer is
    pending, and it is the one [reconnectTimer] holds; the handles of the
    pending timers are distinct and were all issued by the environment. *)
Theorem reconnect_timers_never_pile_up (o : serviceOptions) (s : service)
  (Hreach : reachable o s) :
  (List.length (reconnectIds (pending s)) <= 1)%nat /\
  (reconnectTimer s = None <-> reconnectIds (pending s) = []) /\
  (forall id, reconnectTimer s = Some id <-> reconnectIds (pending s) = [id]) /\
  NoDup (map timerId (pending s)) /\
  (forall t, In t (pending s) -> (timerId t < nextTimer s)%positive).
Proof.
  destruct (reachable_timersOk o s Hreach) as [Hfresh Hnodup Hrec _ _].
  rewrite Hrec.
  destruct (reconnectTimer s) as [id|]; cbn [List.length];
    repeat split; try lia; try assumption; try discriminate; try congruence.
Qed.

Lemma reconnect_timers_never_pile_up_witness :
  (List.length
     (reconnectIds
        (pending (handleConnectionClose false 0 (1 # 2) (create defaultOptions)))) <= 1)%nat.
Proof.
  assert (Hr : validRandom (1 # 2)) by (split; lra).
  assert (Hreach : reachable defaultOptions
                     (handleConnectionClose false 0 (1 # 2) (create defaultOptions))).
  { eapply ReachStep; [apply ReachCreate | apply StepClose; exact Hr]. }
  destruct (reconnect_timers_never_pile_up _ _ Hreach) as [H _]. exact H.
Defined.

(** *** Subscriptions *)

Lemma existsb_eqb_In (x : string) (l : list string) :
  existsb (String.eqb x) l = true <-> In x l.
Proof.
  rewrite existsb_exists. split.
  - intros (y & Hy & E). apply String.eqb_eq in E. subst. exact Hy.
  - intro H. exists x. split; [exact H | apply String.eqb_refl].
Qed.


Lemma setAdd_member (x : string) (l : list string) : In x l -> setAdd x l = l.
Proof.
  intro H. unfold setAdd. apply existsb_eqb_In in H. rewrite H. reflexivity.
Qed.




(** The set of subscriptions holds upper-cased symbols, each once. *)
Definition subscriptionsOk (s : service) : Prop :=
  NoDup (subscriptions s) /\
  Forall (fun symbol => toUpperCase symbol = symbol) (subscriptions s).

Lemma subscriptionsOk_same (s s' : service) :
  subscriptions s' = subscriptions s -> subscriptionsOk s -> subscriptionsOk s'.
Proof. unfold subscriptionsOk. intros ->. auto. Qed.

Lemma send_subscriptions (data : payload) (s : service) :
  subscriptions (snd (send data s)) = subscriptions s.
Proof. unfold send. destruct (isConnected s), (ws s); reflexivity. Qed.

Lemma subscribe_subscriptions (symbol : string) (now : Z) (s : service) :
  subscriptions (snd (subscribe symbol now s))
  = setAdd (toUpperCase symbol) (subscriptions s).
Proof. unfold subscribe, sendJSON. rewrite send_subscriptions. reflexivity. Qed.


(** Subscribing again to members of the set leaves the set as it is. *)
Lemma resubscribe_members (now : Z) (symbols : list string) :
  forall s,
  Forall (fun symbol => toUpperCase symbol = symbol /\ In symbol (subscriptions s)) symbols ->
  subscriptions (fold_left (fun acc symbol => snd (subscribe symbol now acc)) symbols s)
  = subscriptions s.
Proof.
  induction symbols as [|x symbols IH]; intros s Hall; [reflexivity|].
  inversion Hall as [|? ? [Hup Hin] Hrest]; subst.
  cbn [fold_left].
  assert (E : subscriptions (snd (subscribe x now s)) = subscriptions s).
  { rewrite subscribe_subscriptions, Hup. apply setAdd_member. exact Hin. }
  rewrite IH; [exact E|].
  eapply Forall_impl; [|exact Hrest].
  intros y [Hy1 Hy2]. rewrite E. auto.
Qed.

Lemma resubscribe_subscriptions (now : Z) (s : service) :
  subscriptionsOk s -> subscriptions (resubscribe now s) = subscriptions s.
Proof.
  intros [_ Hup]. unfold resubscribe. apply resubscribe_members.
  apply Forall_forall. intros x Hx.
  split; [apply (proj1 (Forall_forall _ _) Hup x Hx) | exact Hx].
Qed.

Lemma startHeartbeat_subscriptions (s : service) :
  subscriptions (startHeartbeat s) = subscriptions s.
Proof. unfold startHeartbeat. destruct (Qle_bool _ _); reflexivity. Qed.

Lemma handleConnectionOpen_subscriptions (now : Z) (s s' : service) :
  subscriptionsOk s -> handleConnectionOpen now s = Some s' ->
  subscriptions s' = subscriptions s.
Proof.
  intros Hok. unfold handleConnectionOpen.
  set (s1 := match connectionTimer s with
             | Some t => set_connectionTimer None (clearTimer t s)
             | None => s
             end).
  assert (E1 : subscriptions s1 = subscriptions s)
    by (subst s1; destruct (connectionTimer s); reflexivity).
  set (s3 := startHeartbeat _).
  assert (E3 : subscriptions s3 = subscriptions s).
  { subst s3. rewrite startHeartbeat_subscriptions. exact E1. }
  destruct (processMessageQueue _ s3) as [s4|] eqn:E; [|discriminate].
  intro H. injection H as <-.
  pose proof (processMessageQueue_subscriptions _ _ _ E) as E4.
  cbn [emit perform set_effects subscriptions].
  rewrite resubscribe_subscriptions; [congruence|].
  apply (subscriptionsOk_same s); [congruence | exact Hok].
Qed.







(** [handleMessage] with the test for a pong written as a comparison. *)
Definition isPong (type : option string) : bool :=
  match type with
  | Some t => String.eqb t "pong"
  | None => false
  end.

Lemma handleMessage_cases (m : inbound) (now : Z) (s : service) :
  handleMessage m now s
  = let s1 := countMessage (inboundLength m) s in
    match m with
    | InObject type requestTime timestamp _ =>
        if isPong type then handlePongMessage requestTime now s1
        else
          let s2 := match truthyNum timestamp with
                    | Some t => updateLatencyStats (now - t) s1
                    | None => s1
                    end in
          let s3 := emit "message" s2 in
          match type with
          | Some EmptyString | None => s3
          | Some t => emit ("message:" ++ t) s3
          end
    | _ => emit "message" s1
    end.
Proof.
  unfold handleMessage. cbv zeta.
  destruct m as [[type|] requestTime timestamp len|len|len]; try reflexivity.
  unfold isPong.
  destruct (String.eqb type "pong") eqn:E.
  - apply String.eqb_eq in E. subst type. reflexivity.
  - repeat match goal with
           | |- context [match ?x with _ => _ end] =>
               match type of x with
               | string => destruct x
               | ascii => destruct x
               | bool => destruct x
               end
           end; try reflexivity.
    rewrite String.eqb_refl in E. discriminate.
Qed.

Lemma updateLatencyStats_subscriptions (latency : Z) (s : service) :
  subscriptions (updateLatencyStats latency s) = subscriptions s.
Proof. reflexivity. Qed.








(** *** Reconnection *)





(** An error while connecting schedules a reconnect whatever the number
    of attempts made: unlike [handleConnectionClose], the error handler
    does not compare the counter with [options.reconnectAttempts]. *)
Theorem error_while_connecting_always_reschedules (random : Q) (s : service)
  (Hconnecting : isConnecting s = true) (Hnone : reconnectTimer s = None) :
  let s' := handleConnectionError random s in
  reconnectAttempts s' = S (reconnectAttempts s) /\
  reconnectTimer s' = Some (nextTimer s) /\
  reconnectIds (pending s') = reconnectIds (pending s) ++ [nextTimer s] /\
  isConnecting s' = false /\
  totalErrors (stats s') = S (totalErrors (stats s)) /\
  totalReconnects (stats s') = S (totalReconnects (stats s)) /\
  effects s' = effects s ++ [Emit "error"].
Proof.
  cbv zeta. unfold handleConnectionError.
  change (isConnecting (emit "error" (countError s))) with (isConnecting s).
  rewrite Hconnecting.
  unfold scheduleReconnect.
  change (reconnectTimer (set_isConnecting false (emit "error" (countError s))))
    with (reconnectTimer s).
  rewrite Hnone.
  unfold setTimer. projections.
  rewrite reconnectIds_app. repeat split; reflexivity.
Qed.

(** A service that has used up its attempts and sees its next connection
    fail. *)
Definition exhausted : service :=
  set_isConnecting true (set_reconnectAttempts 10 (create defaultOptions)).

Lemma error_while_connecting_always_reschedules_witness :
  (optReconnectAttempts (options exhausted) <= reconnectAttempts exhausted)%nat /\
  reconnectAttempts (handleConnectionError (1 # 2) exhausted) = 11%nat.
Proof.
  split; [vm_compute; lia|].
  destruct (error_while_connecting_always_reschedules (1 # 2) exhausted eq_refl eq_refl)
    as [H _].
  exact H.
Defined.

(** *** Disconnecting *)

Lemma cancelReconnect_effects (s : service) :
  effects (cancelReconnect s) = effects s /\ ws (cancelReconnect s) = ws s.
Proof. unfold cancelReconnect. destruct (reconnectTimer s); split; reflexivity. Qed.

Lemma disconnect_effects (now : Z) (s : service) :
  transmitted (effects (disconnect now s)) = transmitted (effects s) /\
  nextSocket (disconnect now s) = nextSocket (cleanup now (cancelReconnect s)) /\
  messageQueue (disconnect now s) = [] /\ subscriptions (disconnect now s) = [] /\
  isConnected (disconnect now s) = false /\ isConnecting (disconnect now s) = false.
Proof.
  unfold disconnect.
  destruct (cancelReconnect_effects s) as [He Hws].
  set (s1 := cancelReconnect s) in *.
  set (s2 := match ws s1 with
             | Some socket => set_ws None (perform (Close socket) s1)
             | None => s1
             end).
  destruct (cleanup_fields now s2) as (_ & _ & _ & Hc & Hg & Heff).
  projections.
  rewrite Heff, Hc, Hg.
  split; [|split; [|repeat split; reflexivity]].
  - subst s2. destruct (ws s1); projections; rewrite ?transmitted_app, He; cbn [transmitted];
      rewrite ?app_nil_r; reflexivity.
  - subst s2. unfold cleanup, stopHeartbeat.
    destruct (ws s1); projections;
      repeat match goal with
             | |- context [match ?x with _ => _ end] => destruct x
             end; reflexivity.
Qed.

Lemma connect_creates (id : string) (random : Q) (s : service) :
  isConnecting s = false -> isConnected s = false ->
  let s' := connect id true random s in
  ws s' = Some (nextSocket s) /\ messageQueue s' = messageQueue s /\
  subscriptions s' = subscriptions s /\
  effects s' = effects s ++ [Create (nextSocket s)] /\
  isConnecting s' = true /\ isConnected s' = false.
Proof.
  intros Hg Hc. cbv zeta. unfold connect. rewrite Hg, Hc. cbn [orb].
  repeat split; try reflexivity. exact Hc.
Qed.

(** [disconnect] discards what was queued and subscribed: when the
    service connects again and the socket opens, nothing is sent, whatever
    had been queued or subscribed before. *)
Theorem disconnect_discards_queue_and_subscriptions (now opened : Z) (id : string)
  (random : Q) (s : service) :
  let s1 := disconnect now s in
  let s2 := connect id true random s1 in
  messageQueue s1 = [] /\ subscriptions s1 = [] /\
  exists s3,
    handleConnectionOpen opened s2 = Some s3 /\
    transmitted (effects s3) = transmitted (effects s) /\
    isConnected s3 = true /\ messageQueue s3 = [] /\ subscriptions s3 = [].
Proof.
  cbv zeta.
  destruct (disconnect_effects now s) as (He & _ & Hq & Hsub & Hc & Hg).
  split; [exact Hq|]. split; [exact Hsub|].
  set (s1 := disconnect now s) in *. clearbody s1.
  destruct (connect_creates id random s1 Hg Hc) as (Hws & Hq2 & Hsub2 & He2 & _).
  set (s2 := connect id true random s1) in *. clearbody s2.
  rewrite Hq in Hq2. rewrite Hsub in Hsub2.
  destruct (handleConnectionOpen_flushes opened s2 _ Hws) as (s3 & Hopen & Htx & Hq3 & Hc3).
  exists s3. split; [exact Hopen|].
  split.
  - rewrite Htx, Hq2, Hsub2, He2, transmitted_app. cbn [map transmitted app].
    rewrite !app_nil_r. exact He.
  - split; [exact Hc3|]. split; [exact Hq3|].
    rewrite (handleConnectionOpen_subscriptions opened s2 s3); [exact Hsub2 | | exact Hopen].
    unfold subscriptionsOk. rewrite Hsub2. split; constructor.
Qed.

(** *** Incoming messages *)

Lemma updateLatencyStats_counters (latency : Z) (s : service) :
  totalMessages (stats (updateLatencyStats latency s)) = totalMessages (stats s) /\
  bytesReceived (stats (updateLatencyStats latency s)) = bytesReceived (stats s) /\
  bytesSent (stats (updateLatencyStats latency s)) = bytesSent (stats s) /\
  effects (updateLatencyStats latency s) = effects s /\
  messageQueue (updateLatencyStats latency s) = messageQueue s /\
  pending (updateLatencyStats latency s) = pending s.
Proof. repeat split; reflexivity. Qed.

(** The events a message is forwarded under: none for a pong, otherwise
    [message] and, for an object with a non-empty [type],
    [message:<type>]. *)
Definition forwarded (m : inbound) : list effect :=
  match m with
  | InObject type _ _ _ =>
      if isPong type then []
      else Emit "message"
           :: match type with
              | Some EmptyString | None => []
              | Some t => [Emit ("message:" ++ t)]
              end
  | _ => [Emit "message"]
  end.

(** Every incoming message is counted once with its length, sends
    nothing and leaves the queue and the timers as they are; a pong is
    not forwarded to listeners, any other message is forwarded as
    [message] and then under its type. *)
Theorem incoming_messages_are_counted_and_forwarded (m : inbound) (now : Z)
  (s : service) :
  let s' := handleMessage m now s in
  totalMessages (stats s') = S (totalMessages (stats s)) /\
  bytesReceived (stats s') = (bytesReceived (stats s) + inboundLength m)%nat /\
  bytesSent (stats s') = bytesSent (stats s) /\
  effects s' = effects s ++ forwarded m /\
  transmitted (effects s') = transmitted (effects s) /\
  messageQueue s' = messageQueue s /\ pending s' = pending s.
Proof.
  cbv zeta.
  assert (Hmain :
    totalMessages (stats (handleMessage m now s)) = S (totalMessages (stats s)) /\
    bytesReceived (stats (handleMessage m now s))
    = (bytesReceived (stats s) + inboundLength m)%nat /\
    bytesSent (stats (handleMessage m now s)) = bytesSent (stats s) /\
    effects (handleMessage m now s) = effects s ++ forwarded m /\
    messageQueue (handleMessage m now s) = messageQueue s /\
    pending (handleMessage m now s) = pending s).
  { rewrite handleMessage_cases. cbv zeta. unfold handlePongMessage, forwarded.
    destruct m as [type requestTime timestamp len|len|len];
      try (repeat split; reflexivity).
    destruct (isPong type).
    - destruct (truthyNum requestTime); projections; rewrite ?app_nil_r;
        repeat split; reflexivity.
    - destruct type as [[|c t]|]; destruct (truthyNum timestamp); projections;
        rewrite <- ?app_assoc; repeat split; reflexivity. }
  destruct Hmain as (H1 & H2 & H3 & H4 & H5 & H6).
  repeat split; try assumption.
  rewrite H4, transmitted_app.
  assert (E : transmitted (forwarded m) = []).
  { unfold forwarded. destruct m as [type ? ? ?| |]; try reflexivity.
    destruct (isPong type); [reflexivity|].
    destruct type as [[|c t]|]; reflexivity. }
  rewrite E, app_nil_r. reflexivity.
Qed.

(** *** Connection flags *)
















(** *** The queue *)




End ServiceMore.

(* ------------------------------------------------------------------ *)
(** * Further properties of hooks/useWebSocket.js *)

Module HookMore.
Import JsNum NumFacts Wire Hook TimerFacts HookFacts.

(** *** Timer handles *)

(** The pending timers carry distinct handles, all issued already. *)
Definition handlesOk (s : hook) : Prop :=
  (forall t, In t (pending s) -> (timerId t < nextTimer s)%positive) /\
  NoDup (map timerId (pending s)).

Lemma handlesOk_same (s s' : hook) :
  pending s' = pending s -> nextTimer s' = nextTimer s -> handlesOk s -> handlesOk s'.
Proof. unfold handlesOk. intros -> ->. auto. Qed.

Lemma handlesOk_setTimer (k : timerKind) (delay : Q) (s : hook) :
  handlesOk s -> handlesOk (snd (setTimer k delay s)).
Proof.
  intros [Hfresh Hnd]. unfold handlesOk, setTimer.
  cbn [snd pending nextTimer set_nextTimer set_pending].
  split.
  - intros t Ht. apply in_app_or in Ht. destruct Ht as [Ht|[<-|[]]].
    + specialize (Hfresh t Ht). lia.
    + cbn [timerId]. lia.
  - rewrite map_app. cbn [map timerId].
    apply ServiceFacts.NoDup_snoc; [exact Hnd|].
    intro Hin. apply in_map_iff in Hin. destruct Hin as (t & Hid & Ht).
    specialize (Hfresh t Ht). lia.
Qed.

Lemma handlesOk_clearTimer (id : positive) (s : hook) :
  handlesOk s -> handlesOk (clearTimer id s).
Proof.
  intros [Hfresh Hnd]. unfold handlesOk, clearTimer.
  cbn [pending nextTimer set_pending]. split.
  - intros t Ht. apply cancel_In in Ht. apply Hfresh. tauto.
  - apply cancel_NoDup. exact Hnd.
Qed.

Lemma handlesOk_clearTimeouts (s : hook) : handlesOk s -> handlesOk (clearTimeouts s).
Proof.
  intro Hok. unfold clearTimeouts.
  set (s1 := match reconnectTimeoutRef s with
             | Some id => set_reconnectTimeoutRef None (clearTimer id s)
             | None => s
             end).
  assert (H1 : handlesOk s1).
  { subst s1. destruct (reconnectTimeoutRef s) as [id|]; [|exact Hok].
    apply (handlesOk_same (clearTimer id s)); [reflexivity | reflexivity |].
    apply handlesOk_clearTimer. exact Hok. }
  clearbody s1.
  destruct (heartbeatTimeoutRef s1) as [id|]; [|exact H1].
  apply (handlesOk_same (clearTimer id s1)); [reflexivity | reflexivity |].
  apply handlesOk_clearTimer. exact H1.
Qed.

Lemma handlesOk_startHeartbeat (s : hook) : handlesOk s -> handlesOk (startHeartbeat s).
Proof.
  intro Hok. unfold startHeartbeat.
  destruct (Qltb 0 (heartbeatInterval (config s))); [|exact Hok].
  apply (handlesOk_same (snd (setTimer HeartbeatTimer (heartbeatInterval (config s)) s)));
    [reflexivity | reflexivity |].
  apply handlesOk_setTimer. exact Hok.
Qed.

Lemma handlesOk_socketBecomes (r : readyStateValue) (s : hook) :
  handlesOk s -> handlesOk (socketBecomes r s).
Proof.
  intro Hok. unfold socketBecomes.
  destruct (webSocketRef s); [|exact Hok].
  apply (handlesOk_same s); [reflexivity | reflexivity | exact Hok].
Qed.

Lemma handlesOk_connect (s : hook) : handlesOk s -> handlesOk (connect s).
Proof.
  intro Hok. unfold connect.
  destruct (webSocketRef (set_error false s));
    (apply (handlesOk_same s); [reflexivity | reflexivity | exact Hok]).
Qed.

Lemma handlesOk_sendMessage (m : payload) (s : hook) :
  handlesOk s -> handlesOk (snd (sendMessage m s)).
Proof.
  intro Hok. unfold sendMessage.
  destruct (webSocketRef s) as [sock|]; [|exact Hok].
  destruct (isOpen (socketState sock));
    (apply (handlesOk_same s); [reflexivity | reflexivity | exact Hok]).
Qed.

Lemma handlesOk_onclose (attempts : nat) (wasClean : bool) (s : hook) :
  handlesOk s -> handlesOk (onclose attempts wasClean s).
Proof.
  intro Hok. unfold onclose.
  set (s1 := perform (Emit "onClose") _).
  assert (H1 : handlesOk s1).
  { subst s1.
    apply (handlesOk_same (clearTimeouts (set_isConnected false (set_readyState CLOSED s))));
      [reflexivity | reflexivity |].
    apply handlesOk_clearTimeouts.
    apply (handlesOk_same s); [reflexivity | reflexivity | exact Hok]. }
  clearbody s1.
  destruct (shouldReconnect (config s1) && _ && negb wasClean); [|exact H1].
  set (s2 := set_connectionAttempts (S attempts) s1).
  apply (handlesOk_same
           (snd (setTimer ReconnectTimer (backoffDelay (config s2) (S attempts)) s2)));
    [reflexivity | reflexivity |].
  apply handlesOk_setTimer.
  apply (handlesOk_same s1); [reflexivity | reflexivity | exact H1].
Qed.

Lemma handlesOk_disconnect (s : hook) : handlesOk s -> handlesOk (disconnect s).
Proof.
  intro Hok. unfold disconnect.
  pose proof (handlesOk_clearTimeouts s Hok) as H1.
  set (s1 := clearTimeouts s) in *. clearbody s1.
  destruct (webSocketRef s1);
    (apply (handlesOk_same s1); [reflexivity | reflexivity | exact H1]).
Qed.

Lemma handlesOk_fire (t : timer) (now : Z) (s : hook) :
  handlesOk s -> handlesOk (fire t now s).
Proof.
  intro Hok. unfold fire.
  pose proof (handlesOk_clearTimer (timerId t) s Hok) as H1.
  set (s1 := clearTimer (timerId t) s) in *. clearbody s1.
  destruct (kindOf t).
  - exact H1.
  - unfold heartbeatFires. destruct (socketOpen s1) as [id|]; [|exact H1].
    apply handlesOk_startHeartbeat.
    apply (handlesOk_same s1); [reflexivity | reflexivity | exact H1].
  - apply handlesOk_connect. exact H1.
  - apply handlesOk_connect. exact H1.
Qed.

Lemma handlesOk_reconnect (s : hook) : handlesOk s -> handlesOk (reconnect s).
Proof.
  intro Hok. unfold reconnect.
  apply handlesOk_setTimer, handlesOk_disconnect.
  apply (handlesOk_same s); [reflexivity | reflexivity | exact Hok].
Qed.

Lemma step_handlesOk (s : hook) (e : event) (s' : hook) :
  step s e s' -> handlesOk s -> handlesOk s'.
Proof.
  intros Hstep Hok. destruct Hstep.
  - apply handlesOk_connect. exact Hok.
  - apply handlesOk_disconnect. exact Hok.
  - apply handlesOk_reconnect. exact Hok.
  - apply handlesOk_sendMessage. exact Hok.
  - apply handlesOk_sendMessage. exact Hok.
  - apply handlesOk_sendMessage. exact Hok.
  - unfold onopen, processMessageQueue.
    match goal with
    | |- context [drain ?q (startHeartbeat ?s1)] =>
        destruct (drain_fields q (startHeartbeat s1)) as (_ & _ & _ & H4 & H5 & _);
        assert (H1 : handlesOk (startHeartbeat s1))
    end.
    { apply handlesOk_startHeartbeat.
      apply (handlesOk_same (socketBecomes OPEN s)); [reflexivity | reflexivity |].
      apply handlesOk_socketBecomes. exact Hok. }
    eapply handlesOk_same; [| |exact H1].
    + cbn [perform pending set_effects]. exact H4.
    + cbn [perform nextTimer set_effects]. exact H5.
  - apply handlesOk_onclose, handlesOk_socketBecomes. exact Hok.
  - unfold onerror.
    destruct (retryOnError _ && _);
      (apply (handlesOk_same s); [reflexivity | reflexivity | exact Hok]).
  - unfold onmessage.
    assert (Hany : forall a b : hook,
              handlesOk a -> handlesOk b ->
              handlesOk match m with
                        | InObject (Some "pong"%string) _ _ _ => a
                        | _ => b
                        end).
    { intros a b Ha Hb.
      repeat match goal with
             | |- context [match ?x with _ => _ end] => destruct x
             end; assumption. }
    apply Hany; (apply (handlesOk_same s); [reflexivity | reflexivity | exact Hok]).
  - apply handlesOk_fire. exact Hok.
Qed.

Lemma reachable_handlesOk (o : hookOptions) (s : hook) : reachable o s -> handlesOk s.
Proof.
  induction 1 as [|s e s' _ IH Hstep].
  - split; [intros t [] | constructor].
  - eapply step_handlesOk; eassumption.
Qed.

(** *** The timeouts of [reconnect()] *)

Definition isForced (t : timer) : bool :=
  match kindOf t with
  | ForcedReconnectTimer => true
  | _ => false
  end.

(** The pending timeouts of [reconnect()]. *)
Definition forced (l : list timer) : list timer := filter isForced l.

(** No ref holds the handle of a pending timeout of [reconnect()]. *)
Definition untracked (s : hook) : Prop :=
  forall t, In t (pending s) -> isForced t = true ->
    reconnectTimeoutRef s <> Some (timerId t) /\
    heartbeatTimeoutRef s <> Some (timerId t).

Lemma untracked_subset (s s' : hook) :
  (forall t, In t (pending s') -> In t (pending s)) ->
  reconnectTimeoutRef s' = reconnectTimeoutRef s ->
  heartbeatTimeoutRef s' = heartbeatTimeoutRef s ->
  untracked s -> untracked s'.
Proof.
  intros Hsub Er Eh Hok t Ht Hf. rewrite Er, Eh. apply Hok; auto.
Qed.

Lemma untracked_same (s s' : hook) :
  pending s' = pending s -> reconnectTimeoutRef s' = reconnectTimeoutRef s ->
  heartbeatTimeoutRef s' = heartbeatTimeoutRef s -> untracked s -> untracked s'.
Proof.
  intros Ep Er Eh. apply untracked_subset; [|exact Er | exact Eh].
  intros t Ht. rewrite <- Ep. exact Ht.
Qed.

Lemma untracked_no_refs (s : hook) :
  reconnectTimeoutRef s = None -> heartbeatTimeoutRef s = None -> untracked s.
Proof. intros Er Eh t _ _. rewrite Er, Eh. split; discriminate. Qed.

Lemma clearTimeouts_refs (s : hook) :
  reconnectTimeoutRef (clearTimeouts s) = None /\
  heartbeatTimeoutRef (clearTimeouts s) = None /\
  nextTimer (clearTimeouts s) = nextTimer s.
Proof.
  unfold clearTimeouts.
  set (s1 := match reconnectTimeoutRef s with
             | Some id => set_reconnectTimeoutRef None (clearTimer id s)
             | None => s
             end).
  assert (H1 : reconnectTimeoutRef s1 = None /\ nextTimer s1 = nextTimer s).
  { subst s1. destruct (reconnectTimeoutRef s) as [id|] eqn:E; split; auto. }
  clearbody s1. destruct H1 as [H1 H2].
  destruct (heartbeatTimeoutRef s1) as [id|] eqn:E; repeat split; assumption.
Qed.

Lemma disconnect_refs (s : hook) :
  reconnectTimeoutRef (disconnect s) = None /\
  heartbeatTimeoutRef (disconnect s) = None /\
  nextTimer (disconnect s) = nextTimer s.
Proof.
  unfold disconnect. destruct (clearTimeouts_refs s) as (H1 & H2 & H3).
  destruct (webSocketRef (clearTimeouts s)); repeat split; assumption.
Qed.

Lemma untracked_startHeartbeat (s : hook) :
  handlesOk s -> untracked s -> untracked (startHeartbeat s).
Proof.
  intros [Hfresh _] Hok. unfold startHeartbeat.
  destruct (Qltb 0 (heartbeatInterval (config s))); [|exact Hok].
  unfold setTimer. intros t Ht Hf.
  cbn [pending reconnectTimeoutRef heartbeatTimeoutRef set_heartbeatTimeoutRef
       set_nextTimer set_pending] in *.
  apply in_app_or in Ht. destruct Ht as [Ht|[<-|[]]]; [|discriminate Hf].
  split; [apply (Hok t Ht Hf)|].
  intro E. injection E as E. specialize (Hfresh t Ht). lia.
Qed.

Lemma untracked_onclose (attempts : nat) (wasClean : bool) (s : hook) :
  handlesOk s -> untracked (onclose attempts wasClean s).
Proof.
  intro Hh. unfold onclose.
  set (s1 := perform (Emit "onClose") _).
  assert (H1 : handlesOk s1 /\ reconnectTimeoutRef s1 = None /\
               heartbeatTimeoutRef s1 = None).
  { subst s1.
    destruct (clearTimeouts_refs (set_isConnected false (set_readyState CLOSED s)))
      as (Er & Eh & _).
    split; [|split; assumption].
    apply (handlesOk_same (clearTimeouts (set_isConnected false (set_readyState CLOSED s))));
      [reflexivity | reflexivity |].
    apply handlesOk_clearTimeouts.
    apply (handlesOk_same s); [reflexivity | reflexivity | exact Hh]. }
  clearbody s1. destruct H1 as ([Hfresh _] & Er & Eh).
  destruct (shouldReconnect (config s1) && _ && negb wasClean);
    [|apply untracked_no_refs; assumption].
  unfold setTimer. intros t Ht Hf.
  cbn [pending reconnectTimeoutRef heartbeatTimeoutRef set_reconnectTimeoutRef
       set_connectionAttempts set_nextTimer set_pending nextTimer] in *.
  apply in_app_or in Ht. destruct Ht as [Ht|[<-|[]]]; [|discriminate Hf].
  rewrite Eh. split; [|discriminate].
  intro E. injection E as E. specialize (Hfresh t Ht). lia.
Qed.

Lemma untracked_fire (t : timer) (now : Z) (s : hook) :
  handlesOk s -> untracked s -> untracked (fire t now s).
Proof.
  intros Hh Hok. unfold fire.
  pose proof (handlesOk_clearTimer (timerId t) s Hh) as Hh1.
  assert (H1 : untracked (clearTimer (timerId t) s)).
  { apply (untracked_subset s); [|reflexivity | reflexivity | exact Hok].
    intros u Hu. cbn [pending clearTimer set_pending] in Hu.
    apply cancel_In in Hu. tauto. }
  set (s1 := clearTimer (timerId t) s) in *. clearbody s1.
  destruct (kindOf t).
  - exact H1.
  - unfold heartbeatFires. destruct (socketOpen s1) as [id|]; [|exact H1].
    apply untracked_startHeartbeat.
    + apply (handlesOk_same s1); [reflexivity | reflexivity | exact Hh1].
    + apply (untracked_same s1); [reflexivity | reflexivity | reflexivity | exact H1].
  - apply (untracked_same s1); [| | |exact H1];
      unfold connect; destruct (webSocketRef (set_error false s1)); reflexivity.
  - apply (untracked_same s1); [| | |exact H1];
      unfold connect; destruct (webSocketRef (set_error false s1)); reflexivity.
Qed.

Lemma step_untracked (s : hook) (e : event) (s' : hook) :
  step s e s' -> handlesOk s -> untracked s -> untracked s'.
Proof.
  intros Hstep Hh Hok. destruct Hstep.
  - apply (untracked_same s); [| | |exact Hok];
      unfold connect; destruct (webSocketRef (set_error false s)); reflexivity.
  - destruct (disconnect_refs s) as (Er & Eh & _).
    apply untracked_no_refs; assumption.
  - unfold reconnect, setTimer.
    destruct (disconnect_refs (set_connectionAttempts 0 s)) as (Er & Eh & _).
    apply untracked_no_refs; assumption.
  - apply (untracked_same s); [| | |exact Hok];
      unfold_handlers; split_cases; reflexivity.
  - apply (untracked_same s); [| | |exact Hok];
      unfold_handlers; split_cases; reflexivity.
  - apply (untracked_same s); [| | |exact Hok];
      unfold_handlers; split_cases; reflexivity.
  - unfold onopen, processMessageQueue.
    match goal with
    | |- context [drain ?q (startHeartbeat ?s1)] =>
        destruct (drain_fields q (startHeartbeat s1)) as (_ & H2 & H3 & H4 & _);
        assert (H1 : untracked (startHeartbeat s1))
    end.
    { apply untracked_startHeartbeat.
      - apply (handlesOk_same (socketBecomes OPEN s)); [reflexivity | reflexivity |].
        apply handlesOk_socketBecomes. exact Hh.
      - apply (untracked_same s); [| | |exact Hok];
          unfold socketBecomes; destruct (webSocketRef s); reflexivity. }
    eapply untracked_same; [| | |exact H1].
    + cbn [perform pending set_effects]. exact H4.
    + cbn [perform reconnectTimeoutRef set_effects]. exact H2.
    + cbn [perform heartbeatTimeoutRef set_effects]. exact H3.
  - apply untracked_onclose, handlesOk_socketBecomes. exact Hh.
  - apply (untracked_same s); [| | |exact Hok];
      unfold onerror; destruct (retryOnError _ && _); reflexivity.
  - apply (untracked_same s); [| | |exact Hok];
      unfold onmessage;
      repeat match goal with
             | |- context [match ?x with _ => _ end] => destruct x
             end; reflexivity.
  - apply untracked_fire; assumption.
Qed.

Lemma reachable_untracked (o : hookOptions) (s : hook) : reachable o s -> untracked s.
Proof.
  induction 1 as [|s e s' Hs IH Hstep].
  - intros t [].
  - eapply step_untracked; [exact Hstep | eapply reachable_handlesOk; exact Hs | exact IH].
Qed.

Lemma cancel_forced (id : positive) (l : list timer) :
  (forall t, In t l -> isForced t = true -> timerId t <> id) ->
  forced (cancel id l) = forced l.
Proof.
  unfold forced, cancel. induction l as [|t l IH]; intro Hne; [reflexivity|].
  cbn [filter].
  assert (Hl : forall u, In u l -> isForced u = true -> timerId u <> id)
    by (intros u Hu; apply Hne; right; exact Hu).
  destruct (isForced t) eqn:Ef.
  - assert (Hid : timerId t <> id) by (apply Hne; [left; reflexivity | exact Ef]).
    apply Pos.eqb_neq in Hid. rewrite Hid. cbn [negb filter]. rewrite Ef, (IH Hl).
    reflexivity.
  - destruct (negb (Pos.eqb (timerId t) id)); cbn [filter]; rewrite ?Ef; apply IH, Hl.
Qed.

(** [clearTimeouts] cancels no timeout of [reconnect()]. *)
Lemma clearTimeouts_forced (s : hook) :
  untracked s -> forced (pending (clearTimeouts s)) = forced (pending s).
Proof.
  intro Hok. unfold clearTimeouts.
  set (s1 := match reconnectTimeoutRef s with
             | Some id => set_reconnectTimeoutRef None (clearTimer id s)
             | None => s
             end).
  assert (H1 : forced (pending s1) = forced (pending s) /\
               heartbeatTimeoutRef s1 = heartbeatTimeoutRef s /\
               (forall t, In t (pending s1) -> In t (pending s))).
  { subst s1. destruct (reconnectTimeoutRef s) as [id|] eqn:E; [|repeat split; auto].
    cbn [pending heartbeatTimeoutRef set_reconnectTimeoutRef clearTimer set_pending].
    split; [|split; [reflexivity|]].
    - apply cancel_forced. intros t Ht Hf Hid.
      destruct (Hok t Ht Hf) as [Hr _]. apply Hr. rewrite E, Hid. reflexivity.
    - intros t Ht. apply cancel_In in Ht. tauto. }
  clearbody s1. destruct H1 as (H1 & H2 & H3).
  destruct (heartbeatTimeoutRef s1) as [id|] eqn:E; [|exact H1].
  cbn [pending set_heartbeatTimeoutRef clearTimer set_pending].
  rewrite <- H1. apply cancel_forced. intros t Ht Hf Hid.
  destruct (Hok t (H3 t Ht) Hf) as [_ Hh]. apply Hh. rewrite <- H2, Hid. reflexivity.
Qed.

Lemma disconnect_forced (s : hook) :
  untracked s -> forced (pending (disconnect s)) = forced (pending s).
Proof.
  intro Hok. unfold disconnect. rewrite <- (clearTimeouts_forced s Hok).
  destruct (webSocketRef (clearTimeouts s)); reflexivity.
Qed.

(** In every state a mounted hook can reach, at most one reconnect timer
    of [onclose] is pending, and it is the one [reconnectTimeoutRef]
    holds; the handles of the pending timers are distinct; and the
    options are those of the mount.  The timeouts of [reconnect()] are
    outside this bound: a call of [reconnect()] cancels every reconnect
    timer of [onclose] and none of its own earlier timeouts, and adds one
    more. *)
Theorem hook_tracks_only_the_timers_of_onclose (o : hookOptions) (s : hook)
  (Hreach : reachable o s) :
  (List.length (reconnectIds (pending s)) <= 1)%nat /\
  (forall id, In id (reconnectIds (pending s)) -> reconnectTimeoutRef s = Some id) /\
  NoDup (map timerId (pending s)) /\
  (forall t, In t (pending s) -> (timerId t < nextTimer s)%positive) /\
  config s = o /\
  reconnectIds (pending (reconnect s)) = [] /\
  forced (pending (reconnect s))
  = forced (pending s)
    ++ [{| timerId := nextTimer s; kindOf := ForcedReconnectTimer; delayOf := 100 |}].
Proof.
  destruct (reachable_handlesOk o s Hreach) as [Hfresh Hnd].
  pose proof (reachable_refOk o s Hreach) as Href.
  pose proof (reachable_untracked o s Hreach) as Hun.
  destruct (reachable_latency o s Hreach) as (_ & _ & Hcfg).
  split; [|repeat split; try assumption].
  - assert (Hnd' : NoDup (reconnectIds (pending s))).
    { unfold reconnectIds. clear Href Hfresh Hun.
      induction (pending s) as [|t l IH]; [constructor|].
      cbn [map filter] in *. inversion Hnd as [|? ? Hnot Hrest]; subst.
      destruct (isReconnect t); [|apply IH; exact Hrest].
      cbn [map]. constructor; [|apply IH; exact Hrest].
      intro Hin. apply Hnot. apply in_map_iff in Hin.
      destruct Hin as (t' & Hid & Ht'). apply filter_In in Ht'.
      apply in_map_iff. exists t'. tauto. }
    unfold reconnectRefOk, refOk in Href.
    destruct (reconnectIds (pending s)) as [|a [|b l]]; cbn [List.length]; try lia.
    exfalso.
    assert (Ha : reconnectTimeoutRef s = Some a) by (apply Href; left; reflexivity).
    assert (Hb : reconnectTimeoutRef s = Some b) by (apply Href; right; left; reflexivity).
    rewrite Ha in Hb. injection Hb as <-.
    inversion Hnd' as [|? ? Hnot _]; subst. apply Hnot. left. reflexivity.
  - assert (Href0 : reconnectRefOk (set_connectionAttempts 0 s)) by exact Href.
    destruct (disconnect_clears _ Href0) as (Hids & _).
    unfold reconnect, setTimer. cbn [snd pending set_nextTimer set_pending].
    rewrite reconnectIds_app, Hids. reflexivity.
  - assert (Hun0 : untracked (set_connectionAttempts 0 s)) by exact Hun.
    pose proof (disconnect_forced _ Hun0) as Hf.
    destruct (disconnect_refs (set_connectionAttempts 0 s)) as (_ & _ & Hn).
    unfold reconnect, setTimer. cbn [snd pending set_nextTimer set_pending].
    unfold forced in *. rewrite filter_app, Hf, Hn. reflexivity.
Qed.

(** After two calls of [reconnect()] on a connecting hook, two of its
    timeouts are pending. *)
Lemma hook_tracks_only_the_timers_of_onclose_witness :
  List.length
    (forced (pending (reconnect (reconnect (connect (mount defaultOptions)))))) = 2%nat.
Proof.
  assert (Hreach : reachable defaultOptions (reconnect (connect (mount defaultOptions)))).
  { apply (ReachStep _ (connect (mount defaultOptions)) CallReconnect).
    - apply (ReachStep _ (mount defaultOptions) CallConnect);
        [apply ReachMount | apply StepConnect].
    - apply StepReconnect. }
  destruct (hook_tracks_only_the_timers_of_onclose _ _ Hreach)
    as (_ & _ & _ & _ & _ & _ & H).
  rewrite H. reflexivity.
Defined.

(** *** The queue across a manual disconnect *)

Lemma clearTimeouts_keeps (s : hook) :
  messageQueueRef (clearTimeouts s) = messageQueueRef s /\
  effects (clearTimeouts s) = effects s /\
  webSocketRef (clearTimeouts s) = webSocketRef s.
Proof.
  unfold clearTimeouts.
  set (s1 := match reconnectTimeoutRef s with
             | Some id => set_reconnectTimeoutRef None (clearTimer id s)
             | None => s
             end).
  assert (H1 : messageQueueRef s1 = messageQueueRef s /\ effects s1 = effects s /\
               webSocketRef s1 = webSocketRef s)
    by (subst s1; destruct (reconnectTimeoutRef s); repeat split; reflexivity).
  clearbody s1. destruct H1 as (<- & <- & <-).
  destruct (heartbeatTimeoutRef s1); repeat split; reflexivity.
Qed.

Lemma disconnect_keeps (s : hook) :
  messageQueueRef (disconnect s) = messageQueueRef s /\
  transmitted (effects (disconnect s)) = transmitted (effects s).
Proof.
  unfold disconnect.
  destruct (clearTimeouts_keeps s) as (Hq & He & _).
  set (s1 := clearTimeouts s) in *. clearbody s1.
  destruct (webSocketRef s1) as [sock|];
    cbn [messageQueueRef effects set_isConnected set_readyState perform set_effects
         set_webSocketRef].
  - rewrite hook_transmitted_app, He, Hq. cbn [transmitted]. rewrite app_nil_r.
    split; reflexivity.
  - rewrite He, Hq. split; reflexivity.
Qed.

Lemma connect_keeps (s : hook) :
  messageQueueRef (connect s) = messageQueueRef s /\
  transmitted (effects (connect s)) = transmitted (effects s) /\
  exists sock, webSocketRef (connect s) = Some sock.
Proof.
  unfold connect.
  destruct (webSocketRef (set_error false s)) as [old|];
    cbn [messageQueueRef effects set_readyState perform set_effects set_nextSocket
         set_webSocketRef set_error webSocketRef];
    rewrite ?hook_transmitted_app; cbn [transmitted]; rewrite ?app_nil_r;
    repeat split; eauto.
Qed.

(** A manual [disconnect] keeps the queue: what was queued before it is
    sent, in order, when the hook connects again and the new socket
    opens. *)
Theorem hook_disconnect_keeps_the_queue (s : hook) :
  let s1 := disconnect s in
  let s2 := connect s1 in
  let s3 := onopen (socketBecomes OPEN s2) in
  messageQueueRef s1 = messageQueueRef s /\
  transmitted (effects s3) = transmitted (effects s) ++ map Text (messageQueueRef s) /\
  messageQueueRef s3 = [].
Proof.
  cbv zeta.
  destruct (disconnect_keeps s) as [Hq1 He1].
  set (s1 := disconnect s) in *. clearbody s1.
  destruct (connect_keeps s1) as (Hq2 & He2 & sock & Hsock).
  set (s2 := connect s1) in *. clearbody s2.
  destruct (onopen_flushes s2 sock Hsock) as [Htx Hq3].
  split; [exact Hq1|]. split; [|exact Hq3].
  rewrite Htx, He2, He1, Hq2, Hq1. reflexivity.
Qed.

(** *** Backoff *)

Lemma power_three_halves_succ (z : Z) : Qpower (3 # 2) (z + 1) == (3 # 2) * Qpower (3 # 2) z.
Proof.
  rewrite Qpower_plus by discriminate.
  change (Qpower (3 # 2) 1) with (3 # 2). ring.
Qed.

Lemma power_three_halves_mono (a b : nat) :
  (a <= b)%nat -> Qpower (3 # 2) (Z.of_nat a) <= Qpower (3 # 2) (Z.of_nat b).
Proof.
  induction 1 as [|b Hle IH]; [apply Qle_refl|].
  rewrite Nat2Z.inj_succ. unfold Z.succ. rewrite power_three_halves_succ.
  assert (Hpos : 0 < Qpower (3 # 2) (Z.of_nat b)) by (apply Qpower_0_lt; reflexivity).
  set (p := Qpower (3 # 2) (Z.of_nat b)) in *.
  set (q := Qpower (3 # 2) (Z.of_nat a)) in *. clearbody p q. lra.
Qed.

(** The timers [onclose] leaves pending do not depend on the counter in
    the state, only on the counter [attempts] its closure holds.  The
    reconnect timer it leaves pending, if any, was scheduled by this very
    call: the close was unclean, [shouldReconnect] is on and [attempts]
    is below [reconnectAttempts].  Its delay is
    [reconnectInterval * 1.5^attempts], without jitter, so with a base
    delay that is not negative no delay exceeds
    [reconnectInterval * 1.5^(reconnectAttempts - 1)]: 15187.5 ms with
    the default options. *)
Theorem hook_backoff_is_bounded_by_the_attempt_limit (attempts : nat) (wasClean : bool)
  (s : hook) (t : timer)
  (Hok : reconnectRefOk s)
  (Hin : In t (pending (onclose attempts wasClean s)))
  (Hkind : kindOf t = ReconnectTimer) :
  (forall n, pending (onclose attempts wasClean (set_connectionAttempts n s))
             = pending (onclose attempts wasClean s)) /\
  wasClean = false /\ shouldReconnect (config s) = true /\
  (attempts < reconnectAttempts (config s))%nat /\
  reconnectTimeoutRef (onclose attempts wasClean s) = Some (timerId t) /\
  delayOf t = reconnectInterval (config s) * Qpower (3 # 2) (Z.of_nat attempts) /\
  (0 <= reconnectInterval (config s) ->
   delayOf t
   <= reconnectInterval (config s)
      * Qpower (3 # 2) (Z.of_nat (reconnectAttempts (config s)) - 1)) /\
  (config s = defaultOptions -> delayOf t <= 30375 # 2).
Proof.
  split.
  { intro n. destruct s as [cfg rs lm ca ic er ws rt ht mq lr al pd nt ns ef].
    unfold onclose, clearTimeouts, setTimer, clearTimer, perform. cbn.
    destruct rt as [r|], ht as [h|]; cbn;
      repeat match goal with
             | |- context [if ?b then _ else _] => destruct b
             end; reflexivity. }
  assert (Hrec : In (timerId t) (reconnectIds (pending (onclose attempts wasClean s)))).
  { apply reconnectIds_In. exists t. unfold isReconnect. rewrite Hkind. tauto. }
  revert Hin Hrec. unfold onclose. fold (closedState s).
  destruct (closedState_facts s Hok) as (Hnone & _ & Hc & _).
  rewrite Hc.
  destruct (shouldReconnect (config s)) eqn:Hon;
    [|cbn [andb]; intros _ Hrec; rewrite Hnone in Hrec; contradiction].
  destruct (attempts <? reconnectAttempts (config s))%nat eqn:Hlt;
    [|cbn [andb]; intros _ Hrec; rewrite Hnone in Hrec; contradiction].
  destruct wasClean;
    [cbn [andb negb]; intros _ Hrec; rewrite Hnone in Hrec; contradiction|].
  cbn [andb negb]. unfold setTimer.
  cbn [set_connectionAttempts set_reconnectTimeoutRef set_nextTimer set_pending
       pending reconnectTimeoutRef config nextTimer].
  rewrite Hc. intros Hin _.
  apply Nat.ltb_lt in Hlt.
  assert (Ht : t = {| timerId := nextTimer (closedState s); kindOf := ReconnectTimer;
                      delayOf := backoffDelay (config s) (S attempts) |}).
  { apply in_app_or in Hin. destruct Hin as [Hin|[E|[]]]; [|symmetry; exact E].
    exfalso.
    assert (Hid : In (timerId t) (reconnectIds (pending (closedState s)))).
    { apply reconnectIds_In. exists t. unfold isReconnect. rewrite Hkind. tauto. }
    rewrite Hnone in Hid. contradiction. }
  assert (Hd : delayOf t
               = reconnectInterval (config s) * Qpower (3 # 2) (Z.of_nat attempts)).
  { rewrite Ht. cbn [delayOf]. unfold backoffDelay.
    replace (Z.of_nat (S attempts) - 1)%Z with (Z.of_nat attempts) by lia.
    reflexivity. }
  assert (Hbound : 0 <= reconnectInterval (config s) ->
            delayOf t
            <= reconnectInterval (config s)
               * Qpower (3 # 2) (Z.of_nat (reconnectAttempts (config s)) - 1)).
  { intro Hbase. rewrite Hd.
    replace (Z.of_nat (reconnectAttempts (config s)) - 1)%Z
      with (Z.of_nat (reconnectAttempts (config s) - 1)) by lia.
    pose proof (power_three_halves_mono attempts (reconnectAttempts (config s) - 1)) as Hm.
    assert (Hle : (attempts <= reconnectAttempts (config s) - 1)%nat) by lia.
    specialize (Hm Hle).
    rewrite !(Qmult_comm (reconnectInterval (config s))).
    apply Qmult_le_compat_r; assumption. }
  split; [reflexivity|]. split; [reflexivity|]. split; [exact Hlt|].
  split; [rewrite Ht; reflexivity|]. split; [exact Hd|]. split; [exact Hbound|].
  intro Hdef. rewrite Hdef in Hbound.
  eapply Qle_trans; [apply Hbound; discriminate|].
  vm_compute. discriminate.
Qed.

(** The first unclean close of a hook with default options: the delay is
    3000 ms. *)
Lemma hook_backoff_is_bounded_by_the_attempt_limit_witness :
  delayOf {| timerId := 1; kindOf := ReconnectTimer; delayOf := 3000 |} <= 30375 # 2.
Proof.
  assert (Hok : reconnectRefOk (socketBecomes CLOSED (connect (mount defaultOptions))))
    by (intros id Hid; vm_compute in Hid; contradiction).
  assert (Hin : In {| timerId := 1; kindOf := ReconnectTimer; delayOf := 3000 |}
                  (pending (onclose 0 false
                              (socketBecomes CLOSED (connect (mount defaultOptions))))))
    by (vm_compute; left; reflexivity).
  destruct (hook_backoff_is_bounded_by_the_attempt_limit 0 false _ _ Hok Hin eq_refl)
    as (_ & _ & _ & _ & _ & _ & _ & H).
  apply H. vm_compute. reflexivity.
Defined.

(** *** Heartbeat *)

Definition isHeartbeat (t : timer) : bool :=
  match kindOf t with
  | HeartbeatTimer => true
  | _ => false
  end.

(** The pending heartbeat timers. *)
Definition heartbeats (l : list timer) : list timer := filter isHeartbeat l.

Lemma heartbeats_cancel (t : timer) (l : list timer) :
  In t l -> isHeartbeat t = true ->
  (List.length (heartbeats (cancel (timerId t) l)) < List.length (heartbeats l))%nat.
Proof.
  intros Hin Hk. unfold heartbeats, cancel.
  induction l as [|x l IH]; [contradiction|].
  assert (Hle : forall l0 : list timer,
            (List.length (filter isHeartbeat
                            (filter (fun t0 => negb (Pos.eqb (timerId t0) (timerId t))) l0))
             <= List.length (filter isHeartbeat l0))%nat).
  { induction l0 as [|y l0 IH0]; [reflexivity|].
    cbn [filter]. destruct (negb _); cbn [filter]; destruct (isHeartbeat y);
      cbn [List.length]; lia. }
  cbn [filter]. destruct Hin as [->|Hin].
  - rewrite Pos.eqb_refl, Hk. cbn [negb List.length]. specialize (Hle l). lia.
  - specialize (IH Hin).
    destruct (negb _); cbn [filter]; destruct (isHeartbeat x); cbn [List.length]; lia.
Qed.

Lemma startHeartbeat_heartbeats (s : hook) :
  (List.length (heartbeats (pending (startHeartbeat s)))
   <= S (List.length (heartbeats (pending s))))%nat.
Proof.
  unfold startHeartbeat, heartbeats.
  destruct (Qltb 0 (heartbeatInterval (config s))); [|lia].
  unfold setTimer. cbn [pending set_heartbeatTimeoutRef set_nextTimer set_pending].
  rewrite filter_app, length_app. cbn. lia.
Qed.

(** A heartbeat timeout that fires is replaced by at most one successor,
    so heartbeats do not multiply.  On a socket that is not open, or
    without a socket, it sends nothing and is not replaced: the heartbeat
    stops until the next [onopen].  On an open socket it sends one
    ping. *)
Theorem heartbeat_rearms_only_on_an_open_socket (t : timer) (now : Z) (s : hook)
  (Hin : In t (pending s)) (Hkind : kindOf t = HeartbeatTimer) :
  (List.length (heartbeats (pending (fire t now s)))
   <= List.length (heartbeats (pending s)))%nat /\
  (socketOpen s = None ->
   effects (fire t now s) = effects s /\
   (List.length (heartbeats (pending (fire t now s)))
    < List.length (heartbeats (pending s)))%nat) /\
  (forall id, socketOpen s = Some id ->
     effects (fire t now s)
     = effects s ++ [Transmit id (Text (stringify (heartbeatMessage now)))]).
Proof.
  assert (Hhb : isHeartbeat t = true) by (unfold isHeartbeat; rewrite Hkind; reflexivity).
  pose proof (heartbeats_cancel t (pending s) Hin Hhb) as Hless.
  unfold fire. rewrite Hkind. unfold heartbeatFires.
  change (socketOpen (clearTimer (timerId t) s)) with (socketOpen s).
  destruct (socketOpen s) as [id|].
  - set (s1 := perform _ (clearTimer (timerId t) s)).
    pose proof (startHeartbeat_heartbeats s1) as Hstart.
    change (pending s1) with (cancel (timerId t) (pending s)) in Hstart.
    split; [lia|]. split; [discriminate|].
    intros id' H. injection H as <-.
    rewrite startHeartbeat_effects. reflexivity.
  - change (pending (clearTimer (timerId t) s)) with (cancel (timerId t) (pending s)).
    split; [lia|]. split; [|discriminate].
    intros _. split; [reflexivity | exact Hless].
Qed.

(** A hook with default options whose socket has opened. *)
Definition openedHook : hook :=
  onopen (socketBecomes OPEN (connect (mount defaultOptions))).

Definition firstHeartbeat : timer :=
  {| timerId := 1; kindOf := HeartbeatTimer; delayOf := 30000 |}.

Lemma heartbeat_rearms_only_on_an_open_socket_witness :
  pending openedHook = [firstHeartbeat] /\
  (List.length (heartbeats (pending (fire firstHeartbeat 9 openedHook))) <= 1)%nat.
Proof.
  assert (Hp : pending openedHook = [firstHeartbeat]) by (vm_compute; reflexivity).
  split; [exact Hp|].
  assert (Hin : In firstHeartbeat (pending openedHook))
    by (rewrite Hp; left; reflexivity).
  destruct (heartbeat_rearms_only_on_an_open_socket firstHeartbeat 9 openedHook Hin eq_refl)
    as [H _].
  rewrite Hp in H. exact H.
Defined.

End HookMore.

(* ------------------------------------------------------------------ *)
(** * Properties of hooks/useOrderBook.js *)

Module OrderBookHookFacts.
Import Wire OrderBookHook.

(** *** Objects used as maps *)





Lemma lookup_remove_same {V : Type} (k : string) (o : object V) :
  lookup k (remove k o) = None.
Proof.
  unfold remove. induction o as [|[k0 v0] o IH]; [reflexivity|].
  cbn [filter fst]. destruct (String.eqb k0 k) eqn:E; cbn [negb]; [exact IH|].
  cbn [lookup]. rewrite E. exact IH.
Qed.

Lemma lookup_remove_other {V : Type} (k k' : string) (o : object V) :
  k' <> k -> lookup k' (remove k o) = lookup k' o.
Proof.
  intro Hne. unfold remove. induction o as [|[k0 v0] o IH]; [reflexivity|].
  cbn [filter fst]. destruct (String.eqb_spec k0 k) as [->|E]; cbn [negb lookup].
  - destruct (String.eqb_spec k k'); [congruence | exact IH].
  - destruct (String.eqb k0 k'); [reflexivity | exact IH].
Qed.

(** *** The transformation of level arrays *)

Section Normalization.

Variable numberToString : Q -> string.

Definition priceOf (l : level) : scalar := orElse (Price l) (price l).
Definition quantityOf (l : level) : scalar := orElse (Quantity l) (quantity l).

(** A level the transformation keeps: price and quantity are truthy. *)
Definition kept (l : level) : bool :=
  truthyScalar (priceOf l) && truthyScalar (quantityOf l).







(** *** handleWebSocketMessage *)

(** The book a message is about, [data.data || data], for a message
    that is an update or carries [data]. *)
Definition bookOf (message : incoming) : option rawOrderBook :=
  match message with
  | JsonObject type data self =>
      if isUpdate type || match data with NoData => false | _ => true end
      then rawOf data self
      else None
  | _ => None
  end.






End Normalization.

(** *** subscribeToSymbols and unsubscribeFromSymbols *)

Lemma has_In (x : string) (set : list string) : has x set = true <-> In x set.
Proof.
  unfold has. rewrite existsb_exists. split.
  - intros (y & Hy & E). apply String.eqb_eq in E. subst. exact Hy.
  - intro H. exists x. split; [exact H | apply String.eqb_refl].
Qed.

Lemma has_not_In (x : string) (set : list string) : has x set = false <-> ~ In x set.
Proof.
  rewrite <- has_In. destruct (has x set); split; intro H; congruence.
Qed.

(** The hook's [subscribe] on an open socket. *)
Lemma hook_subscribe_open (channels : Hook.channelsArg) (now : Z) (h : Hook.hook)
  (sock : Hook.socket) :
  Hook.webSocketRef h = Some sock -> Hook.socketState sock = Hook.OPEN ->
  Hook.effects (snd (Hook.subscribe channels now h))
  = Hook.effects h
    ++ [Transmit (Hook.socketId sock) (Text (stringify (Hook.subscribeMessage channels now)))]
  /\ Hook.webSocketRef (snd (Hook.subscribe channels now h)) = Some sock.
Proof.
  intros Hw Ho. unfold Hook.subscribe, Hook.sendJsonMessage, Hook.sendMessage.
  rewrite Hw, Ho. cbn [Hook.isOpen snd]. split; [reflexivity | exact Hw].
Qed.

Section Subscribing.

Variables (o : subscriptionOptions) (isConnected : bool) (now : Z).

(** What a run of the loop of [subscribeToSymbols] adds. *)
Lemma subscribe_loop (symbols : list string) :
  forall s,
  exists news,
    let s' := fold_left (subscribeOne o isConnected now) symbols s in
    newSubscriptions s' = newSubscriptions s ++ news /\
    NoDup news /\
    (forall x, In x news <-> In x symbols /\ ~ In x (newSubscriptions s)) /\
    books s' = books s /\
    fetched s' = fetched s ++ (if enablePolling o then news else []) /\
    (enableWebSocket o && isConnected = false -> socketHook s' = socketHook s) /\
    (enableWebSocket o && isConnected = true ->
     forall sock,
       Hook.webSocketRef (socketHook s) = Some sock ->
       Hook.socketState sock = Hook.OPEN ->
       Hook.effects (socketHook s')
       = Hook.effects (socketHook s)
         ++ map (fun x => Transmit (Hook.socketId sock)
                            (Text (stringify (Hook.symbolSubscription x now)))) news).
Proof.
  induction symbols as [|x symbols IH]; intro s.
  - exists []. cbn [fold_left]. rewrite !app_nil_r.
    split; [reflexivity|]. split; [constructor|].
    split; [intro y; split; [intros [] | intros [[] _]]|].
    split; [reflexivity|].
    split; [destruct (enablePolling o); rewrite app_nil_r; reflexivity|].
    split; [reflexivity|]. intros _ sock _ _. cbn [map]. rewrite app_nil_r. reflexivity.
  - cbn [fold_left].
    destruct (has x (newSubscriptions s)) eqn:Ehas.
    + assert (E1 : subscribeOne o isConnected now s x = s)
        by (unfold subscribeOne; rewrite Ehas; reflexivity).
      rewrite E1. apply has_In in Ehas.
      destruct (IH s) as (news & H1 & H2 & H3 & H4 & H5 & H6 & H7).
      exists news. cbv zeta in *.
      split; [exact H1|]. split; [exact H2|]. split.
      { intro y. rewrite H3. cbn [In]. split; [tauto|].
        intros [[<-|Hy] Hn]; [contradiction | tauto]. }
      split; [exact H4|]. split; [exact H5|]. split; [exact H6 | exact H7].
    + assert (E1 : subscribeOne o isConnected now s x
                   = {| newSubscriptions := newSubscriptions s ++ [x];
                        books := books s;
                        socketHook :=
                          if enableWebSocket o && isConnected
                          then snd (Hook.subscribe (Hook.orderBookChannel x) now
                                      (socketHook s))
                          else socketHook s;
                        fetched := if enablePolling o then fetched s ++ [x]
                                   else fetched s |})
        by (unfold subscribeOne; rewrite Ehas; reflexivity).
      rewrite E1. clear E1. apply has_not_In in Ehas.
      set (s1 := {| newSubscriptions := newSubscriptions s ++ [x]; books := books s;
                    socketHook := _; fetched := _ |}).
      destruct (IH s1) as (news & H1 & H2 & H3 & H4 & H5 & H6 & H7).
      exists (x :: news). cbv zeta in *.
      assert (Hx : ~ In x news).
      { intro Hin. apply H3 in Hin. destruct Hin as [_ Hn]. apply Hn.
        subst s1. cbn [newSubscriptions]. apply in_or_app. right. left. reflexivity. }
      split; [rewrite H1; subst s1; cbn [newSubscriptions]; rewrite <- app_assoc;
              reflexivity|].
      split; [constructor; assumption|].
      split.
      { intro y. cbn [In]. rewrite H3. subst s1. cbn [newSubscriptions].
        rewrite in_app_iff. cbn [In]. split.
        - intros [<-|[Hy Hn]]; [split; [left; reflexivity | exact Ehas]|].
          split; [right; exact Hy | tauto].
        - intros [[<-|Hy] Hn]; [left; reflexivity|].
          destruct (string_dec x y) as [E|E]; [left; exact E | right].
          split; [exact Hy|]. intros [H|[H|[]]]; [contradiction | congruence]. }
      split; [rewrite H4; reflexivity|].
      split.
      { rewrite H5. subst s1. cbn [fetched].
        destruct (enablePolling o); rewrite <- ?app_assoc; reflexivity. }
      split.
      { intro E. rewrite (H6 E). subst s1. cbn [socketHook]. rewrite E. reflexivity. }
      intros E sock Hw Ho.
      destruct (hook_subscribe_open (Hook.orderBookChannel x) now (socketHook s) sock Hw Ho)
        as [He1 Hw1].
      assert (Hh1 : socketHook s1
                    = snd (Hook.subscribe (Hook.orderBookChannel x) now (socketHook s)))
        by (subst s1; cbn [socketHook]; rewrite E; reflexivity).
      rewrite (H7 E sock); [|rewrite Hh1; exact Hw1 | exact Ho].
      rewrite Hh1, He1, <- app_assoc. reflexivity.
Qed.


(** What a run of the loop of [unsubscribeFromSymbols] removes. *)
Lemma unsubscribe_loop (symbols : list string) :
  forall s,
  let s' := fold_left (unsubscribeOne o isConnected now) symbols s in
  (forall x, In x (newSubscriptions s') <->
             In x (newSubscriptions s) /\ ~ In x symbols) /\
  (forall x, In x symbols -> In x (newSubscriptions s) -> lookup x (books s') = None) /\
  (forall x, ~ (In x symbols /\ In x (newSubscriptions s)) ->
             lookup x (books s') = lookup x (books s)) /\
  fetched s' = fetched s /\
  (enableWebSocket o && isConnected = false -> socketHook s' = socketHook s).
Proof.
  induction symbols as [|y symbols IH]; intro s; cbv zeta.
  - cbn [fold_left In]. repeat split; tauto.
  - cbn [fold_left].
    destruct (has y (newSubscriptions s)) eqn:Ehas.
    + assert (E1 : unsubscribeOne o isConnected now s y
                   = {| newSubscriptions :=
                          filter (fun x => negb (String.eqb y x)) (newSubscriptions s);
                        books := remove y (books s);
                        socketHook :=
                          if enableWebSocket o && isConnected
                          then snd (Hook.unsubscribe (Hook.orderBookChannel y) now
                                      (socketHook s))
                          else socketHook s;
                        fetched := fetched s |})
        by (unfold unsubscribeOne; rewrite Ehas; reflexivity).
      rewrite E1. clear E1. apply has_In in Ehas.
      set (s1 := {| newSubscriptions := filter _ (newSubscriptions s);
                    books := remove y (books s); socketHook := _; fetched := fetched s |}).
      destruct (IH s1) as (H1 & H2 & H3 & H4 & H5). cbv zeta in *.
      assert (Hs1 : forall x, In x (newSubscriptions s1)
                              <-> In x (newSubscriptions s) /\ x <> y).
      { intro x. subst s1. cbn [newSubscriptions].
        rewrite filter_In, negb_true_iff, String.eqb_neq.
        split; intros [Ha Hb]; split; auto. }
      split; [|split; [|split; [|split]]].
      * intro x. rewrite H1, Hs1. cbn [In]. split.
        -- intros [[Ha Hb] Hc]. split; [exact Ha|]. intros [E|E]; [congruence | tauto].
        -- intros [Ha Hb]. repeat split; auto.
      * intros x Hx Hin.
        destruct (string_dec x y) as [->|Hne].
        -- destruct (in_dec string_dec y symbols) as [Hy|Hy].
           ++ rewrite H3; [apply lookup_remove_same|].
              intros [_ Hc]. apply Hs1 in Hc. destruct Hc as [_ Hc]. apply Hc. reflexivity.
           ++ rewrite H3; [apply lookup_remove_same | tauto].
        -- destruct Hx as [Hx|Hx]; [congruence|].
           apply H2; [exact Hx | apply Hs1; split; assumption].
      * intros x Hn.
        assert (Hxy : x <> y) by (intros ->; apply Hn; split; [left; reflexivity | exact Ehas]).
        rewrite H3.
        -- subst s1. cbn [books]. apply lookup_remove_other. exact Hxy.
        -- intros [Ha Hb]. apply Hs1 in Hb. apply Hn. split; [right; exact Ha | tauto].
      * exact H4.
      * intro E. rewrite (H5 E). subst s1. cbn [socketHook]. rewrite E. reflexivity.
    + assert (E1 : unsubscribeOne o isConnected now s y = s)
        by (unfold unsubscribeOne; rewrite Ehas; reflexivity).
      rewrite E1. clear E1. apply has_not_In in Ehas.
      destruct (IH s) as (H1 & H2 & H3 & H4 & H5). cbv zeta in *.
      split; [|split; [|split; [|split]]]; try assumption.
      * intro x. rewrite H1. cbn [In]. split.
        -- intros [Ha Hb]. split; [exact Ha|]. intros [E|E]; [congruence | tauto].
        -- intros [Ha Hb]. split; [exact Ha | tauto].
      * intros x [<-|Hx] Hin; [contradiction | apply H2; assumption].
      * intros x Hn. apply H3. intros [Ha Hb]. apply Hn. split; [right; exact Ha | exact Hb].
Qed.

(** [unsubscribeFromSymbols] takes the given symbols out of the set and
    deletes the book of every symbol it takes out; the book of a symbol
    that was not subscribed stays, as do all other books; nothing is
    fetched; and with the web socket disabled or seen as disconnected
    nothing is sent or queued.  Unsubscribing from the symbols just
    subscribed, none of which was held before, restores the set. *)
Theorem unsubscribing_drops_symbols_and_books (symbolList : symbolsArg)
  (s : subscriptionState) :
  let s' := unsubscribeFromSymbols o isConnected now symbolList s in
  (forall x, In x (newSubscriptions s') <->
             In x (newSubscriptions s) /\ ~ In x (symbolsOf symbolList)) /\
  (forall x, In x (symbolsOf symbolList) -> In x (newSubscriptions s) ->
             lookup x (books s') = None) /\
  (forall x, ~ (In x (symbolsOf symbolList) /\ In x (newSubscriptions s)) ->
             lookup x (books s') = lookup x (books s)) /\
  fetched s' = fetched s /\
  (enableWebSocket o && isConnected = false -> socketHook s' = socketHook s) /\
  ((forall x, In x (symbolsOf symbolList) -> ~ In x (newSubscriptions s)) ->
   forall x,
     In x (newSubscriptions
             (unsubscribeFromSymbols o isConnected now symbolList
                (subscribeToSymbols o isConnected now symbolList s)))
     <-> In x (newSubscriptions s)).
Proof.
  cbv zeta. unfold unsubscribeFromSymbols.
  destruct (unsubscribe_loop (symbolsOf symbolList) s) as (H1 & H2 & H3 & H4 & H5).
  cbv zeta in *.
  repeat (split; [assumption|]).
  intros Hfresh x.
  destruct (unsubscribe_loop (symbolsOf symbolList)
              (subscribeToSymbols o isConnected now symbolList s)) as (G1 & _).
  cbv zeta in G1. rewrite G1.
  unfold subscribeToSymbols.
  destruct (subscribe_loop (symbolsOf symbolList) s) as (news & S1 & _ & S3 & _).
  cbv zeta in *. rewrite S1, in_app_iff, S3. split.
  - intros [[Ha|[Ha _]] Hb]; [exact Ha | contradiction].
  - intro Hx. split; [left; exact Hx|]. intro Hin. apply (Hfresh x Hin Hx).
Qed.

End Subscribing.

End OrderBookHookFacts.
